(** * poomer-discord-vmax: the durable work queue and the job pipeline

    A shallow embedding of [src/poomer-discord-vmax.cpp]: the [WorkQueue]
    class (an SQLite table behind a mutex and a condition variable), the
    [parseOrbit] helper, the control flow of [processVmaxFile] and the
    [workerThread] loop.

    Modelling conventions.
    - The [work_queue] table is a finite map from the primary key [id] to
      the remaining columns.  [AUTOINCREMENT] is the counter [db_seq].
    - Every SQLite call is taken to succeed; the branches that log an
      SQLite error and return early never touch the table.
    - Each public method of [WorkQueue] is one atomic transition of the
      queue state, [requestShutdown] included.
    - [std::time(nullptr)] is an explicit argument [now].
    - A call of [queue_condition.notify_one/notify_all] is returned to the
      caller as a [Wake] value.
    - What the collaborators do (the download, [unzip], the scene builder,
      the renderer, [ffmpeg], the delivery, the [/remove] command) is read
      from a script; the renderer finishes every frame after a number of
      polls which the script gives. *)

From stdpp Require Import gmap strings list fin_maps sorting.
From Stdlib Require Import ZArith Ascii String Lia.

Local Open Scope Z_scope.

(** ** The persisted table *)

(** The three values the code ever writes to the [status] column. *)
Inductive Status := pending | processing | completed.

#[global] Instance Status_eq_dec : EqDecision Status.
Proof. solve_decision. Defined.

(** One row of [work_queue], without its key. *)
Module DbRow.
Record t := mk {
  attachment_url : string;
  original_filename : string;
  channel_id : Z;
  user_id : Z;
  created_at : Z;
  retry_count : Z;
  status : Status;
  bella_start_time : Z;
  bella_end_time : Z;
  username : string;
  message_content : string
}.

Definition set_status (s : Status) (r : t) : t :=
  mk (attachment_url r) (original_filename r) (channel_id r) (user_id r)
     (created_at r) (retry_count r) s (bella_start_time r)
     (bella_end_time r) (username r) (message_content r).

Definition set_retry_count (n : Z) (r : t) : t :=
  mk (attachment_url r) (original_filename r) (channel_id r) (user_id r)
     (created_at r) n (status r) (bella_start_time r)
     (bella_end_time r) (username r) (message_content r).

Definition set_bella_start_time (n : Z) (r : t) : t :=
  mk (attachment_url r) (original_filename r) (channel_id r) (user_id r)
     (created_at r) (retry_count r) (status r) n
     (bella_end_time r) (username r) (message_content r).

Definition set_bella_end_time (n : Z) (r : t) : t :=
  mk (attachment_url r) (original_filename r) (channel_id r) (user_id r)
     (created_at r) (retry_count r) (status r) (bella_start_time r)
     n (username r) (message_content r).
End DbRow.

(** [struct WorkItem]. *)
Record WorkItem := mkWorkItem {
  id : Z;
  attachment_url : string;
  original_filename : string;
  channel_id : Z;
  user_id : Z;
  username : string;
  message_content : string;
  created_at : Z;
  retry_count : Z
}.

(** [class WorkQueue]: the table and the three atomics. *)
Record WorkQueue := mkWorkQueue {
  db : gmap Z DbRow.t;
  db_seq : Z;
  shutdown_requested : bool;
  cancel_current_job : bool;
  current_job_id : Z
}.

Definition set_db (m : gmap Z DbRow.t) (q : WorkQueue) : WorkQueue :=
  mkWorkQueue m (db_seq q) (shutdown_requested q) (cancel_current_job q)
              (current_job_id q).

(** What a method does to [queue_condition]. *)
Inductive Wake := NoWake | NotifyOne | NotifyAll.

(** [sqlite3_column_int]: the low 32 bits of the stored 64-bit integer,
    read as a signed [int]. *)
Definition sqlite3_column_int (v : Z) : Z :=
  (v + 2 ^ 31) mod 2 ^ 32 - 2 ^ 31.

(** ** WorkQueue::initialize *)

Definition retention_window : Z := 24 * 60 * 60.

(** [DELETE FROM work_queue WHERE status = 'completed' AND bella_end_time < ?] *)
Definition expired (cutoff_time : Z) (r : DbRow.t) : bool :=
  bool_decide (DbRow.status r = completed) && (DbRow.bella_end_time r <? cutoff_time).

(** [... WHERE status = 'processing' AND bella_end_time = 0] *)
Definition stuck (r : DbRow.t) : bool :=
  bool_decide (DbRow.status r = processing) && (DbRow.bella_end_time r =? 0).

Definition reset_processing (r : DbRow.t) : DbRow.t :=
  if stuck r then DbRow.set_status pending r else r.

Definition initialize (now : Z) (q : WorkQueue) : bool * WorkQueue :=
  let cutoff_time := now - retention_window in
  let kept := filter (fun kr => expired cutoff_time kr.2 = false) (db q) in
  (true, set_db (reset_processing <$> kept) q).

(** ** WorkQueue::enqueue *)

(** The inserted row: the eight bound columns, the others at their
    declared defaults. *)
Definition row_of_item (item : WorkItem) : DbRow.t :=
  DbRow.mk (attachment_url item) (original_filename item) (channel_id item)
         (user_id item) (created_at item) (retry_count item) pending 0 0
         (username item) (message_content item).

Definition enqueue (item : WorkItem) (q : WorkQueue) : bool * Wake * WorkQueue :=
  let rowid := db_seq q + 1 in
  (true, NotifyOne,
   mkWorkQueue (<[rowid := row_of_item item]> (db q)) rowid
               (shutdown_requested q) (cancel_current_job q)
               (current_job_id q)).

(** ** WorkQueue::markProcessing and WorkQueue::dequeue *)

Definition markProcessing (item_id : Z) (q : WorkQueue) : bool * WorkQueue :=
  (true, set_db (alter (DbRow.set_status processing) item_id (db q)) q).

(** [ORDER BY created_at ASC]: the index [idx_status_created] lists equal
    keys in rowid order, so ties go to the smaller [id]. *)
Definition older (a b : Z * DbRow.t) : bool :=
  (DbRow.created_at a.2 <? DbRow.created_at b.2)
  || ((DbRow.created_at a.2 =? DbRow.created_at b.2) && (a.1 <? b.1)).

Definition pick_older (a : Z * DbRow.t) (acc : option (Z * DbRow.t)) : option (Z * DbRow.t) :=
  match acc with
  | None => Some a
  | Some b => if older a b then Some a else Some b
  end.

(** [SELECT ... WHERE status = ? ORDER BY created_at ASC LIMIT 1] *)
Definition select_oldest (s : Status) (m : gmap Z DbRow.t) : option (Z * DbRow.t) :=
  foldr pick_older None
        (filter (fun kr => DbRow.status kr.2 = s) (map_to_list m)).

Definition item_of_row (k : Z) (r : DbRow.t) : WorkItem :=
  mkWorkItem k (DbRow.attachment_url r) (DbRow.original_filename r)
             (DbRow.channel_id r) (DbRow.user_id r) (DbRow.username r)
             (DbRow.message_content r) (DbRow.created_at r)
             (sqlite3_column_int (DbRow.retry_count r)).

(** One pass through the body of the [while (!shutdown_requested)] loop.
    [sqlite3_prepare_v2] and [sqlite3_step] are taken to succeed: the two
    exits that return false on their failure, with the shutdown flag down,
    are left out. *)
Inductive Dequeued :=
| Claimed (item : WorkItem) (q : WorkQueue)
| Closed
| Waiting.

Definition dequeue_attempt (q : WorkQueue) : Dequeued :=
  if shutdown_requested q then Closed
  else match select_oldest pending (db q) with
       | Some (k, r) => Claimed (item_of_row k r) (markProcessing k q).2
       | None => Waiting
       end.

(** ** WorkQueue::markCompleted, markFailed, markBellaStarted *)

Definition markCompleted (now : Z) (item_id : Z) (q : WorkQueue) : bool * WorkQueue :=
  (true,
   set_db (alter (fun r => DbRow.set_bella_end_time now (DbRow.set_status completed r))
                 item_id (db q)) q).

Definition markFailed (item_id : Z) (max_retries : Z) (q : WorkQueue)
  : bool * Wake * WorkQueue :=
  match db q !! item_id with
  | None => (false, NoWake, q)
  | Some r =>
      let current_retries := sqlite3_column_int (DbRow.retry_count r) in
      if max_retries <=? current_retries
      then (true, NoWake, set_db (delete item_id (db q)) q)
      else (true, NotifyOne,
            set_db (alter (fun r => DbRow.set_status pending
                                      (DbRow.set_retry_count (current_retries + 1) r))
                          item_id (db q)) q)
  end.

Definition default_max_retries : Z := 3.

Definition markBellaStarted (now : Z) (item_id : Z) (q : WorkQueue) : bool * WorkQueue :=
  (true, set_db (alter (DbRow.set_bella_start_time now) item_id (db q)) q).

(** ** Cancellation *)

Definition cancelCurrentJob (q : WorkQueue) : string * WorkQueue :=
  match select_oldest processing (db q) with
  | Some (_, r) =>
      (DbRow.original_filename r,
       mkWorkQueue (db q) (db_seq q) (shutdown_requested q) true
                   (current_job_id q))
  | None => (EmptyString, q)
  end.

Definition shouldCancelCurrentJob (q : WorkQueue) : bool :=
  cancel_current_job q.

Definition markCurrentJobCancelled (q : WorkQueue) : WorkQueue :=
  let job_id := current_job_id q in
  if 0 <? job_id
  then mkWorkQueue (delete job_id (db q)) (db_seq q) (shutdown_requested q)
                   false 0
  else mkWorkQueue (db q) (db_seq q) (shutdown_requested q) false job_id.

Definition setCurrentJobId (job_id : Z) (q : WorkQueue) : WorkQueue :=
  mkWorkQueue (db q) (db_seq q) (shutdown_requested q) (cancel_current_job q)
              job_id.

Definition getCurrentJobOwnerId (q : WorkQueue) : Z :=
  match select_oldest processing (db q) with
  | Some (_, r) => DbRow.user_id r
  | None => 0
  end.

Definition requestShutdown (q : WorkQueue) : Wake * WorkQueue :=
  (NotifyAll,
   mkWorkQueue (db q) (db_seq q) true (cancel_current_job q) (current_job_id q)).

(** The actions of the other threads on the queue: the bot's message
    handler, the [/remove] command and [main] at shutdown. *)
Inductive Action :=
| act_enqueue (item : WorkItem)
| act_cancel
| act_shutdown.

Definition perform (a : Action) (q : WorkQueue) : Wake * WorkQueue :=
  match a with
  | act_enqueue item => let '(_, wk, q') := enqueue item q in (wk, q')
  | act_cancel => (NoWake, (cancelCurrentJob q).2)
  | act_shutdown => requestShutdown q
  end.

Definition is_NoWake (wk : Wake) : bool :=
  match wk with
  | NoWake => true
  | NotifyOne | NotifyAll => false
  end.

(** [WorkQueue::dequeue].  [queue_condition.wait(lock)] gives up the
    mutex; [env] lists what the other threads do to the queue while the
    caller is blocked.  The caller sleeps through the actions that notify
    nobody and evaluates the loop condition again after one that notifies.
    [asleep] tells whether the caller is inside [wait]; [Waiting] as a
    result means: still blocked when [env] ends.  These are the schedules
    in which every action of another thread is served while the caller is
    inside [wait]; a [requestShutdown] that falls between the loop test
    and [wait] is not among them, and [dequeue_step] below has them
    all. *)
Fixpoint dequeue_from (asleep : bool) (env : list Action) (q : WorkQueue) : Dequeued :=
  let blocked :=
    match env with
    | [] => Waiting
    | a :: env' =>
        let '(wk, q') := perform a q in
        dequeue_from (is_NoWake wk) env' q'
    end in
  if asleep then blocked
  else match dequeue_attempt q with
       | Waiting => blocked
       | r => r
       end.

Definition dequeue (env : list Action) (q : WorkQueue) : Dequeued :=
  dequeue_from false env q.

(** ** The steps of a call of [dequeue]

    Where the caller stands: waiting for [queue_mutex] (on entry and after
    a wake-up), holding it before the loop test of [while
    (!shutdown_requested)], holding it after a [SELECT] that found no row
    and before [queue_condition.wait(lock)], inside [wait] with the mutex
    released, or back from the call. *)
Inductive Pc :=
| acquiring
| at_test
| before_wait
| in_wait
| returned (r : option WorkItem).

(** [enqueue] and [cancelCurrentJob] lock [queue_mutex];
    [requestShutdown] writes the atomic flag and notifies without it. *)
Definition takes_mutex (a : Action) : bool :=
  match a with
  | act_enqueue _ | act_cancel => true
  | act_shutdown => false
  end.

(** Whose turn it is: the caller of [dequeue] or another thread. *)
Inductive Turn :=
| turn_caller
| turn_other (a : Action).

(** One step.  The caller runs from one of its points to the next.
    Another thread runs one method at a time: a method that takes the mutex
    only while the caller does not hold it, [requestShutdown] at any point;
    a notification wakes the caller when it is inside [wait] and is lost
    otherwise.  [None]: the turn cannot be taken.  Spurious wake-ups are
    left out. *)
Definition dequeue_step (t : Turn) (st : Pc * WorkQueue) : option (Pc * WorkQueue) :=
  let '(pc, q) := st in
  match t with
  | turn_caller =>
      match pc with
      | acquiring => Some (at_test, q)
      | at_test =>
          Some (match dequeue_attempt q with
                | Claimed item q' => (returned (Some item), q')
                | Closed => (returned None, q)
                | Waiting => (before_wait, q)
                end)
      | before_wait => Some (in_wait, q)
      | in_wait | returned _ => None
      end
  | turn_other a =>
      match pc with
      | acquiring => Some (acquiring, (perform a q).2)
      | at_test | before_wait =>
          if takes_mutex a then None else Some (pc, (perform a q).2)
      | in_wait =>
          Some (if is_NoWake (perform a q).1 then in_wait else acquiring, (perform a q).2)
      | returned _ => None
      end
  end.

Fixpoint dequeue_run (schedule : list Turn) (st : Pc * WorkQueue) : option (Pc * WorkQueue) :=
  match schedule with
  | [] => Some st
  | t :: rest =>
      match dequeue_step t st with
      | Some st' => dequeue_run rest st'
      | None => None
      end
  end.

(** ** parseOrbit *)

(** [::tolower] in the "C" locale. *)
Definition tolower (c : ascii) : ascii :=
  let n := nat_of_ascii c in
  if ((65 <=? n) && (n <=? 90))%nat then ascii_of_nat (n + 32) else c.

Fixpoint transform_tolower (s : string) : string :=
  match s with
  | EmptyString => EmptyString
  | String c s' => String (tolower c) (transform_tolower s')
  end.

(** [std::string::find(needle)]; [None] is [npos]. *)
Fixpoint find (needle s : string) : option nat :=
  if String.prefix needle s then Some 0%nat
  else match s with
       | EmptyString => None
       | String _ s' => option_map S (find needle s')
       end.

Definition is_one_of (chars : list ascii) (c : ascii) : bool :=
  existsb (Ascii.eqb c) chars.

(** [std::string::find_first_of(chars, start)]. *)
Fixpoint find_first_of (chars : list ascii) (s : string) (start : nat) : option nat :=
  match s with
  | EmptyString => None
  | String c s' =>
      match start with
      | O => if is_one_of chars c then Some 0%nat
             else option_map S (find_first_of chars s' 0)
      | S k => option_map S (find_first_of chars s' k)
      end
  end.

(** The literal " \t\n\r". *)
Definition orbit_delimiters : list ascii :=
  [ascii_of_nat 32; ascii_of_nat 9; ascii_of_nat 10; ascii_of_nat 13].

(** [std::string::substr(pos, n)] for [pos <= size()]. *)
Definition substr (s : string) (pos n : nat) : string := String.substring pos n s.

(** [std::stoi]: a value, or one of its two exceptions. *)
Inductive Stoi :=
| stoi_value (v : Z)
| invalid_argument
| out_of_range.

(** [isspace] in the "C" locale. *)
Definition isspace (c : ascii) : bool :=
  let n := nat_of_ascii c in
  ((n =? 32) || ((9 <=? n) && (n <=? 13)))%nat.

Definition isdigit (c : ascii) : bool :=
  let n := nat_of_ascii c in ((48 <=? n) && (n <=? 57))%nat.

Definition digit_value (c : ascii) : Z := Z.of_nat (nat_of_ascii c) - 48.

Fixpoint skip_spaces (s : string) : string :=
  match s with
  | String c s' => if isspace c then skip_spaces s' else s
  | EmptyString => s
  end.

(** The value of the longest prefix of decimal digits, after [acc]. *)
Fixpoint read_digits (acc : Z) (s : string) : Z :=
  match s with
  | String c s' => if isdigit c then read_digits (10 * acc + digit_value c) s' else acc
  | EmptyString => acc
  end.

Definition INT_MIN : Z := - 2 ^ 31.
Definition INT_MAX : Z := 2 ^ 31 - 1.

Definition starts_with_digit (s : string) : bool :=
  match s with
  | String c _ => isdigit c
  | EmptyString => false
  end.

Definition stoi (str : string) : Stoi :=
  let s := skip_spaces str in
  let '(negative, body) :=
    match s with
    | String "-"%char s' => (true, s')
    | String "+"%char s' => (false, s')
    | _ => (false, s)
    end in
  if starts_with_digit body then
    let magnitude := read_digits 0 body in
    let v := if negative : bool then - magnitude else magnitude in
    if (INT_MIN <=? v) && (v <=? INT_MAX) then stoi_value v else out_of_range
  else invalid_argument.

Definition parseOrbit (message_content : string) : Z :=
  let content_lower := transform_tolower message_content in
  match find "orbit=" content_lower with
  | None => 0
  | Some pos =>
      let start := (pos + 6)%nat in
      if (String.length message_content <=? start)%nat then 0
      else
        let end_ :=
          match find_first_of orbit_delimiters message_content start with
          | Some e => e
          | None => String.length message_content
          end in
        let frames_str := substr message_content start (end_ - start) in
        match stoi frames_str with
        | stoi_value frames =>
            if (frames <=? 0) || (300 <? frames) then 0 else frames
        | invalid_argument | out_of_range => 0
        end
  end.

(** *** The directive in the words of the specification

    "The message contains an [orbit=] token whose value parses to an
    integer": the message reads [before ++ key ++ value ++ after], where
    [key] is "orbit=" up to letter case, [value] runs to the next
    delimiter or to the end, and [std::stoi] reads [n] from [value]. *)

Definition is_delimiter (c : ascii) : bool := is_one_of orbit_delimiters c.

Fixpoint delimiter_free (s : string) : bool :=
  match s with
  | EmptyString => true
  | String c s' => negb (is_delimiter c) && delimiter_free s'
  end.

Definition ends_token (after : string) : bool :=
  match after with
  | EmptyString => true
  | String c _ => is_delimiter c
  end.

Definition orbit_token_at (message before key value after : string) : Prop :=
  message = before +:+ key +:+ value +:+ after
  /\ transform_tolower key = "orbit="
  /\ delimiter_free value = true
  /\ ends_token after = true.

Definition spec_has_orbit_token (message : string) (n : Z) : Prop :=
  exists before key value after,
    orbit_token_at message before key value after
    /\ stoi value = stoi_value n.

(** The same, for the first [orbit=] of the message only. *)
Definition spec_first_orbit_token (message : string) (n : Z) : Prop :=
  exists before key value after,
    orbit_token_at message before key value after
    /\ stoi value = stoi_value n
    /\ forall before' key' rest',
         message = before' +:+ key' +:+ rest' ->
         transform_tolower key' = "orbit=" ->
         (String.length before <= String.length before')%nat.

(** ** processVmaxFile *)

(** The job-scoped paths: "temp_vmax_file_job<id>.vmax.zip",
    "voxel_max_workdir_job<id>" and "temp_vmax_extract_job<id>". *)
Inductive Path :=
| temp_vmax_filename (item_id : Z)
| work_dir (item_id : Z)
| temp_extract_dir (item_id : Z).

#[global] Instance Path_eq_dec : EqDecision Path.
Proof. solve_decision. Defined.

(** Calls the worker thread makes on the queue and on the bot. *)
Inductive Event :=
| call_setCurrentJobId (job_id : Z)
| call_markCurrentJobCancelled
| call_markBellaStarted (item_id : Z)
| call_markCompleted (item_id : Z)
| call_markFailed (item_id : Z)
| call_message_create (channel : Z).

#[global] Instance Event_eq_dec : EqDecision Event.
Proof. solve_decision. Defined.

(** What the worker thread acts on: the queue, the files on disk, the
    number of cancellation checkpoints the current job has passed, and the
    calls made so far. *)
Record World := mkWorld {
  queue : WorkQueue;
  files : list Path;
  checkpoints : nat;
  calls : list Event
}.

Definition file_exists (p : Path) (w : World) : bool := bool_decide (p ∈ files w).

(** What the collaborators report for one run of the pipeline. *)
Record PipelineRun := mkPipelineRun {
  unzip_result : Z;                  (* [system(unzip_cmd)] *)
  unzip_left_files : bool;           (* a failed [unzip] has written under
                                        [temp_extract_dir] all the same *)
  staging_throws : bool;             (* the copy loop raises [filesystem_error] *)
  found_vmax_dir : bool;
  scene_json_exists : bool;
  unique_models : nat;               (* [modelVmaxbMap.size()] *)
  model_error : option nat;          (* the model whose loading throws *)
  instances : nat;                   (* all entries of all [vmaxModelList]s *)
  bella_started_at : Z;              (* [std::time] in [markBellaStarted] *)
  render_polls : nat -> nat;         (* polls while frame [i] is rendering *)
  ffmpeg_result : Z;                 (* [system(ffmpegCmd)] *)
  cancel_request_at : option nat     (* [/remove] is served before this checkpoint *)
}.

(** Control flow of a function body: go on, [return r], or an exception
    in flight. *)
Inductive Flow (A : Type) :=
| Next (a : A)
| Return (r : string)
| Throw.
Arguments Next {A} a.
Arguments Return {A} r.
Arguments Throw {A}.

Definition Stage (A : Type) : Type := World -> Flow A * World.

Definition ret {A} (a : A) : Stage A := fun w => (Next a, w).

Definition bind {A B} (m : Stage A) (k : A -> Stage B) : Stage B :=
  fun w =>
    match m w with
    | (Next a, w') => k a w'
    | (Return r, w') => (Return r, w')
    | (Throw, w') => (Throw, w')
    end.

Notation "'do' x <- m ; k" := (bind m (fun x => k))
  (at level 10, x name, m at level 100, k at level 200).
Notation "m >> k" := (bind m (fun _ => k))
  (at level 100, k at level 200, right associativity).

Definition return_ {A} (r : string) : Stage A := fun w => (Return r, w).
Definition throw {A} : Stage A := fun w => (Throw, w).

(** [try { body } catch (const std::exception&) { handler }] *)
Definition try_catch {A} (body handler : Stage A) : Stage A :=
  fun w =>
    match body w with
    | (Throw, w') => handler w'
    | other => other
    end.

Definition when (b : bool) (m : Stage unit) : Stage unit :=
  if b then m else ret tt.

Fixpoint for_each (n : nat) (i : nat) (body : nat -> Stage unit) : Stage unit :=
  match n with
  | O => ret tt
  | S n' => body i >> for_each n' (S i) body
  end.

Definition on_queue (f : WorkQueue -> WorkQueue) (e : list Event) : Stage unit :=
  fun w => (Next tt, mkWorld (f (queue w)) (files w) (checkpoints w) (calls w ++ e)).

Definition create (p : Path) : Stage unit :=
  fun w => (Next tt, mkWorld (queue w) (p :: files w) (checkpoints w) (calls w)).

(** [std::remove] and [std::filesystem::remove_all]. *)
Definition remove (p : Path) : Stage unit :=
  fun w => (Next tt,
            mkWorld (queue w) (filter (fun x => x <> p) (files w))
                    (checkpoints w) (calls w)).

(** [work_queue->shouldCancelCurrentJob()] at a checkpoint; a pending
    [/remove] command is served first. *)
Definition cancel_point (run : PipelineRun) : Stage bool :=
  fun w =>
    let q := if bool_decide (cancel_request_at run = Some (checkpoints w))
             then (cancelCurrentJob (queue w)).2 else queue w in
    (Next (shouldCancelCurrentJob q),
     mkWorld q (files w) (S (checkpoints w)) (calls w)).

Definition acknowledge : Stage unit :=
  on_queue markCurrentJobCancelled [call_markCurrentJobCancelled].

(** [if (shouldCancelCurrentJob()) { markCurrentJobCancelled(); return ""; }] *)
Definition cancel_check (run : PipelineRun) : Stage unit :=
  do c <- cancel_point run;
  if c : bool then acknowledge >> return_ EmptyString else ret tt.

(** [while (engine.rendering())] of the single-frame branch; the result is
    [was_cancelled]. *)
Fixpoint wait_render (run : PipelineRun) (polls : nat) : Stage bool :=
  match polls with
  | O => ret false
  | S n => do c <- cancel_point run;
           if c : bool then ret true else wait_render run n
  end.

Definition strip_vmax_zip (filename : string) : string :=
  let n := String.length filename in
  if ((9 <=? n)%nat && String.eqb (substr filename (n - 9) 9) ".vmax.zip")%bool
  then substr filename 0 (n - 9) else filename.

Definition processVmaxFile (run : PipelineRun) (filename message_content : string)
    (item_id : Z) : Stage unit :=
  create (temp_vmax_filename item_id) >>
  if negb (unzip_result run =? 0) then
    when (unzip_left_files run) (create (temp_extract_dir item_id)) >>
    remove (temp_vmax_filename item_id) >> return_ EmptyString
  else
  create (temp_extract_dir item_id) >>
  remove (work_dir item_id) >>
  create (work_dir item_id) >>
  when (staging_throws run) throw >>
  remove (temp_extract_dir item_id) >>
  if negb (found_vmax_dir run) then
    remove (temp_vmax_filename item_id) >>
    remove (work_dir item_id) >>
    return_ EmptyString
  else
  try_catch
    (let base_filename := strip_vmax_zip filename in
     when (negb (scene_json_exists run)) (return_ EmptyString) >>
     for_each (unique_models run) 0 (fun k =>
       cancel_check run >>
       when (bool_decide (model_error run = Some k)) throw) >>
     for_each (unique_models run) 0 (fun _ => cancel_check run) >>
     for_each (instances run) 0 (fun _ => cancel_check run) >>
     on_queue (fun q => (markBellaStarted (bella_started_at run) item_id q).2)
              [call_markBellaStarted item_id] >>
     let orbit_frames := parseOrbit message_content in
     if 0 <? orbit_frames then
       for_each (Z.to_nat orbit_frames) 0 (fun i =>
         cancel_check run >>
         for_each (render_polls run i) 0 (fun _ => cancel_check run)) >>
       if ffmpeg_result run =? 0 then
         remove (work_dir item_id) >>
         remove (temp_vmax_filename item_id) >>
         return_ (base_filename ++ "_orbit.mp4")%string
       else return_ EmptyString
     else
       do was_cancelled <- wait_render run (render_polls run 0);
       if was_cancelled : bool then
         acknowledge >> return_ EmptyString
       else
         remove (work_dir item_id) >>
         remove (temp_vmax_filename item_id) >>
         return_ (base_filename ++ ".jpg")%string)
    (remove (work_dir item_id) >>
     remove (temp_vmax_filename item_id) >>
     return_ EmptyString).

(** ** workerThread *)

(** What the collaborators report for one job taken off the queue. *)
Record JobRun := mkJobRun {
  response_status : Z;               (* HTTP status of the download *)
  cancel_during_download : bool;     (* [/remove] is served meanwhile *)
  pipeline : PipelineRun;
  output_size : option nat;          (* [None]: the output cannot be opened *)
  send_error : bool;                 (* [callback.is_error()] *)
  completed_at : Z                   (* [std::time] in [markCompleted] *)
}.

(** Where the worker thread stands: in its loop (possibly blocked in
    [dequeue]), past the loop after [dequeue] returned false, or killed by
    an exception that left [workerThread]. *)
Inductive Outcome :=
| Running (w : World)
| ShutDown (w : World)
| Terminated (w : World).

Definition with_queue (f : WorkQueue -> WorkQueue) (e : list Event) (w : World) : World :=
  mkWorld (f (queue w)) (files w) (checkpoints w) (calls w ++ e).

Definition worker_iteration (run : JobRun) (item : WorkItem) (w : World) : Outcome :=
  let w := if cancel_during_download run
           then with_queue (fun q => (cancelCurrentJob q).2) [] w else w in
  if response_status run =? 200 then
    let w := with_queue (setCurrentJobId (id item)) [call_setCurrentJobId (id item)] w in
    if shouldCancelCurrentJob (queue w) then
      Running (with_queue markCurrentJobCancelled [call_markCurrentJobCancelled] w)
    else
      match processVmaxFile (pipeline run) (original_filename item)
                            (message_content item) (id item) w with
      | (Throw, w') => Terminated w'
      | (Next _, w') => Running w'
      | (Return output_filename, w') =>
          if shouldCancelCurrentJob (queue w') || String.eqb output_filename EmptyString then
            if shouldCancelCurrentJob (queue w') then
              Running (with_queue markCurrentJobCancelled [call_markCurrentJobCancelled] w')
            else Running w'
          else
            let file_data_empty :=
              match output_size run with
              | Some n => (n =? 0)%nat
              | None => true
              end in
            let send_success := negb (send_error run) in
            let w' := with_queue (fun q => q) [call_message_create (channel_id item)] w' in
            if send_success && negb file_data_empty then
              Running (with_queue (fun q => (markCompleted (completed_at run) (id item) q).2)
                                  [call_markCompleted (id item)] w')
            else
              Running (with_queue (fun q => (markFailed (id item) default_max_retries q).2)
                                  [call_markFailed (id item)] w')
      end
  else
    let w := with_queue (fun q => q) [call_message_create (channel_id item)] w in
    Running (with_queue (fun q => (markFailed (id item) default_max_retries q).2)
                        [call_markFailed (id item)] w).

Definition perform_all (acts : list Action) (q : WorkQueue) : WorkQueue :=
  foldl (fun q a => (perform a q).2) q acts.

(** [while (work_queue->dequeue(item)) { ... }], one script entry per
    iteration: what the other threads have done to the queue when this
    call of [dequeue] takes the mutex, and what the collaborators report
    for the job it returns.  A script that ends, or a [dequeue] that finds
    nothing pending, leaves the thread in its loop. *)
Fixpoint workerThread (script : list (list Action * JobRun)) (w : World) : Outcome :=
  match script with
  | [] => Running w
  | (arrivals, run) :: script' =>
      match dequeue [] (perform_all arrivals (queue w)) with
      | Claimed item q =>
          match worker_iteration run item
                  (mkWorld q (files w) 0 (calls w)) with
          | Running w' => workerThread script' w'
          | stopped => stopped
          end
      | Closed =>
          ShutDown (mkWorld (perform_all arrivals (queue w)) (files w)
                            (checkpoints w) (calls w))
      | Waiting =>
          Running (mkWorld (perform_all arrivals (queue w)) (files w)
                           (checkpoints w) (calls w))
      end
  end.

(** ** Scenarios and invariants *)

(** A job is claimed and fails, [n] times over. *)
Fixpoint fail_times (n : nat) (item_id max_retries : Z) (q : WorkQueue) : WorkQueue :=
  match n with
  | O => q
  | S n' =>
      (markFailed item_id max_retries
                  (markProcessing item_id (fail_times n' item_id max_retries q)).2).2
  end.

Fixpoint enqueue_all (items : list WorkItem) (q : WorkQueue) : WorkQueue :=
  match items with
  | [] => q
  | item :: items' => enqueue_all items' (enqueue item q).2
  end.

(** The worker takes [n] jobs off the queue, completing each at [now]. *)
Fixpoint drain (now : Z) (n : nat) (q : WorkQueue) : list WorkItem :=
  match n with
  | O => []
  | S n' =>
      match dequeue [] q with
      | Claimed item q' => item :: drain now n' (markCompleted now (id item) q').2
      | Closed | Waiting => []
      end
  end.

(** What [enqueue] stores for [items] when the counter stands at [seq], as
    [dequeue] reads it back. *)
Fixpoint stored_items (seq : Z) (items : list WorkItem) : list WorkItem :=
  match items with
  | [] => []
  | item :: items' =>
      item_of_row (seq + 1) (row_of_item item) :: stored_items (seq + 1) items'
  end.

(** Rows carry keys that [AUTOINCREMENT] has handed out. *)
Definition keys_issued (q : WorkQueue) : Prop :=
  0 <= db_seq q /\ forall k r, db q !! k = Some r -> 0 < k <= db_seq q.

Definition no_row_with (s : Status) (q : WorkQueue) : Prop :=
  forall k r, db q !! k = Some r -> DbRow.status r <> s.

Definition count_status (s : Status) (q : WorkQueue) : nat :=
  size (filter (fun kr => DbRow.status kr.2 = s) (db q)).

(** The jobs waiting in the table, as [dequeue] would hand them out, in no
    particular order. *)
Definition waiting_jobs (q : WorkQueue) : list WorkItem :=
  (fun kr : Z * DbRow.t => item_of_row kr.1 kr.2)
    <$> map_to_list (filter (fun kr : Z * DbRow.t => DbRow.status kr.2 = pending) (db q)).

(** [a] is dequeued ahead of [b]. *)
Definition precedes (a b : WorkItem) : Prop :=
  created_at a < created_at b \/ (created_at a = created_at b /\ id a < id b).

(** ** The states the program can reach

    One step of the queue: a method called by the bot's handlers, by [main]
    or by the worker.  The worker passes [setCurrentJobId] the id of the
    row it has taken off the queue. *)
Inductive queue_step : WorkQueue -> WorkQueue -> Prop :=
| step_initialize now q : queue_step q (initialize now q).2
| step_enqueue item q : queue_step q (enqueue item q).2
| step_dequeue env q item q' :
    dequeue env q = Claimed item q' -> queue_step q q'
| step_setCurrentJobId q k r :
    db q !! k = Some r -> queue_step q (setCurrentJobId k q)
| step_markBellaStarted now k q : queue_step q (markBellaStarted now k q).2
| step_markCompleted now k q : queue_step q (markCompleted now k q).2
| step_markFailed k max_retries q : queue_step q (markFailed k max_retries q).2
| step_cancelCurrentJob q : queue_step q (cancelCurrentJob q).2
| step_markCurrentJobCancelled q : queue_step q (markCurrentJobCancelled q)
| step_requestShutdown q : queue_step q (requestShutdown q).2.

(** A freshly constructed [WorkQueue] over whatever table the database
    file holds, and what follows from it. *)
Inductive reachable : WorkQueue -> Prop :=
| reach_start m seq :
    keys_issued (mkWorkQueue m seq false false 0) ->
    reachable (mkWorkQueue m seq false false 0)
| reach_step q q' : reachable q -> queue_step q q' -> reachable q'.

(** ** Sample data *)

Definition empty_queue : WorkQueue := mkWorkQueue ∅ 0 false false 0.

Definition job_x : WorkItem :=
  mkWorkItem 0 "https://cdn.example/x" "x.vmax.zip" 11 21 "ann" "render please" 1000 0.

Definition job_y : WorkItem :=
  mkWorkItem 0 "https://cdn.example/y" "y.vmax.zip" 11 22 "ben" "orbit=10" 1010 0.

Definition job_z : WorkItem :=
  mkWorkItem 0 "https://cdn.example/z" "z.vmax.zip" 12 23 "cyd" "orbit=500" 1020 0.

(** One job waiting, as [enqueue] leaves it. *)
Definition one_job_queue : WorkQueue := (enqueue job_x empty_queue).2.

(** What a restart may find: job 1 completed long ago, job 2 caught in
    [processing] by a crash, job 3 completed a minute ago, job 4 waiting. *)
Definition table_after_crash : gmap Z DbRow.t :=
  <[1 := DbRow.set_bella_end_time 5000 (DbRow.set_status completed (row_of_item job_x))]>
  (<[2 := DbRow.set_status processing (row_of_item job_y)]>
  (<[3 := DbRow.set_bella_end_time 199940 (DbRow.set_status completed (row_of_item job_z))]>
  (<[4 := row_of_item job_z]> ∅))).

Definition queue_after_crash : WorkQueue := mkWorkQueue table_after_crash 4 false false 0.

(** Job x as [dequeue] hands it out, and the queue right after. *)
Definition claimed_x : WorkItem := item_of_row 1 (row_of_item job_x).

Definition queue_x_claimed : WorkQueue :=
  mkWorkQueue (<[1 := DbRow.set_status processing (row_of_item job_x)]> ∅) 1 false false 0.

Definition claimed_y : WorkItem := item_of_row 2 (row_of_item job_y).

Definition queue_xy_claimed : WorkQueue :=
  mkWorkQueue (<[2 := DbRow.set_status processing (row_of_item job_y)]> (db queue_x_claimed))
              2 false false 0.

(** Job x has failed once and been handed back. *)
Definition queue_x_retrying : WorkQueue :=
  (markFailed 1 default_max_retries queue_x_claimed).2.

(** The worker is rendering job x; nobody has asked to cancel yet. *)
Definition queue_x_rendering : WorkQueue := setCurrentJobId 1 queue_x_claimed.

(** A pipeline run in which everything works and [/remove] is served
    before the first checkpoint. *)
Definition run_cancelled_at_once : PipelineRun :=
  mkPipelineRun 0 false false true true 1 None 1 5100 (fun _ => 2%nat) 0 (Some 0%nat).

(** Pipeline runs: everything works; the archive has a [.vmax] directory
    without [scene.json]; loading the first model throws; [ffmpeg] fails. *)
Definition run_ok : PipelineRun :=
  mkPipelineRun 0 false false true true 1 None 1 5100 (fun _ => 2%nat) 0 None.

Definition run_without_scene_json : PipelineRun :=
  mkPipelineRun 0 false false true false 1 None 1 5100 (fun _ => 2%nat) 0 None.

Definition run_model_throws : PipelineRun :=
  mkPipelineRun 0 false false true true 1 (Some 0%nat) 1 5100 (fun _ => 2%nat) 0 None.

Definition run_ffmpeg_fails : PipelineRun :=
  mkPipelineRun 0 false false true true 1 None 1 5100 (fun _ => 1%nat) 1 None.

(** The download succeeds, the output can be read and the message is sent. *)
Definition delivered (p : PipelineRun) : JobRun :=
  mkJobRun 200 false p (Some 4096%nat) false 5200.

(** The download fails with HTTP 404. *)
Definition fetch_fails : JobRun := mkJobRun 404 false run_ok None false 0.

Definition idle_world : World := mkWorld empty_queue [] 0 [].

(** The worker has just taken job x off the queue. *)
Definition world_x_claimed : World := mkWorld (setCurrentJobId 1 queue_x_claimed) [] 0 [].

(** The worker takes job x, the pipeline runs as [run] says, and the
    worker is back in its loop having only called [setCurrentJobId], with
    the row still [processing] and no cancellation requested. *)
Definition job_left_processing (run : PipelineRun) : Prop :=
  exists w,
    workerThread [([act_enqueue job_x], delivered run)] idle_world = Running w
    /\ calls w = [call_setCurrentJobId 1]
    /\ cancel_current_job (queue w) = false
    /\ db (queue w) !! 1 = Some (DbRow.set_status processing (row_of_item job_x)).

(** [processVmaxFile] returns the empty string for job 1 and leaves both
    job-scoped paths on disk. *)
Definition files_left_behind (run : PipelineRun) (message : string) : Prop :=
  exists w,
    processVmaxFile run "x.vmax.zip" message 1 world_x_claimed = (Return EmptyString, w)
    /\ file_exists (work_dir 1) w = true
    /\ file_exists (temp_vmax_filename 1) w = true.

(** * The rest of the program *)

(** ** WorkQueue::getQueueDisplay and WorkQueue::getHistory *)

(** [ORDER BY created_at ASC], equal keys in rowid order as in
    [select_oldest]. *)
Definition created_before (a b : Z * DbRow.t) : Prop := older b a = false.

#[global] Instance created_before_dec : RelDecision created_before.
Proof. intros a b. unfold created_before. apply _. Defined.

(** [SELECT ... WHERE status = ? ORDER BY created_at ASC] *)
Definition select_ordered (s : Status) (m : gmap Z DbRow.t) : list (Z * DbRow.t) :=
  merge_sort created_before
    (filter (fun kr : Z * DbRow.t => DbRow.status kr.2 = s) (map_to_list m)).

Definition getQueueDisplay (q : WorkQueue) : list (string * string * bool * Z) :=
  ((fun kr : Z * DbRow.t =>
      (DbRow.original_filename kr.2, DbRow.username kr.2, true,
       DbRow.bella_start_time kr.2)) <$> select_ordered processing (db q))
  ++ ((fun kr : Z * DbRow.t =>
         (DbRow.original_filename kr.2, DbRow.username kr.2, false, 0))
        <$> select_ordered pending (db q)).

(** [WHERE status = 'completed' AND bella_start_time > 0 AND bella_end_time > 0] *)
Definition in_history (kr : Z * DbRow.t) : Prop :=
  DbRow.status kr.2 = completed
  /\ 0 < DbRow.bella_start_time kr.2 /\ 0 < DbRow.bella_end_time kr.2.

#[global] Instance in_history_dec kr : Decision (in_history kr).
Proof. unfold in_history. apply _. Defined.

(** [ORDER BY bella_end_time DESC].  SQL leaves the order of rows that
    ended in the same second open; SQLite lists them as it comes upon them
    in [idx_status_created], by creation time and then by rowid. *)
Definition ended_after (a b : Z * DbRow.t) : Prop :=
  DbRow.bella_end_time b.2 < DbRow.bella_end_time a.2
  \/ (DbRow.bella_end_time b.2 = DbRow.bella_end_time a.2 /\ created_before a b).

#[global] Instance ended_after_dec : RelDecision ended_after.
Proof. intros a b. unfold ended_after. apply _. Defined.

(** [LIMIT ?]: a negative bound is no bound. *)
Definition sql_limit {A} (limit : Z) (l : list A) : list A :=
  if limit <? 0 then l else take (Z.to_nat limit) l.

(** One [emplace_back] of the result: name, user, start, end and
    creation time. *)
Definition history_entry (kr : Z * DbRow.t) : string * string * Z * Z * Z :=
  (DbRow.original_filename kr.2, DbRow.username kr.2,
   DbRow.bella_start_time kr.2, DbRow.bella_end_time kr.2, DbRow.created_at kr.2).

Definition getHistory (limit : Z) (q : WorkQueue) : list (string * string * Z * Z * Z) :=
  history_entry
    <$> sql_limit limit (merge_sort ended_after (filter in_history (map_to_list (db q)))).

(** ** The upload handler of [DL_main] *)

(** [dpp::attachment], the fields the handler reads. *)
Record Attachment := mkAttachment {
  filename : string;
  url : string
}.

(** [dpp::message_create_t], the fields the handler reads. *)
Record Upload := mkUpload {
  author_is_bot : bool;
  author_id : Z;
  author_username : string;
  upload_channel_id : Z;
  content : string;
  attachments : list Attachment
}.

(** The test on [filename_lower]. *)
Definition is_vmax_zip (name : string) : bool :=
  let filename_lower := transform_tolower name in
  ((9 <=? String.length filename_lower)%nat
   && String.eqb (substr filename_lower (String.length filename_lower - 9) 9) ".vmax.zip")%bool.

Definition upload_item (msg : Upload) (now : Z) (a : Attachment) : WorkItem :=
  mkWorkItem 0 (url a) (filename a) (upload_channel_id msg) (author_id msg)
             (author_username msg) (content msg) now 0.

(** The loop over [vmax_attachments]; [clock i] is what [std::time] returns
    for attachment number [i]. *)
Fixpoint enqueue_uploads (msg : Upload) (clock : nat -> Z) (i : nat)
    (vmax_attachments : list Attachment) (q : WorkQueue) : WorkQueue :=
  match vmax_attachments with
  | [] => q
  | a :: rest =>
      enqueue_uploads msg clock (S i) rest (enqueue (upload_item msg (clock i) a) q).2
  end.

(** [bot.on_message_create]; the boolean tells whether the handler
    replied. *)
Definition on_message_create (clock : nat -> Z) (msg : Upload) (q : WorkQueue)
  : bool * WorkQueue :=
  if author_is_bot msg then (false, q)
  else
    let vmax_attachments := List.filter (fun a => is_vmax_zip (filename a)) (attachments msg) in
    match vmax_attachments with
    | [] => (false, q)
    | _ :: _ => (true, enqueue_uploads msg clock 0 vmax_attachments q)
    end.

(** ** The [/remove] command *)

Definition ADMIN_USER_IDS : list Z := [780541438022254624].

Inductive RemoveReply :=
| access_denied
| cancelling (cancelled_filename : string)
| no_job_processing.

(** The handler calls [getCurrentJobOwnerId] and then, when the requester
    passes, [cancelCurrentJob]; each call takes the mutex for itself.  [q]
    is the queue at the first call and [meanwhile] what the other threads,
    the worker among them, do to it before the second. *)
Definition on_remove (requesting_user_id : Z) (meanwhile : WorkQueue -> WorkQueue)
    (q : WorkQueue) : RemoveReply * WorkQueue :=
  let is_admin := bool_decide (requesting_user_id ∈ ADMIN_USER_IDS) in
  let is_job_owner := getCurrentJobOwnerId q =? requesting_user_id in
  if negb is_admin && negb is_job_owner then (access_denied, q)
  else
    let '(cancelled_filename, q') := cancelCurrentJob (meanwhile q) in
    if negb (String.eqb cancelled_filename EmptyString)
    then (cancelling cancelled_filename, q')
    else (no_job_processing, q').

(** ** The delivery step of [workerThread] *)

Definition is_mp4 (output_filename : string) : bool :=
  ((4 <=? String.length output_filename)%nat
   && String.eqb (substr output_filename (String.length output_filename - 4) 4) ".mp4")%bool.

(** ** add_ogt_mesh_to_scene *)

(** The loop that fills [facesArray]: one [Vec4u] per three indices, the
    third index repeated.  [None] when the loop reads past the end of
    [indices]. *)
Fixpoint faces (indices : list Z) : option (list (Z * Z * Z * Z)) :=
  match indices with
  | [] => Some []
  | a :: b :: c :: rest =>
      match faces rest with
      | Some fs => Some ((a, b, c, c) :: fs)
      | None => None
      end
  | _ => None
  end.

(** ** More sample data *)

Definition finished (started ended : Z) (item : WorkItem) : DbRow.t :=
  DbRow.set_bella_end_time ended
    (DbRow.set_bella_start_time started (DbRow.set_status completed (row_of_item item))).

(** Three finished jobs, the third without a start time, one job being
    rendered and one waiting. *)
Definition queue_with_history : WorkQueue :=
  mkWorkQueue
    (<[1 := finished 100 160 job_x]>
     (<[2 := finished 200 500 job_y]>
     (<[3 := finished 0 600 job_z]>
     (<[4 := DbRow.set_bella_start_time 700 (DbRow.set_status processing (row_of_item job_x))]>
     (<[5 := row_of_item job_y]> ∅)))))
    5 false false 4.

(** Job x is being rendered, job y waits and a first [/remove] has been
    served; then the worker acknowledges the cancellation at its next
    checkpoint, goes back to [dequeue] and takes job y. *)
Definition queue_x_cancelling_y_waiting : WorkQueue :=
  (cancelCurrentJob
     (setCurrentJobId 1 (markProcessing 1 (enqueue job_y one_job_queue).2).2)).2.

Definition worker_moves_on (q : WorkQueue) : WorkQueue :=
  match dequeue [] (markCurrentJobCancelled q) with
  | Claimed item q' => setCurrentJobId (id item) q'
  | _ => q
  end.

(** A message with two archives and a text file among its attachments. *)
Definition upload_two_archives : Upload :=
  mkUpload false 21 "ann" 11 "orbit=30"
           [mkAttachment "castle.vmax.zip" "https://cdn.example/c";
            mkAttachment "notes.txt" "https://cdn.example/n";
            mkAttachment "Tower.VMAX.ZIP" "https://cdn.example/t"].

(** ** Stages that leave queue and files alone

    A stage that either goes on with the queue and the files as they were,
    or returns the empty string, or throws. *)
Definition steady {A} (m : Stage A) : Prop :=
  forall w,
    match m w with
    | (Next _, w') => queue w' = queue w /\ files w' = files w
    | (Return r, _) => r = EmptyString
    | (Throw, _) => True
    end.

(** A stage that goes on, with the queue, the files and the trace as they
    were, whenever it is entered with no cancellation requested. *)
Definition passes (m : Stage unit) : Prop :=
  forall w, cancel_current_job (queue w) = false ->
    exists c, m w = (Next tt, mkWorld (queue w) (files w) c (calls w)).

(** A run of the pipeline in which no collaborator fails and [/remove] is
    never served. *)
Definition uneventful (run : PipelineRun) (message_content : string) : Prop :=
  unzip_result run = 0
  /\ staging_throws run = false
  /\ found_vmax_dir run = true
  /\ scene_json_exists run = true
  /\ model_error run = None
  /\ cancel_request_at run = None
  /\ (0 < parseOrbit message_content -> ffmpeg_result run = 0).

(** The files once the archive is staged in [work_dir], and once
    [work_dir] and the temporary archive are removed again. *)
Definition staged (item_id : Z) (fs : list Path) : list Path :=
  filter (fun x => x <> temp_extract_dir item_id)
    (work_dir item_id
       :: filter (fun x => x <> work_dir item_id)
            (temp_extract_dir item_id :: temp_vmax_filename item_id :: fs)).

Definition cleaned (item_id : Z) (fs : list Path) : list Path :=
  filter (fun x => x <> temp_vmax_filename item_id)
    (filter (fun x => x <> work_dir item_id) (staged item_id fs)).

(** [unzip] fails on a damaged archive after it has unpacked a part. *)
Definition run_unzip_fails : PipelineRun :=
  mkPipelineRun 2 true false false false 0 None 0 0 (fun _ => 0%nat) 0 None.

(** The copy loop of the staging step raises [filesystem_error]. *)
Definition run_staging_throws : PipelineRun :=
  mkPipelineRun 0 false true true true 1 None 1 5100 (fun _ => 2%nat) 0 None.


(** ** What a job may touch *)

Definition own_paths (item_id : Z) : list Path :=
  [temp_vmax_filename item_id; work_dir item_id; temp_extract_dir item_id].

(** From [w] to [w'] no path of another job has appeared or gone, the id
    counter and the shutdown flag are as they were, the current job id is
    as it was or has been reset, and no row has changed other than the
    job's own and that of the current job. *)
Definition job_frame (item_id : Z) (w w' : World) : Prop :=
  (forall p, p ∉ own_paths item_id -> (p ∈ files w' <-> p ∈ files w))
  /\ db_seq (queue w') = db_seq (queue w)
  /\ shutdown_requested (queue w') = shutdown_requested (queue w)
  /\ (current_job_id (queue w') = current_job_id (queue w)
      \/ current_job_id (queue w') = 0)
  /\ forall k, k <> item_id ->
       k <> current_job_id (queue w) \/ current_job_id (queue w) <= 0 ->
       db (queue w') !! k = db (queue w) !! k.

Definition job_isolated (item_id : Z) (w w' : World) : Prop :=
  (forall p, p ∉ own_paths item_id -> (p ∈ files w' <-> p ∈ files w))
  /\ db_seq (queue w') = db_seq (queue w)
  /\ shutdown_requested (queue w') = shutdown_requested (queue w)
  /\ forall k, k <> item_id -> db (queue w') !! k = db (queue w) !! k.

(** A stage whose every exit is in relation [R] with its entry. *)
Definition keeps (R : World -> World -> Prop) {A} (m : Stage A) : Prop :=
  forall w, R w (m w).2.

Definition world_of (o : Outcome) : World :=
  match o with
  | Running w | ShutDown w | Terminated w => w
  end.

(** * Properties *)

(** ** Selecting the oldest row *)

Section Oldest.
Implicit Types (a b c : Z * DbRow.t) (l : list (Z * DbRow.t)).

Lemma older_spec a b :
  older a b = true <->
  DbRow.created_at a.2 < DbRow.created_at b.2
  \/ (DbRow.created_at a.2 = DbRow.created_at b.2 /\ a.1 < b.1).
Proof.
  unfold older.
  rewrite orb_true_iff, andb_true_iff, !Z.ltb_lt, Z.eqb_eq. reflexivity.
Qed.

Lemma older_false a b :
  older a b = false <->
  DbRow.created_at b.2 < DbRow.created_at a.2
  \/ (DbRow.created_at b.2 = DbRow.created_at a.2 /\ b.1 <= a.1).
Proof.
  rewrite <- not_true_iff_false, older_spec. lia.
Qed.

Lemma pick_oldest_sound l a :
  foldr pick_older None l = Some a ->
  a ∈ l /\ forall b, b ∈ l -> older b a = false.
Proof.
  revert a. induction l as [|x l IH]; intros a H; simpl in H.
  - discriminate.
  - destruct (foldr pick_older None l) as [m|] eqn:E; simpl in H.
    + destruct (IH m eq_refl) as [Hin Hmin].
      destruct (older x m) eqn:Hx; inversion H; subst a; clear H.
      * split; [left|].
        intros b Hb. apply elem_of_cons in Hb as [->|Hb].
        -- apply older_false. lia.
        -- specialize (Hmin b Hb). apply older_false in Hmin.
           apply older_spec in Hx. apply older_false. lia.
      * split; [right; exact Hin|].
        intros b Hb. apply elem_of_cons in Hb as [->|Hb]; auto.
    + inversion H; subst a. split; [left|].
      intros b Hb. apply elem_of_cons in Hb as [->|Hb].
      * apply older_false. lia.
      * destruct l; [inversion Hb|]. simpl in E.
        unfold pick_older in E. destruct (foldr _ _ _); [destruct (older _ _)|]; discriminate.
Qed.

Lemma pick_oldest_none l : foldr pick_older None l = None -> l = [].
Proof.
  destruct l as [|x l]; [reflexivity|]. simpl. unfold pick_older.
  destruct (foldr _ _ _); [destruct (older _ _)|]; discriminate.
Qed.
End Oldest.

Lemma elem_of_candidates s (m : gmap Z DbRow.t) k r :
  (k, r) ∈ filter (fun kr : Z * DbRow.t => DbRow.status kr.2 = s) (map_to_list m)
  <-> m !! k = Some r /\ DbRow.status r = s.
Proof.
  rewrite list_elem_of_filter, elem_of_map_to_list. simpl. tauto.
Qed.

Lemma select_oldest_Some s (m : gmap Z DbRow.t) k r :
  select_oldest s m = Some (k, r) ->
  m !! k = Some r /\ DbRow.status r = s
  /\ forall k' r', m !! k' = Some r' -> DbRow.status r' = s ->
       DbRow.created_at r < DbRow.created_at r'
       \/ (DbRow.created_at r = DbRow.created_at r' /\ k <= k').
Proof.
  unfold select_oldest. intros H.
  apply pick_oldest_sound in H as [Hin Hmin].
  apply elem_of_candidates in Hin as [Hk Hs]. repeat split; try assumption.
  intros k' r' Hk' Hs'.
  specialize (Hmin (k', r')). rewrite elem_of_candidates in Hmin.
  specialize (Hmin (conj Hk' Hs')). apply older_false in Hmin. exact Hmin.
Qed.

Lemma select_oldest_None s (m : gmap Z DbRow.t) :
  select_oldest s m = None <-> forall k r, m !! k = Some r -> DbRow.status r <> s.
Proof.
  unfold select_oldest. split.
  - intros H k r Hk Hs. apply pick_oldest_none in H.
    assert (Hin : (k, r) ∈ filter (fun kr : Z * DbRow.t => DbRow.status kr.2 = s) (map_to_list m))
      by (apply elem_of_candidates; auto).
    rewrite H in Hin. inversion Hin.
  - intros H.
    destruct (foldr pick_older None _) as [[k r]|] eqn:E; [|reflexivity].
    apply pick_oldest_sound in E as [Hin _].
    apply elem_of_candidates in Hin as [Hk Hs]. destruct (H k r Hk Hs).
Qed.

(** The oldest row is the one the order singles out, whatever the layout
    of the table. *)
Lemma select_oldest_is s (m : gmap Z DbRow.t) k r :
  m !! k = Some r -> DbRow.status r = s ->
  (forall k' r', m !! k' = Some r' -> DbRow.status r' = s ->
     DbRow.created_at r < DbRow.created_at r'
     \/ (DbRow.created_at r = DbRow.created_at r' /\ k <= k')) ->
  select_oldest s m = Some (k, r).
Proof.
  intros Hk Hs Hmin.
  destruct (select_oldest s m) as [[k0 r0]|] eqn:E.
  - apply select_oldest_Some in E as (Hk0 & Hs0 & Hmin0).
    specialize (Hmin _ _ Hk0 Hs0). specialize (Hmin0 _ _ Hk Hs).
    assert (k0 = k) by lia. subst k0. congruence.
  - rewrite select_oldest_None in E. destruct (E k r Hk Hs).
Qed.

(** ** Retry accounting *)

Lemma sqlite3_column_int_id v :
  INT_MIN <= v <= INT_MAX -> sqlite3_column_int v = v.
Proof.
  unfold INT_MIN, INT_MAX, sqlite3_column_int. intros H.
  rewrite Z.mod_small; lia.
Qed.

Lemma markFailed_terminal item_id max_retries q r :
  db q !! item_id = Some r ->
  max_retries <= sqlite3_column_int (DbRow.retry_count r) ->
  markFailed item_id max_retries q = (true, NoWake, set_db (delete item_id (db q)) q).
Proof.
  intros Hr Hge. unfold markFailed. rewrite Hr.
  destruct (Z.leb_spec max_retries (sqlite3_column_int (DbRow.retry_count r))); [reflexivity|lia].
Qed.

Lemma markFailed_retry item_id max_retries q r :
  db q !! item_id = Some r ->
  sqlite3_column_int (DbRow.retry_count r) < max_retries ->
  markFailed item_id max_retries q =
  (true, NotifyOne,
   set_db (<[item_id :=
               DbRow.set_status pending
                 (DbRow.set_retry_count (sqlite3_column_int (DbRow.retry_count r) + 1) r)]>
             (db q)) q).
Proof.
  intros Hr Hlt. unfold markFailed. rewrite Hr.
  destruct (Z.leb_spec max_retries (sqlite3_column_int (DbRow.retry_count r))); [lia|].
  do 2 f_equal. apply map_eq. intros k.
  rewrite lookup_alter, lookup_insert.
  destruct (decide (item_id = k)) as [->|]; [rewrite Hr|]; reflexivity.
Qed.

Lemma markProcessing_lookup item_id q r :
  db q !! item_id = Some r ->
  db (markProcessing item_id q).2 !! item_id = Some (DbRow.set_status processing r).
Proof.
  intros Hr. simpl. rewrite lookup_alter, decide_True by reflexivity. rewrite Hr. reflexivity.
Qed.

(** One more failed attempt of a job that has retries left. *)
Lemma fail_once_more item_id max_retries q r c :
  db q !! item_id = Some r -> DbRow.retry_count r = c ->
  0 <= c < max_retries -> max_retries <= INT_MAX ->
  db (markFailed item_id max_retries (markProcessing item_id q).2).2 !! item_id
  = Some (DbRow.set_status pending (DbRow.set_retry_count (c + 1) r)).
Proof.
  intros Hr Hc Hrange Hmax.
  pose proof (markProcessing_lookup _ _ _ Hr) as Hp.
  assert (Hid : sqlite3_column_int (DbRow.retry_count (DbRow.set_status processing r)) = c).
  { simpl. rewrite Hc. apply sqlite3_column_int_id. unfold INT_MIN, INT_MAX in *. lia. }
  erewrite markFailed_retry by (try exact Hp; lia).
  cbn [snd set_db db]. rewrite lookup_insert_eq, Hid. reflexivity.
Qed.

Lemma fail_times_progress item_id max_retries q r n :
  db q !! item_id = Some r -> DbRow.retry_count r = 0 ->
  max_retries <= INT_MAX ->
  (0 < n)%nat -> Z.of_nat n <= max_retries ->
  db (fail_times n item_id max_retries q) !! item_id
  = Some (DbRow.set_status pending (DbRow.set_retry_count (Z.of_nat n) r)).
Proof.
  intros Hr H0 Hmax. induction n as [|n IH]; intros Hpos Hle; [lia|].
  cbn [fail_times]. destruct n as [|n].
  - cbn [fail_times]. rewrite (fail_once_more _ _ _ r 0) by (auto; lia).
    reflexivity.
  - rewrite (fail_once_more _ _ _ (DbRow.set_status pending (DbRow.set_retry_count (Z.of_nat (S n)) r))
               (Z.of_nat (S n))); [|apply IH; lia|reflexivity|lia|assumption].
    f_equal. replace (Z.of_nat (S n) + 1) with (Z.of_nat (S (S n))) by lia.
    reflexivity.
Qed.

(** C1 (as amended): [markFailed] reads the stored [retry_count]; when it
    has reached [max_retries] the row is deleted, otherwise the count goes
    up by one, the status returns to [pending] and one dequeuer is woken.
    Hence a job enqueued with [retry_count = 0] is still [pending], with
    [retry_count = n], after [n <= max_retries] failed attempts, and is
    gone only after attempt [max_retries + 1]. *)
Theorem markFailed_retry_bound (max_retries item_id : Z) (q : WorkQueue) (r : DbRow.t) :
  0 <= max_retries <= INT_MAX ->
  db q !! item_id = Some r ->
  DbRow.retry_count r = 0 ->
  (forall q' r',
      db q' !! item_id = Some r' ->
      INT_MIN <= DbRow.retry_count r' <= INT_MAX ->
      (max_retries <= DbRow.retry_count r' ->
       markFailed item_id max_retries q'
       = (true, NoWake, set_db (delete item_id (db q')) q'))
      /\ (DbRow.retry_count r' < max_retries ->
          markFailed item_id max_retries q'
          = (true, NotifyOne,
             set_db (<[item_id := DbRow.set_status pending
                                    (DbRow.set_retry_count (DbRow.retry_count r' + 1) r')]>
                       (db q')) q')))
  /\ (forall n : nat,
        (0 < n)%nat -> Z.of_nat n <= max_retries ->
        db (fail_times n item_id max_retries q) !! item_id
        = Some (DbRow.set_status pending (DbRow.set_retry_count (Z.of_nat n) r)))
  /\ db (fail_times (S (Z.to_nat max_retries)) item_id max_retries q) !! item_id = None.
Proof.
  intros Hmax Hr H0. split; [|split].
  - intros q' r' Hr' Hint. pose proof (sqlite3_column_int_id _ Hint) as Hid. split; intros Hc.
    + apply (markFailed_terminal _ _ _ r'); [assumption|lia].
    + rewrite (markFailed_retry _ _ _ r') by (try assumption; lia).
      rewrite Hid. reflexivity.
  - intros n Hpos Hle. apply fail_times_progress; auto; lia.
  - cbn [fail_times].
    assert (Hlast : exists r', db (fail_times (Z.to_nat max_retries) item_id max_retries q) !! item_id
                               = Some r' /\ DbRow.retry_count r' = max_retries).
    { destruct (Z.to_nat max_retries) as [|m] eqn:Em.
      - exists r. simpl. split; [assumption|lia].
      - eexists. split.
        + apply fail_times_progress; eauto; lia.
        + simpl. lia. }
    destruct Hlast as (r' & Hr' & Hc).
    pose proof (markProcessing_lookup _ _ _ Hr') as Hp.
    erewrite markFailed_terminal; [| exact Hp |].
    + cbn [snd set_db db]. apply lookup_delete_eq.
    + simpl. rewrite Hc, sqlite3_column_int_id; unfold INT_MIN, INT_MAX in *; lia.
Qed.

Lemma markFailed_retry_bound_witness :
  0 <= default_max_retries <= INT_MAX
  /\ db one_job_queue !! 1 = Some (row_of_item job_x)
  /\ DbRow.retry_count (row_of_item job_x) = 0
  /\ db (fail_times 2 1 default_max_retries one_job_queue) !! 1
     = Some (DbRow.set_status pending (DbRow.set_retry_count 2 (row_of_item job_x)))
  /\ db (fail_times 4 1 default_max_retries one_job_queue) !! 1 = None.
Proof.
  assert (H1 : 0 <= default_max_retries <= INT_MAX) by (vm_compute; split; discriminate).
  assert (H2 : db one_job_queue !! 1 = Some (row_of_item job_x)) by (vm_compute; reflexivity).
  assert (H3 : DbRow.retry_count (row_of_item job_x) = 0) by reflexivity.
  destruct (markFailed_retry_bound default_max_retries 1 one_job_queue (row_of_item job_x) H1 H2 H3)
    as (_ & Hkeep & Hgone).
  split; [exact H1|]. split; [exact H2|]. split; [exact H3|].
  split; [|exact Hgone].
  apply (Hkeep 2%nat); [lia | vm_compute; discriminate].
Defined.

(** C1, as first stated, fails: with the default bound of three, the
    third failure still leaves the row in the table, [pending] and with
    [retry_count = 3]; so it is when the worker sees the download of the
    job fail three times in a row. *)
Lemma third_failure_keeps_the_job :
  db (fail_times 3 1 default_max_retries one_job_queue) !! 1
  = Some (DbRow.set_status pending (DbRow.set_retry_count 3 (row_of_item job_x)))
  /\ db (fail_times 3 1 default_max_retries one_job_queue) !! 1 <> None
  /\ exists w,
       workerThread [([act_enqueue job_x], fetch_fails); ([], fetch_fails); ([], fetch_fails)]
                    idle_world = Running w
       /\ calls w = [call_message_create 11; call_markFailed 1;
                     call_message_create 11; call_markFailed 1;
                     call_message_create 11; call_markFailed 1]
       /\ db (queue w) !! 1
          = Some (DbRow.set_status pending (DbRow.set_retry_count 3 (row_of_item job_x))).
Proof.
  assert (H : db (fail_times 3 1 default_max_retries one_job_queue) !! 1
              = Some (DbRow.set_status pending (DbRow.set_retry_count 3 (row_of_item job_x))))
    by (vm_compute; reflexivity).
  split; [exact H|]. split; [rewrite H; discriminate|].
  eexists. split; [vm_compute; reflexivity|]. split; vm_compute; reflexivity.
Qed.

(** C10: [markFailed] on an id that has no row returns false and leaves
    the queue, table included, exactly as it was; nobody is woken. *)
Theorem markFailed_absent_row (item_id max_retries : Z) (q : WorkQueue) :
  db q !! item_id = None ->
  markFailed item_id max_retries q = (false, NoWake, q).
Proof.
  intros H. unfold markFailed. rewrite H. reflexivity.
Qed.

Lemma markFailed_absent_row_witness :
  db one_job_queue !! 7 = None
  /\ markFailed 7 default_max_retries one_job_queue = (false, NoWake, one_job_queue).
Proof.
  assert (H : db one_job_queue !! 7 = None) by (vm_compute; reflexivity).
  split; [exact H | exact (markFailed_absent_row 7 default_max_retries one_job_queue H)].
Defined.

(** ** Start-up recovery *)

Lemma initialize_lookup now q k :
  db (initialize now q).2 !! k =
  match db q !! k with
  | Some r => if expired (now - retention_window) r then None
              else Some (reset_processing r)
  | None => None
  end.
Proof.
  cbn [initialize snd set_db db]. rewrite lookup_fmap.
  destruct (db q !! k) as [r|] eqn:Hk.
  - destruct (expired (now - retention_window) r) eqn:He.
    + rewrite (proj2 (map_lookup_filter_None _ _ _)); [reflexivity|].
      right. intros x Hx. rewrite Hk in Hx. inversion Hx; subst x. simpl. congruence.
    + rewrite (map_lookup_filter_Some_2 _ _ _ r); auto.
  - rewrite (proj2 (map_lookup_filter_None _ _ _)); [reflexivity|]. left. exact Hk.
Qed.

Lemma expired_spec cutoff r :
  expired cutoff r = true <-> DbRow.status r = completed /\ DbRow.bella_end_time r < cutoff.
Proof.
  unfold expired. rewrite andb_true_iff, bool_decide_eq_true, Z.ltb_lt. reflexivity.
Qed.

Lemma stuck_spec r :
  stuck r = true <-> DbRow.status r = processing /\ DbRow.bella_end_time r = 0.
Proof.
  unfold stuck. rewrite andb_true_iff, bool_decide_eq_true, Z.eqb_eq. reflexivity.
Qed.

Lemma reset_processing_settled cutoff r :
  expired cutoff r = false ->
  expired cutoff (reset_processing r) = false
  /\ reset_processing (reset_processing r) = reset_processing r.
Proof.
  intros He. unfold reset_processing.
  destruct (stuck r) eqn:Hs.
  - apply stuck_spec in Hs as [Hs _]. split; reflexivity.
  - rewrite Hs. split; [exact He | reflexivity].
Qed.

(** C5: [initialize] succeeds and, row by row, (a) drops a [completed]
    row whose [bella_end_time] is more than 24 hours before [now], (b)
    turns a [processing] row with [bella_end_time = 0] into the same row
    with status [pending], under the same id and once, and (c) keeps every
    other row as it is; it adds no row, leaves the counter and the flags
    alone, and a second pass changes nothing more. *)
Theorem initialize_self_healing (now : Z) (q : WorkQueue) :
  (initialize now q).1 = true
  /\ (forall k r,
        db q !! k = Some r ->
        DbRow.status r = completed ->
        DbRow.bella_end_time r < now - 24 * 60 * 60 ->
        db (initialize now q).2 !! k = None)
  /\ (forall k r,
        db q !! k = Some r ->
        DbRow.status r = processing ->
        DbRow.bella_end_time r = 0 ->
        db (initialize now q).2 !! k = Some (DbRow.set_status pending r))
  /\ (forall k r,
        db q !! k = Some r ->
        ~ (DbRow.status r = completed /\ DbRow.bella_end_time r < now - 24 * 60 * 60) ->
        ~ (DbRow.status r = processing /\ DbRow.bella_end_time r = 0) ->
        db (initialize now q).2 !! k = Some r)
  /\ (forall k, db q !! k = None -> db (initialize now q).2 !! k = None)
  /\ (db_seq (initialize now q).2 = db_seq q
      /\ shutdown_requested (initialize now q).2 = shutdown_requested q
      /\ cancel_current_job (initialize now q).2 = cancel_current_job q
      /\ current_job_id (initialize now q).2 = current_job_id q)
  /\ initialize now (initialize now q).2 = (true, (initialize now q).2).
Proof.
  change (24 * 60 * 60) with retention_window.
  split; [reflexivity|].
  split; [|split; [|split; [|split; [|split]]]].
  - intros k r Hk Hs He. rewrite initialize_lookup, Hk.
    rewrite (proj2 (expired_spec _ _)); auto.
  - intros k r Hk Hs He. rewrite initialize_lookup, Hk.
    destruct (expired (now - retention_window) r) eqn:Hx.
    + apply expired_spec in Hx as [Hx _]. congruence.
    + unfold reset_processing. rewrite (proj2 (stuck_spec _)); auto.
  - intros k r Hk Hne Hns. rewrite initialize_lookup, Hk.
    destruct (expired (now - retention_window) r) eqn:Hx.
    + apply expired_spec in Hx. contradiction.
    + unfold reset_processing. destruct (stuck r) eqn:Hst; [|reflexivity].
      apply stuck_spec in Hst. contradiction.
  - intros k Hk. rewrite initialize_lookup, Hk. reflexivity.
  - repeat split.
  - unfold initialize at 1. f_equal.
    destruct (initialize now q) as [b q'] eqn:Hq. cbn [snd].
    assert (Hl : forall k, db q' !! k = db (initialize now q).2 !! k) by (rewrite Hq; reflexivity).
    destruct q' as [m sq sh cc cj]. unfold set_db. cbn [db db_seq shutdown_requested cancel_current_job current_job_id] in *.
    f_equal. apply map_eq. intros k.
    rewrite lookup_fmap.
    destruct (m !! k) as [r'|] eqn:Hk.
    + pose proof (Hl k) as Hk'. rewrite Hk, initialize_lookup in Hk'.
      destruct (db q !! k) as [r|]; [|discriminate].
      destruct (expired (now - retention_window) r) eqn:Hx; [discriminate|].
      inversion Hk'; subst r'.
      destruct (reset_processing_settled _ _ Hx) as [He Hi].
      rewrite (map_lookup_filter_Some_2 _ _ _ (reset_processing r)); auto.
      simpl. rewrite Hi. reflexivity.
    + rewrite (proj2 (map_lookup_filter_None _ _ _)); [reflexivity|]. left. exact Hk.
Qed.

Lemma initialize_self_healing_witness :
  (db queue_after_crash !! 1
     = Some (DbRow.set_bella_end_time 5000 (DbRow.set_status completed (row_of_item job_x)))
   /\ 5000 < 200000 - 24 * 60 * 60)
  /\ db queue_after_crash !! 2 = Some (DbRow.set_status processing (row_of_item job_y))
  /\ db (initialize 200000 queue_after_crash).2 !! 1 = None
  /\ db (initialize 200000 queue_after_crash).2 !! 2 = Some (row_of_item job_y)
  /\ db (initialize 200000 queue_after_crash).2 !! 3 = db queue_after_crash !! 3
  /\ db (initialize 200000 queue_after_crash).2 !! 4 = Some (row_of_item job_z)
  /\ db (initialize 200000 queue_after_crash).2 !! 5 = None.
Proof.
  destruct (initialize_self_healing 200000 queue_after_crash)
    as (_ & Hpurge & Hreset & Hkeep & Hnone & _ & _).
  assert (H1 : db queue_after_crash !! 1
     = Some (DbRow.set_bella_end_time 5000 (DbRow.set_status completed (row_of_item job_x))))
    by (vm_compute; reflexivity).
  assert (H2 : db queue_after_crash !! 2 = Some (DbRow.set_status processing (row_of_item job_y)))
    by (vm_compute; reflexivity).
  assert (H3 : db queue_after_crash !! 3
     = Some (DbRow.set_bella_end_time 199940 (DbRow.set_status completed (row_of_item job_z))))
    by (vm_compute; reflexivity).
  assert (H4 : db queue_after_crash !! 4 = Some (row_of_item job_z)) by (vm_compute; reflexivity).
  assert (H5 : db queue_after_crash !! 5 = None) by (vm_compute; reflexivity).
  split; [split; [exact H1 | lia]|].
  split; [exact H2|].
  split; [apply (Hpurge 1 _ H1); [reflexivity | simpl; lia]|].
  split; [apply (Hreset 2 _ H2); reflexivity|].
  split; [rewrite H3; apply (Hkeep 3 _ H3); simpl; [lia | intros [? _]; discriminate]|].
  split; [apply (Hkeep 4 _ H4); simpl; intros [? _]; discriminate|].
  exact (Hnone 5 H5).
Defined.

(** ** Claiming a job *)

Lemma alter_as_insert (f : DbRow.t -> DbRow.t) (m : gmap Z DbRow.t) k r :
  m !! k = Some r -> alter f k m = <[k := f r]> m.
Proof.
  intros Hk. apply map_eq. intros j.
  rewrite lookup_alter, lookup_insert.
  destruct (decide (k = j)) as [->|]; [rewrite Hk|]; reflexivity.
Qed.

Lemma dequeue_attempt_claimed q item q' :
  dequeue_attempt q = Claimed item q' ->
  shutdown_requested q = false
  /\ exists r,
       db q !! id item = Some r /\ DbRow.status r = pending
       /\ item = item_of_row (id item) r
       /\ q' = set_db (<[id item := DbRow.set_status processing r]> (db q)) q
       /\ forall k' r', db q !! k' = Some r' -> DbRow.status r' = pending ->
            DbRow.created_at r < DbRow.created_at r'
            \/ (DbRow.created_at r = DbRow.created_at r' /\ id item <= k').
Proof.
  unfold dequeue_attempt. destruct (shutdown_requested q); [discriminate|].
  destruct (select_oldest pending (db q)) as [[k r]|] eqn:E; [|discriminate].
  intros H. inversion H; subst item q'; clear H.
  apply select_oldest_Some in E as (Hk & Hs & Hmin).
  split; [reflexivity|]. exists r. cbn [id item_of_row].
  repeat split; try assumption.
  cbn [markProcessing snd]. rewrite (alter_as_insert _ _ _ _ Hk). reflexivity.
Qed.

Lemma dequeue_attempt_waiting q :
  dequeue_attempt q = Waiting <->
  shutdown_requested q = false /\ no_row_with pending q.
Proof.
  unfold dequeue_attempt, no_row_with. destruct (shutdown_requested q).
  - split; [discriminate | intros [? _]; discriminate].
  - destruct (select_oldest pending (db q)) as [[k r]|] eqn:E.
    + split; [discriminate|]. intros [_ H].
      apply select_oldest_Some in E as (Hk & Hs & _). destruct (H _ _ Hk Hs).
    + rewrite select_oldest_None in E. split; auto.
Qed.

Lemma dequeue_attempt_closed q :
  dequeue_attempt q = Closed <-> shutdown_requested q = true.
Proof.
  unfold dequeue_attempt. destruct (shutdown_requested q).
  - split; reflexivity.
  - destruct (select_oldest pending (db q)) as [[k r]|]; split; discriminate.
Qed.

Lemma dequeue_nil q : dequeue [] q = dequeue_attempt q.
Proof. unfold dequeue. simpl. destruct (dequeue_attempt q); reflexivity. Qed.

Lemma dequeue_unblocked env q :
  dequeue_attempt q <> Waiting -> dequeue env q = dequeue_attempt q.
Proof.
  intros H. unfold dequeue. destruct env; simpl; destruct (dequeue_attempt q); congruence.
Qed.

Lemma perform_shutdown_flag a q :
  shutdown_requested (perform a q).2 = true <->
  shutdown_requested q = true \/ a = act_shutdown.
Proof.
  destruct a as [item| |]; simpl.
  - split; [auto | intros [?|?]; [assumption|discriminate]].
  - unfold cancelCurrentJob.
    destruct (select_oldest processing (db q)) as [[? ?]|]; simpl;
      (split; [auto | intros [?|?]; [assumption|discriminate]]).
  - split; auto.
Qed.

Lemma perform_cancel_table q : db (perform act_cancel q).2 = db q.
Proof.
  simpl. unfold cancelCurrentJob.
  destruct (select_oldest processing (db q)) as [[? ?]|]; reflexivity.
Qed.

(** An action that notifies nobody leaves a blocked caller with nothing
    to do: only [enqueue] and [requestShutdown] can unblock, and both
    notify. *)
Lemma silent_action_keeps_waiting a q :
  dequeue_attempt q = Waiting -> (perform a q).1 = NoWake ->
  dequeue_attempt (perform a q).2 = Waiting.
Proof.
  intros Hw Hsilent. destruct a as [item| |]; [discriminate| |discriminate].
  apply dequeue_attempt_waiting in Hw as [Hsh Hnp].
  apply dequeue_attempt_waiting. split.
  - destruct (shutdown_requested (perform act_cancel q).2) eqn:Hs; [|reflexivity].
    apply perform_shutdown_flag in Hs as [Hs|Hs]; congruence.
  - unfold no_row_with. rewrite perform_cancel_table. exact Hnp.
Qed.

(** Sleeping on, or looking again: no difference while nothing is pending. *)
Lemma asleep_or_not env q :
  dequeue_attempt q = Waiting -> dequeue_from true env q = dequeue_from false env q.
Proof.
  intros Hw. destruct env; simpl; rewrite Hw; reflexivity.
Qed.

Lemma dequeue_blocked a env q :
  dequeue_attempt q = Waiting -> dequeue (a :: env) q = dequeue env (perform a q).2.
Proof.
  intros H. unfold dequeue. cbn [dequeue_from]. rewrite H.
  destruct (perform a q) as [wk q'] eqn:Hp. cbn [snd].
  destruct wk; cbn [is_NoWake]; try reflexivity.
  apply asleep_or_not.
  replace q' with (perform a q).2 by (rewrite Hp; reflexivity).
  apply silent_action_keeps_waiting; [exact H | rewrite Hp; reflexivity].
Qed.

(** A call that returns did so in the state left by the actions served
    while it was blocked. *)
Lemma dequeue_returns env q res :
  dequeue env q = res -> res <> Waiting ->
  exists served rest,
    env = served ++ rest /\ dequeue_attempt (perform_all served q) = res.
Proof.
  revert q. induction env as [|a env IH]; intros q H Hres.
  - exists [], []. split; [reflexivity|]. rewrite dequeue_nil in H. exact H.
  - destruct (dequeue_attempt q) eqn:E.
    + exists [], (a :: env). split; [reflexivity|].
      rewrite dequeue_unblocked in H by congruence. simpl. congruence.
    + exists [], (a :: env). split; [reflexivity|].
      rewrite dequeue_unblocked in H by congruence. simpl. congruence.
    + rewrite dequeue_blocked in H by assumption.
      destruct (IH _ H Hres) as (served & rest & -> & Hd).
      exists (a :: served), rest. split; [reflexivity|]. exact Hd.
Qed.

Lemma perform_all_app xs ys q :
  perform_all (xs ++ ys) q = perform_all ys (perform_all xs q).
Proof. unfold perform_all. apply foldl_app. Qed.

(** What the other threads can and cannot do to the table. *)
Lemma perform_keys_issued a q : keys_issued q -> keys_issued (perform a q).2.
Proof.
  unfold keys_issued. intros [H0 H]. destruct a as [item| |]; simpl.
  - split; [lia|]. intros k r. rewrite lookup_insert.
    destruct (decide (db_seq q + 1 = k)) as [<-|].
    + intros _. lia.
    + intros Hk. specialize (H _ _ Hk). lia.
  - unfold cancelCurrentJob.
    destruct (select_oldest processing (db q)) as [[? ?]|]; simpl; auto.
  - auto.
Qed.

Lemma perform_keeps_row a q k r :
  keys_issued q -> db q !! k = Some r -> db (perform a q).2 !! k = Some r.
Proof.
  intros [H0 H] Hk. destruct a as [item| |]; simpl.
  - rewrite lookup_insert_ne; [assumption|]. specialize (H _ _ Hk). lia.
  - unfold cancelCurrentJob.
    destruct (select_oldest processing (db q)) as [[? ?]|]; simpl; auto.
  - assumption.
Qed.

Lemma perform_all_keeps_row acts q k r :
  keys_issued q -> db q !! k = Some r ->
  keys_issued (perform_all acts q) /\ db (perform_all acts q) !! k = Some r.
Proof.
  revert q. induction acts as [|a acts IH]; intros q Hw Hk; [split; assumption|].
  simpl. apply IH; [apply perform_keys_issued | apply perform_keeps_row]; assumption.
Qed.

Lemma enqueue_makes_pending item q :
  db (enqueue item q).2 !! (db_seq q + 1) = Some (row_of_item item).
Proof. simpl. apply lookup_insert_eq. Qed.

(** A blocked caller stays blocked exactly as long as nobody enqueues a
    job or asks for shutdown. *)
Lemma dequeue_waiting env q :
  dequeue env q = Waiting <->
  dequeue_attempt q = Waiting /\ Forall (fun a => a = act_cancel) env.
Proof.
  revert q. induction env as [|a env IH]; intros q.
  - rewrite dequeue_nil. split; [auto | tauto].
  - destruct (dequeue_attempt q) eqn:E.
    + rewrite dequeue_unblocked by congruence. rewrite E.
      split; [discriminate | intros [? _]; discriminate].
    + rewrite dequeue_unblocked by congruence. rewrite E.
      split; [discriminate | intros [? _]; discriminate].
    + rewrite dequeue_blocked by assumption. rewrite IH.
      split.
      * intros [Hw Hall]. split; [reflexivity|]. constructor; [|assumption].
        apply dequeue_attempt_waiting in Hw as [Hsh Hnp].
        destruct a as [item| |]; [| reflexivity |].
        -- exfalso. apply (Hnp (db_seq q + 1) (row_of_item item)); [|reflexivity].
           apply enqueue_makes_pending.
        -- simpl in Hsh. discriminate.
      * intros [_ Hall]. inversion Hall as [|? ? -> Hall']; subst.
        split; [|assumption].
        apply dequeue_attempt_waiting in E as [Hsh Hnp].
        apply dequeue_attempt_waiting. split.
        -- destruct (shutdown_requested (perform act_cancel q).2) eqn:Hs; [|reflexivity].
           apply perform_shutdown_flag in Hs as [Hs|Hs]; congruence.
        -- unfold no_row_with. rewrite perform_cancel_table. exact Hnp.
Qed.

Lemma perform_all_keys_issued acts q :
  keys_issued q -> keys_issued (perform_all acts q).
Proof.
  revert q. induction acts as [|a acts IH]; intros q Hw; [assumption|].
  simpl. apply IH, perform_keys_issued, Hw.
Qed.

Lemma cancels_keep_waiting served q :
  dequeue_attempt q = Waiting -> Forall (fun a => a = act_cancel) served ->
  dequeue_attempt (perform_all served q) = Waiting.
Proof.
  intros Hw Hall.
  assert (H : dequeue served q = Waiting) by (apply dequeue_waiting; auto).
  clear Hall. revert q Hw H. induction served as [|a served IH]; intros q Hw H; [assumption|].
  rewrite dequeue_blocked in H by assumption. simpl.
  apply IH; [|assumption]. apply dequeue_waiting in H as [H _]. exact H.
Qed.

Lemma dequeue_app served rest q :
  dequeue served q = Waiting ->
  dequeue (served ++ rest) q = dequeue rest (perform_all served q).
Proof.
  revert q. induction served as [|a served IH]; intros q H; [reflexivity|].
  pose proof H as Hw. apply dequeue_waiting in Hw as [Hw _].
  rewrite dequeue_blocked in H by assumption.
  rewrite <- app_comm_cons, dequeue_blocked by assumption.
  simpl. apply IH, H.
Qed.

(** The contract of [dequeue] on the schedules of [dequeue_from], where
    every action of another thread is served while the caller is inside
    [wait]: [dequeue] stays blocked exactly while no job is pending, no
    shutdown is requested and nobody enqueues or requests one; it returns
    the closed signal when shutdown is requested, on entry or while it is
    blocked with nothing pending; when a job is pending and no shutdown
    is requested it returns one; a returned job was [pending] and is
    [processing] in the state [dequeue] leaves behind; and no later call
    returns the same id again. *)
Theorem dequeue_contract (q : WorkQueue) (env : list Action) :
  (dequeue env q = Waiting <->
     shutdown_requested q = false /\ no_row_with pending q
     /\ Forall (fun a => a = act_cancel) env)
  /\ (shutdown_requested q = true -> dequeue env q = Closed)
  /\ (forall served rest,
        shutdown_requested q = false -> no_row_with pending q ->
        Forall (fun a => a = act_cancel) served ->
        dequeue (served ++ act_shutdown :: rest) q = Closed)
  /\ (shutdown_requested q = false ->
      (exists k r, db q !! k = Some r /\ DbRow.status r = pending) ->
      exists item q', dequeue env q = Claimed item q')
  /\ (forall item q',
        dequeue env q = Claimed item q' ->
        exists served rest r,
          env = served ++ rest
          /\ shutdown_requested (perform_all served q) = false
          /\ db (perform_all served q) !! id item = Some r
          /\ DbRow.status r = pending
          /\ item = item_of_row (id item) r
          /\ q' = set_db (<[id item := DbRow.set_status processing r]>
                            (db (perform_all served q)))
                         (perform_all served q))
  /\ (forall item q',
        keys_issued q ->
        dequeue env q = Claimed item q' ->
        forall env2 item2 q2,
          dequeue env2 q' = Claimed item2 q2 -> id item2 <> id item).
Proof.
  split; [|split; [|split; [|split; [|split]]]].
  - rewrite dequeue_waiting, dequeue_attempt_waiting. tauto.
  - intros Hs. apply dequeue_attempt_closed in Hs.
    rewrite dequeue_unblocked; congruence.
  - intros served rest Hs Hnp Hall.
    assert (Hw : dequeue_attempt q = Waiting) by (apply dequeue_attempt_waiting; auto).
    rewrite dequeue_app by (apply dequeue_waiting; auto).
    pose proof (cancels_keep_waiting _ _ Hw Hall) as Hw'.
    rewrite dequeue_blocked by assumption.
    assert (Hc : dequeue_attempt (perform act_shutdown (perform_all served q)).2 = Closed)
      by (apply dequeue_attempt_closed; reflexivity).
    rewrite dequeue_unblocked; congruence.
  - intros Hs (k & r & Hk & Hp).
    destruct (dequeue_attempt q) as [item q'| |] eqn:E.
    + exists item, q'. rewrite dequeue_unblocked; congruence.
    + apply dequeue_attempt_closed in E. congruence.
    + apply dequeue_attempt_waiting in E as [_ E]. destruct (E _ _ Hk Hp).
  - intros item q' H.
    apply dequeue_returns in H as (served & rest & Henv & Hd); [|discriminate].
    apply dequeue_attempt_claimed in Hd as (Hs & r & Hk & Hp & Hi & Hq & _).
    exists served, rest, r. auto 10.
  - intros item q' Hw H env2 item2 q2 H2 Heq.
    apply dequeue_returns in H as (served & rest & Henv & Hd); [|discriminate].
    apply dequeue_attempt_claimed in Hd as (_ & r & Hk & _ & _ & Hq & _).
    pose proof (perform_all_keys_issued served q Hw) as Hw1.
    assert (Hw' : keys_issued q').
    { subst q'. destruct Hw1 as [H0 Hw1]. split; [exact H0|].
      intros k r0. cbn [set_db db db_seq]. rewrite lookup_insert.
      destruct (decide (id item = k)) as [<-|]; intros Hr0; eauto. }
    assert (Hrow : db q' !! id item = Some (DbRow.set_status processing r)).
    { subst q'. cbn [set_db db]. apply lookup_insert_eq. }
    apply dequeue_returns in H2 as (served2 & rest2 & Henv2 & Hd2); [|discriminate].
    apply dequeue_attempt_claimed in Hd2 as (_ & r2 & Hk2 & Hp2 & _).
    destruct (perform_all_keeps_row served2 q' _ _ Hw' Hrow) as [_ Hrow2].
    rewrite Heq, Hrow2 in Hk2. inversion Hk2; subst r2. discriminate.
Qed.

Lemma empty_queue_keys_issued : keys_issued empty_queue.
Proof.
  split; [simpl; lia|]. intros k r H. simpl in H. rewrite lookup_empty in H. discriminate.
Qed.

Lemma dequeue_contract_witness :
  keys_issued empty_queue
  /\ shutdown_requested empty_queue = false
  /\ no_row_with pending empty_queue
  /\ dequeue [act_cancel; act_enqueue job_x] empty_queue = Claimed claimed_x queue_x_claimed
  /\ dequeue [act_enqueue job_y] queue_x_claimed = Claimed claimed_y queue_xy_claimed
  /\ id claimed_y <> id claimed_x
  /\ dequeue ([act_cancel] ++ act_shutdown :: [act_enqueue job_x]) empty_queue = Closed.
Proof.
  pose proof empty_queue_keys_issued as Hk.
  assert (Hs : shutdown_requested empty_queue = false) by reflexivity.
  assert (Hn : no_row_with pending empty_queue).
  { intros k r H. simpl in H. rewrite lookup_empty in H. discriminate. }
  assert (H1 : dequeue [act_cancel; act_enqueue job_x] empty_queue
               = Claimed claimed_x queue_x_claimed) by (vm_compute; reflexivity).
  assert (H2 : dequeue [act_enqueue job_y] queue_x_claimed
               = Claimed claimed_y queue_xy_claimed) by (vm_compute; reflexivity).
  destruct (dequeue_contract empty_queue [act_cancel; act_enqueue job_x])
    as (_ & _ & Hclosed & _ & _ & Honce).
  repeat (split; [assumption|]).
  split.
  - exact (Honce _ _ Hk H1 _ _ _ H2).
  - apply Hclosed; [exact Hs | exact Hn | repeat constructor].
Defined.

(** ** The steps of a call *)

Lemma dequeue_run_app s1 s2 st :
  dequeue_run (s1 ++ s2) st
  = match dequeue_run s1 st with Some st' => dequeue_run s2 st' | None => None end.
Proof.
  revert st. induction s1 as [|t s1 IH]; intros st; [reflexivity|].
  cbn [app dequeue_run]. destruct (dequeue_step t st); [apply IH | reflexivity].
Qed.

(** [dequeue_from] follows the schedules in which every action of another
    thread is served while the caller is inside [wait]. *)
Lemma dequeue_from_run asleep env q :
  exists schedule,
    match dequeue_from asleep env q with
    | Claimed item q' =>
        dequeue_run schedule (if asleep then in_wait else acquiring, q)
        = Some (returned (Some item), q')
    | Closed =>
        exists q', dequeue_run schedule (if asleep then in_wait else acquiring, q)
                   = Some (returned None, q')
                   /\ shutdown_requested q' = true
    | Waiting =>
        exists q', dequeue_run schedule (if asleep then in_wait else acquiring, q)
                   = Some (in_wait, q')
    end.
Proof.
  revert asleep q. induction env as [|a env IH]; intros asleep q.
  - destruct asleep; cbn [dequeue_from].
    + exists []. exists q. reflexivity.
    + destruct (dequeue_attempt q) as [item q'| |] eqn:E.
      * exists [turn_caller; turn_caller]. cbn. rewrite E. reflexivity.
      * exists [turn_caller; turn_caller]. exists q. cbn. rewrite E.
        split; [reflexivity | apply dequeue_attempt_closed, E].
      * exists [turn_caller; turn_caller; turn_caller]. exists q. cbn. rewrite E. reflexivity.
  - assert (Hsleep : exists schedule,
              match (let '(wk, q') := perform a q in dequeue_from (is_NoWake wk) env q') with
              | Claimed item q' =>
                  dequeue_run schedule (in_wait, q) = Some (returned (Some item), q')
              | Closed =>
                  exists q', dequeue_run schedule (in_wait, q) = Some (returned None, q')
                             /\ shutdown_requested q' = true
              | Waiting =>
                  exists q', dequeue_run schedule (in_wait, q) = Some (in_wait, q')
              end).
    { destruct (perform a q) as [wk q1] eqn:Hp.
      destruct (IH (is_NoWake wk) q1) as [s Hs].
      exists (turn_other a :: s). cbn [dequeue_run dequeue_step]. rewrite Hp. cbn [fst snd].
      exact Hs. }
    destruct asleep; cbn [dequeue_from]; [exact Hsleep|].
    destruct (dequeue_attempt q) as [item q'| |] eqn:E.
    + exists [turn_caller; turn_caller]. cbn. rewrite E. reflexivity.
    + exists [turn_caller; turn_caller]. exists q. cbn. rewrite E.
      split; [reflexivity | apply dequeue_attempt_closed, E].
    + destruct Hsleep as [s Hs].
      exists ([turn_caller; turn_caller; turn_caller] ++ s).
      rewrite dequeue_run_app. cbn [dequeue_run dequeue_step]. rewrite E. exact Hs.
Qed.

(** Inside [wait] the caller has no step of its own and sleeps through
    what notifies nobody. *)
Lemma in_wait_until_notified schedule q st :
  Forall (fun t => t = turn_caller \/ t = turn_other act_cancel) schedule ->
  dequeue_run schedule (in_wait, q) = Some st ->
  st.1 = in_wait /\ db st.2 = db q /\ shutdown_requested st.2 = shutdown_requested q.
Proof.
  intros Hall. revert q. induction Hall as [|t schedule Ht _ IH]; intros q H.
  - injection H as <-. auto.
  - destruct Ht as [-> | ->]; cbn [dequeue_run dequeue_step] in H; [discriminate|].
    cbn [perform fst snd is_NoWake] in H.
    apply IH in H as (Hpc & Hdb & Hs). split; [exact Hpc|].
    rewrite Hdb, Hs. unfold cancelCurrentJob.
    destruct (select_oldest _ _) as [[k r]|]; split; reflexivity.
Qed.

(** C6, where it fails: [requestShutdown] takes no mutex.  When nothing is
    pending and it runs after the caller of [dequeue] has tested the flag
    and found no row, but before the caller is inside [wait], its
    [notify_all] wakes nobody: the caller goes to sleep with the shutdown
    flag up and no job pending, has no step of its own, and stays there
    until some other thread notifies, which after [requestShutdown] none
    does.  Served while the caller is inside [wait], the same request makes
    [dequeue] return false. *)
Theorem shutdown_signal_can_be_lost (q : WorkQueue) :
  shutdown_requested q = false ->
  no_row_with pending q ->
  dequeue_run [turn_caller; turn_caller; turn_other act_shutdown; turn_caller]
              (acquiring, q)
  = Some (in_wait, (requestShutdown q).2)
  /\ shutdown_requested (requestShutdown q).2 = true
  /\ no_row_with pending (requestShutdown q).2
  /\ dequeue_step turn_caller (in_wait, (requestShutdown q).2) = None
  /\ (forall schedule st,
        Forall (fun t => t = turn_caller \/ t = turn_other act_cancel) schedule ->
        dequeue_run schedule (in_wait, (requestShutdown q).2) = Some st ->
        st.1 = in_wait)
  /\ dequeue_run [turn_caller; turn_caller; turn_caller; turn_other act_shutdown;
                  turn_caller; turn_caller]
                 (acquiring, q)
     = Some (returned None, (requestShutdown q).2).
Proof.
  intros Hs Hnone.
  assert (Hw : dequeue_attempt q = Waiting) by (apply dequeue_attempt_waiting; auto).
  split; [cbn; rewrite Hw; reflexivity|].
  split; [reflexivity|]. split; [exact Hnone|]. split; [reflexivity|].
  split.
  - intros schedule st Hall Hrun.
    exact (proj1 (in_wait_until_notified _ _ _ Hall Hrun)).
  - cbn [dequeue_run dequeue_step]. rewrite Hw.
    cbn [dequeue_run dequeue_step perform requestShutdown fst snd is_NoWake].
    unfold dequeue_attempt. reflexivity.
Qed.

Lemma shutdown_signal_can_be_lost_witness :
  shutdown_requested empty_queue = false
  /\ no_row_with pending empty_queue
  /\ dequeue_run [turn_caller; turn_caller; turn_other act_shutdown; turn_caller]
                 (acquiring, empty_queue)
     = Some (in_wait, mkWorkQueue ∅ 0 true false 0)
  /\ dequeue_step turn_caller (in_wait, mkWorkQueue ∅ 0 true false 0) = None.
Proof.
  assert (Hs : shutdown_requested empty_queue = false) by reflexivity.
  assert (Hn : no_row_with pending empty_queue).
  { intros k r H. simpl in H. rewrite lookup_empty in H. discriminate. }
  destruct (shutdown_signal_can_be_lost empty_queue Hs Hn) as (Hrun & _ & _ & Hblocked & _).
  split; [exact Hs|]. split; [exact Hn|]. split; [exact Hrun | exact Hblocked].
Defined.


(** ** First in, first out *)

Lemma pending_after_update (m m' : gmap Z DbRow.t) k :
  (forall j, j <> k -> m' !! j = m !! j) ->
  (forall r', m' !! k = Some r' -> DbRow.status r' <> pending) ->
  filter (fun kr : Z * DbRow.t => DbRow.status kr.2 = pending) m'
  = delete k (filter (fun kr : Z * DbRow.t => DbRow.status kr.2 = pending) m).
Proof.
  intros Hother Hk. apply map_eq. intros j. apply option_eq. intros y.
  destruct (decide (j = k)) as [->|Hne].
  - rewrite lookup_delete_eq, map_lookup_filter_Some. simpl.
    split; [intros [H1 H2]; destruct (Hk _ H1 H2) | discriminate].
  - rewrite lookup_delete_ne by congruence.
    rewrite !map_lookup_filter_Some, Hother by assumption. reflexivity.
Qed.

Lemma elem_of_waiting_jobs q x :
  x ∈ waiting_jobs q <->
  exists r, db q !! id x = Some r /\ DbRow.status r = pending /\ x = item_of_row (id x) r.
Proof.
  unfold waiting_jobs. rewrite list_elem_of_fmap. split.
  - intros ([k r] & -> & Hin). apply elem_of_map_to_list, map_lookup_filter_Some in Hin.
    exists r. simpl in *. tauto.
  - intros (r & Hk & Hs & Hx). exists (id x, r). split; [exact Hx|].
    apply elem_of_map_to_list, map_lookup_filter_Some. auto.
Qed.

(** The state after one job has been claimed and completed. *)
Lemma claimed_and_completed now q item q' :
  dequeue_attempt q = Claimed item q' ->
  shutdown_requested (markCompleted now (id item) q').2 = shutdown_requested q
  /\ db_seq (markCompleted now (id item) q').2 = db_seq q
  /\ item :: waiting_jobs (markCompleted now (id item) q').2 ≡ₚ waiting_jobs q
  /\ (forall x, x ∈ waiting_jobs (markCompleted now (id item) q').2 -> precedes item x).
Proof.
  intros H. apply dequeue_attempt_claimed in H as (Hs & r & Hk & Hp & Hi & -> & Hmin).
  set (k := id item) in *.
  assert (Hf : filter (fun kr : Z * DbRow.t => DbRow.status kr.2 = pending)
                 (db (markCompleted now k
                        (set_db (<[k := DbRow.set_status processing r]> (db q)) q)).2)
               = delete k (filter (fun kr : Z * DbRow.t => DbRow.status kr.2 = pending) (db q))).
  { apply pending_after_update.
    - intros j Hj. cbn [markCompleted snd set_db db].
      rewrite lookup_alter_ne, lookup_insert_ne by congruence. reflexivity.
    - intros r'. cbn [markCompleted snd set_db db].
      rewrite lookup_alter, decide_True, lookup_insert_eq by reflexivity. simpl.
      intros Hr'. inversion Hr'. discriminate. }
  split; [reflexivity|]. split; [reflexivity|]. split.
  - unfold waiting_jobs. rewrite Hf.
    rewrite <- (map_to_list_delete
                 (filter (fun kr : Z * DbRow.t => DbRow.status kr.2 = pending) (db q)) k r)
      by (apply map_lookup_filter_Some; auto).
    rewrite fmap_cons. simpl. rewrite <- Hi. reflexivity.
  - intros x Hx. unfold waiting_jobs in Hx. rewrite Hf in Hx.
    apply list_elem_of_fmap in Hx as ([k' r'] & -> & Hin).
    apply elem_of_map_to_list in Hin.
    destruct (decide (k' = k)) as [->|Hne]; [rewrite lookup_delete_eq in Hin; discriminate|].
    rewrite lookup_delete_ne in Hin by congruence.
    apply map_lookup_filter_Some in Hin as [Hk' Hp']. simpl in Hp'.
    specialize (Hmin _ _ Hk' Hp'). unfold precedes. rewrite Hi.
    cbn [created_at item_of_row id fst snd]. fold k. lia.
Qed.

Lemma no_pending_no_waiting q : no_row_with pending q <-> waiting_jobs q = [].
Proof.
  split.
  - intros H. unfold waiting_jobs.
    replace (filter _ (db q)) with (∅ : gmap Z DbRow.t); [rewrite map_to_list_empty; reflexivity|].
    symmetry. apply map_empty_filter. intros k r Hk Hp. exact (H k r Hk Hp).
  - intros H k r Hk Hp.
    assert (Hin : item_of_row k r ∈ waiting_jobs q)
      by (apply elem_of_waiting_jobs; exists r; auto).
    rewrite H in Hin. inversion Hin.
Qed.

(** Draining hands out waiting jobs only, oldest first, and all of them
    when given enough turns. *)
Lemma drain_order now n q :
  shutdown_requested q = false ->
  (forall x, x ∈ drain now n q -> x ∈ waiting_jobs q)
  /\ StronglySorted precedes (drain now n q)
  /\ ((List.length (waiting_jobs q) <= n)%nat -> drain now n q ≡ₚ waiting_jobs q).
Proof.
  revert q. induction n as [|n IH]; intros q Hs.
  - simpl. split; [intros x Hx; inversion Hx|]. split; [constructor|].
    intros Hl. destruct (waiting_jobs q); [reflexivity | simpl in Hl; lia].
  - cbn [drain]. rewrite dequeue_nil.
    destruct (dequeue_attempt q) as [item q'| |] eqn:E.
    + destruct (claimed_and_completed now _ _ _ E) as (Hs' & _ & Hperm & Hmin).
      destruct (IH (markCompleted now (id item) q').2) as (Hsub & Hsorted & Hall);
        [congruence|].
      split; [|split].
      * intros x Hx. rewrite <- Hperm. apply elem_of_cons in Hx as [->|Hx]; [left|right; auto].
      * constructor; [assumption|]. apply Forall_forall. intros x Hx.
        apply Hmin, Hsub, Hx.
      * intros Hl. rewrite <- Hperm. constructor. apply Hall.
        apply Permutation_length in Hperm. cbn [List.length] in Hperm. lia.
    + apply dequeue_attempt_closed in E. congruence.
    + apply dequeue_attempt_waiting in E as [_ E]. apply no_pending_no_waiting in E.
      rewrite E. split; [intros x Hx; inversion Hx|]. split; [constructor | reflexivity].
Qed.

Lemma enqueue_keys_issued item q : keys_issued q -> keys_issued (enqueue item q).2.
Proof. exact (perform_keys_issued (act_enqueue item) q). Qed.

Lemma enqueue_waiting item q :
  keys_issued q ->
  waiting_jobs (enqueue item q).2
  ≡ₚ item_of_row (db_seq q + 1) (row_of_item item) :: waiting_jobs q.
Proof.
  intros [H0 Hw]. unfold waiting_jobs. cbn [enqueue snd db].
  rewrite map_filter_insert_True by reflexivity.
  rewrite map_to_list_insert; [reflexivity|].
  apply map_lookup_filter_None. left.
  destruct (db q !! (db_seq q + 1)) as [r|] eqn:E; [|reflexivity].
  specialize (Hw _ _ E). lia.
Qed.

Lemma enqueue_all_facts items q :
  keys_issued q ->
  keys_issued (enqueue_all items q)
  /\ shutdown_requested (enqueue_all items q) = shutdown_requested q
  /\ waiting_jobs (enqueue_all items q) ≡ₚ stored_items (db_seq q) items ++ waiting_jobs q
  /\ (forall k r, db q !! k = Some r -> db (enqueue_all items q) !! k = Some r)
  /\ (forall k r, db (enqueue_all items q) !! k = Some r ->
        db q !! k = Some r
        \/ (db_seq q < k /\ exists it, it ∈ items /\ r = row_of_item it)).
Proof.
  revert q. induction items as [|it items IH]; intros q Hw.
  - simpl. split; [exact Hw|]. split; [reflexivity|]. split; [reflexivity|]. split; auto.
  - cbn [enqueue_all stored_items].
    destruct (IH (enqueue it q).2 (enqueue_keys_issued it q Hw))
      as (Hw' & Hs & Hperm & Hold & Hnew).
    split; [exact Hw'|]. split; [exact Hs|]. split; [|split].
    + rewrite Hperm, (enqueue_waiting it q Hw).
      cbn [enqueue snd db_seq]. rewrite <- Permutation_middle. reflexivity.
    + intros k r Hk. apply Hold.
      exact (perform_keeps_row (act_enqueue it) q k r Hw Hk).
    + intros k r Hk. destruct (Hnew k r Hk) as [Hk'|(Hlt & it' & Hin & ->)].
      * cbn [enqueue snd db] in Hk'. rewrite lookup_insert in Hk'.
        destruct (decide (db_seq q + 1 = k)) as [<-|].
        -- inversion Hk'. right. split; [lia|]. exists it. split; [left | reflexivity].
        -- left. exact Hk'.
      * right. cbn [enqueue snd db_seq] in Hlt. split; [lia|].
        exists it'. split; [right; exact Hin | reflexivity].
Qed.

Lemma stored_items_created_at seq items :
  created_at <$> stored_items seq items = created_at <$> items.
Proof.
  revert seq. induction items as [|it items IH]; intros seq; [reflexivity|].
  cbn [stored_items fmap list_fmap]. f_equal. apply IH.
Qed.

Lemma stored_items_length seq items :
  List.length (stored_items seq items) = List.length items.
Proof.
  revert seq. induction items as [|it items IH]; intros seq; [reflexivity|].
  cbn [stored_items List.length]. f_equal. apply IH.
Qed.

Lemma strictly_by_creation l :
  StronglySorted precedes l -> NoDup (created_at <$> l) ->
  StronglySorted Z.lt (created_at <$> l).
Proof.
  induction 1 as [|a l Hsorted IH Hall]; intros Hnd; [constructor|].
  rewrite fmap_cons in *. apply NoDup_cons in Hnd as [Hnotin Hnd].
  constructor; [apply IH, Hnd|].
  apply Forall_fmap, Forall_forall. intros b Hb. simpl.
  rewrite Forall_forall in Hall. destruct (Hall b Hb) as [Hlt|[Heq _]]; [exact Hlt|].
  exfalso. apply Hnotin. rewrite Heq. apply list_elem_of_fmap. exists b. auto.
Qed.

(** A job handed back by [markFailed] is the next one out again, ahead of
    everything that was behind it and of everything enqueued since. *)
Lemma retried_job_first q item q1 max_retries q2 arrivals :
  keys_issued q ->
  dequeue_attempt q = Claimed item q1 ->
  markFailed (id item) max_retries q1 = (true, NotifyOne, q2) ->
  Forall (fun it => created_at item <= created_at it) arrivals ->
  (exists r2, db q2 !! id item = Some r2
              /\ DbRow.created_at r2 = created_at item
              /\ DbRow.status r2 = pending)
  /\ exists item' q3,
       dequeue_attempt (enqueue_all arrivals q2) = Claimed item' q3
       /\ id item' = id item /\ created_at item' = created_at item.
Proof.
  intros Hw Hd Hf Harr.
  apply dequeue_attempt_claimed in Hd as (Hs & r & Hk & Hp & Hi & -> & Hmin).
  set (k := id item) in *.
  assert (Hc : created_at item = DbRow.created_at r) by (rewrite Hi; reflexivity).
  unfold markFailed in Hf. cbn [set_db db] in Hf. rewrite lookup_insert_eq in Hf.
  destruct (max_retries <=? _); [discriminate|]. injection Hf as Hq2.
  set (r2 := DbRow.set_status pending
               (DbRow.set_retry_count
                  (sqlite3_column_int (DbRow.retry_count (DbRow.set_status processing r)) + 1)
                  (DbRow.set_status processing r))).
  assert (Hk2 : db q2 !! k = Some r2).
  { rewrite <- Hq2. cbn [set_db db].
    rewrite lookup_alter, decide_True, lookup_insert_eq by reflexivity. reflexivity. }
  assert (Hother : forall j, j <> k -> db q2 !! j = db q !! j).
  { intros j Hj. rewrite <- Hq2. cbn [set_db db].
    rewrite lookup_alter_ne, lookup_insert_ne by congruence. reflexivity. }
  assert (Hseq : db_seq q2 = db_seq q) by (rewrite <- Hq2; reflexivity).
  assert (Hsh : shutdown_requested q2 = false) by (rewrite <- Hq2; exact Hs).
  assert (Hw2 : keys_issued q2).
  { destruct Hw as [H0 Hw]. split; [lia|]. intros j rj Hj. rewrite Hseq.
    destruct (decide (j = k)) as [->|Hne]; [eauto|].
    rewrite Hother in Hj by assumption. eauto. }
  split; [exists r2; split; [exact Hk2 | split; [rewrite Hc|]; reflexivity]|].
  destruct (enqueue_all_facts arrivals q2 Hw2) as (_ & Hsh' & _ & Hold & Hnew).
  exists (item_of_row k r2), (snd (markProcessing k (enqueue_all arrivals q2))).
  split; [|split; [reflexivity | rewrite Hc; reflexivity]].
  unfold dequeue_attempt. rewrite Hsh', Hsh.
  rewrite (select_oldest_is pending _ k r2); [reflexivity | apply Hold, Hk2 | reflexivity |].
  intros j rj Hj Hpj. change (DbRow.created_at r2) with (DbRow.created_at r).
  destruct (Hnew _ _ Hj) as [Hj'|(Hlt & it & Hin & ->)].
  - destruct (decide (j = k)) as [->|Hne].
    + rewrite Hk2 in Hj'. inversion Hj'. right. split; [reflexivity | lia].
    + rewrite Hother in Hj' by assumption. apply (Hmin _ _ Hj' Hpj).
  - rewrite Forall_forall in Harr. specialize (Harr _ Hin).
    destruct Hw as [_ Hw]. specialize (Hw _ _ Hk).
    cbn [row_of_item DbRow.created_at]. lia.
Qed.

(** C2: [dequeue] returns a waiting job of smallest [created_at]; jobs
    enqueued with distinct creation times come out in creation-time order,
    each of them once; and a job that [markFailed] sends back to [pending]
    keeps its [created_at] and is the next one out again, ahead of the jobs
    that were behind it and of any enqueued later. *)
Theorem dequeue_fifo (now : Z) (q : WorkQueue) :
  keys_issued q ->
  shutdown_requested q = false ->
  (forall item q',
      dequeue [] q = Claimed item q' ->
      item ∈ waiting_jobs q
      /\ forall x, x ∈ waiting_jobs q -> created_at item <= created_at x)
  /\ (forall items,
        no_row_with pending q ->
        NoDup (created_at <$> items) ->
        drain now (List.length items) (enqueue_all items q)
          ≡ₚ stored_items (db_seq q) items
        /\ created_at <$> drain now (List.length items) (enqueue_all items q)
             ≡ₚ created_at <$> items
        /\ StronglySorted Z.lt
             (created_at <$> drain now (List.length items) (enqueue_all items q)))
  /\ (forall item q1 max_retries q2 arrivals,
        dequeue [] q = Claimed item q1 ->
        markFailed (id item) max_retries q1 = (true, NotifyOne, q2) ->
        Forall (fun it => created_at item <= created_at it) arrivals ->
        (exists r2, db q2 !! id item = Some r2
                    /\ DbRow.created_at r2 = created_at item
                    /\ DbRow.status r2 = pending)
        /\ exists item' q3,
             dequeue [] (enqueue_all arrivals q2) = Claimed item' q3
             /\ id item' = id item /\ created_at item' = created_at item).
Proof.
  intros Hw Hs. split; [|split].
  - intros item q' H. rewrite dequeue_nil in H.
    apply dequeue_attempt_claimed in H as (_ & r & Hk & Hp & Hi & _ & Hmin).
    split; [apply elem_of_waiting_jobs; eauto|].
    intros x Hx. apply elem_of_waiting_jobs in Hx as (rx & Hkx & Hpx & ->).
    rewrite Hi. cbn [created_at item_of_row].
    destruct (Hmin _ _ Hkx Hpx); lia.
  - intros items Hnp Hnd.
    destruct (enqueue_all_facts items q Hw) as (_ & Hs' & Hperm & _ & _).
    apply no_pending_no_waiting in Hnp. rewrite Hnp, app_nil_r in Hperm.
    destruct (drain_order now (List.length items) (enqueue_all items q)) as (_ & Hsorted & Hall);
      [congruence|].
    assert (Hout : drain now (List.length items) (enqueue_all items q)
                   ≡ₚ stored_items (db_seq q) items).
    { rewrite <- Hperm. apply Hall.
      rewrite (Permutation_length Hperm), stored_items_length. lia. }
    assert (Hc : created_at <$> drain now (List.length items) (enqueue_all items q)
                 ≡ₚ created_at <$> items).
    { rewrite Hout, stored_items_created_at. reflexivity. }
    split; [exact Hout|]. split; [exact Hc|].
    apply strictly_by_creation; [exact Hsorted|]. rewrite Hc. exact Hnd.
  - intros item q1 max_retries q2 arrivals Hd Hf Harr.
    rewrite dequeue_nil in Hd.
    destruct (retried_job_first q item q1 max_retries q2 arrivals Hw Hd Hf Harr)
      as (Hrow & item' & q3 & Hd' & Hid & Hc).
    split; [exact Hrow|]. exists item', q3. rewrite dequeue_nil. auto.
Qed.

Lemma dequeue_fifo_witness :
  (keys_issued empty_queue
   /\ shutdown_requested empty_queue = false
   /\ no_row_with pending empty_queue
   /\ NoDup (created_at <$> [job_z; job_x; job_y])
   /\ created_at <$> drain 5000 3 (enqueue_all [job_z; job_x; job_y] empty_queue)
      = [1000; 1010; 1020]
   /\ StronglySorted Z.lt
        (created_at <$> drain 5000 3 (enqueue_all [job_z; job_x; job_y] empty_queue)))
  /\ (keys_issued one_job_queue
      /\ dequeue [] one_job_queue = Claimed claimed_x queue_x_claimed
      /\ markFailed (id claimed_x) default_max_retries queue_x_claimed
         = (true, NotifyOne, queue_x_retrying)
      /\ Forall (fun it => created_at claimed_x <= created_at it) [job_y; job_z]
      /\ exists item q3,
           dequeue [] (enqueue_all [job_y; job_z] queue_x_retrying) = Claimed item q3
           /\ id item = 1 /\ created_at item = 1000).
Proof.
  split.
  - pose proof empty_queue_keys_issued as Hk.
    assert (Hs : shutdown_requested empty_queue = false) by reflexivity.
    assert (Hn : no_row_with pending empty_queue).
    { intros k r H. simpl in H. rewrite lookup_empty in H. discriminate. }
    assert (Hd : NoDup (created_at <$> [job_z; job_x; job_y])).
    { apply (bool_decide_unpack _). vm_compute. exact I. }
    destruct (dequeue_fifo 5000 empty_queue Hk Hs) as (_ & Horder & _).
    destruct (Horder [job_z; job_x; job_y] Hn Hd) as (_ & _ & Hsorted).
    repeat (split; [assumption|]).
    split; [vm_compute; reflexivity | exact Hsorted].
  - assert (Hk : keys_issued one_job_queue)
      by (apply enqueue_keys_issued, empty_queue_keys_issued).
    assert (H1 : dequeue [] one_job_queue = Claimed claimed_x queue_x_claimed)
      by (vm_compute; reflexivity).
    assert (H2 : markFailed (id claimed_x) default_max_retries queue_x_claimed
                 = (true, NotifyOne, queue_x_retrying)) by (vm_compute; reflexivity).
    assert (H3 : Forall (fun it => created_at claimed_x <= created_at it) [job_y; job_z])
      by (repeat constructor; vm_compute; discriminate).
    destruct (dequeue_fifo 5000 one_job_queue Hk eq_refl) as (_ & _ & Hretry).
    destruct (Hretry _ _ _ _ _ H1 H2 H3) as (_ & item & q3 & Hd & Hid & Hc).
    repeat (split; [assumption|]).
    exists item, q3. split; [exact Hd|]. split; [exact Hid | exact Hc].
Defined.

(** ** Cancellation *)

Lemma markCurrentJobCancelled_running q :
  0 < current_job_id q ->
  markCurrentJobCancelled q
  = mkWorkQueue (delete (current_job_id q) (db q)) (db_seq q)
                (shutdown_requested q) false 0.
Proof.
  intros H. unfold markCurrentJobCancelled.
  destruct (Z.ltb_spec 0 (current_job_id q)); [reflexivity | lia].
Qed.

Lemma markCurrentJobCancelled_idle q :
  current_job_id q <= 0 ->
  markCurrentJobCancelled q
  = mkWorkQueue (db q) (db_seq q) (shutdown_requested q) false (current_job_id q).
Proof.
  intros H. unfold markCurrentJobCancelled.
  destruct (Z.ltb_spec 0 (current_job_id q)); [lia | reflexivity].
Qed.

(** *** Reachable states *)

Lemma keys_issued_shrink q q' :
  db_seq q' = db_seq q ->
  (forall k r', db q' !! k = Some r' -> is_Some (db q !! k)) ->
  keys_issued q -> keys_issued q'.
Proof.
  intros Hseq Hsub [H0 Hw]. split; [lia|]. intros k r' Hk. rewrite Hseq.
  destruct (Hsub _ _ Hk) as [r Hr]. eauto.
Qed.

Lemma alter_keys (f : DbRow.t -> DbRow.t) (m : gmap Z DbRow.t) j k r' :
  alter f j m !! k = Some r' -> is_Some (m !! k).
Proof.
  rewrite lookup_alter. destruct (decide (j = k)) as [->|]; [|eauto].
  destruct (m !! k); [eauto | discriminate].
Qed.

Lemma delete_keys (m : gmap Z DbRow.t) j k r' :
  delete j m !! k = Some r' -> is_Some (m !! k).
Proof.
  rewrite lookup_delete. destruct (decide (j = k)); [discriminate | eauto].
Qed.

Lemma perform_current_job a q : current_job_id (perform a q).2 = current_job_id q.
Proof.
  destruct a as [item| |]; simpl; try reflexivity.
  unfold cancelCurrentJob. destruct (select_oldest processing (db q)) as [[? ?]|]; reflexivity.
Qed.

Lemma perform_all_current_job acts q :
  current_job_id (perform_all acts q) = current_job_id q.
Proof.
  revert q. induction acts as [|a acts IH]; intros q; [reflexivity|].
  simpl. rewrite IH. apply perform_current_job.
Qed.

(** [dequeue] hands out issued ids, which are positive, and leaves
    [current_job_id] alone. *)
Lemma claimed_id_issued env q item q' :
  keys_issued q -> dequeue env q = Claimed item q' ->
  0 < id item /\ keys_issued q' /\ current_job_id q' = current_job_id q.
Proof.
  intros Hw H.
  apply dequeue_returns in H as (served & rest & _ & Hd); [|discriminate].
  apply dequeue_attempt_claimed in Hd as (_ & r & Hk & _ & _ & -> & _).
  pose proof (perform_all_keys_issued served q Hw) as Hw1.
  split; [destruct Hw1 as [_ Hw1]; specialize (Hw1 _ _ Hk); lia|].
  split; [|apply perform_all_current_job].
  apply (keys_issued_shrink (perform_all served q)); [reflexivity| |exact Hw1].
  intros k r'. cbn [set_db db]. rewrite lookup_insert.
  destruct (decide (id item = k)) as [<-|]; eauto.
Qed.

Lemma queue_step_invariant q q' :
  queue_step q q' ->
  keys_issued q /\ 0 <= current_job_id q ->
  keys_issued q' /\ 0 <= current_job_id q'.
Proof.
  intros Hstep [Hw Hc]. destruct Hstep.
  - split; [|exact Hc]. apply (keys_issued_shrink q); [reflexivity| |exact Hw].
    intros k r'. rewrite initialize_lookup. destruct (db q !! k); [eauto | discriminate].
  - split; [apply enqueue_keys_issued, Hw | exact Hc].
  - destruct (claimed_id_issued _ _ _ _ Hw H) as (_ & Hw' & Hcur).
    split; [exact Hw'|]. rewrite Hcur. exact Hc.
  - split; [exact Hw|]. destruct Hw as [_ Hw]. specialize (Hw _ _ H). simpl. lia.
  - split; [|exact Hc]. apply (keys_issued_shrink q); [reflexivity| |exact Hw].
    intros j r'. apply alter_keys.
  - split; [|exact Hc]. apply (keys_issued_shrink q); [reflexivity| |exact Hw].
    intros j r'. apply alter_keys.
  - unfold markFailed. destruct (db q !! k) as [r|]; [|split; assumption].
    destruct (max_retries <=? _); (split; [|exact Hc]);
      (apply (keys_issued_shrink q); [reflexivity| |exact Hw]); intros j r'.
    + apply delete_keys.
    + apply alter_keys.
  - unfold cancelCurrentJob.
    destruct (select_oldest processing (db q)) as [[? ?]|]; split; assumption.
  - destruct (Z.lt_ge_cases 0 (current_job_id q)) as [Hpos|Hzero].
    + rewrite markCurrentJobCancelled_running by exact Hpos. split; [|simpl; lia].
      apply (keys_issued_shrink q); [reflexivity| |exact Hw]. intros j r'. apply delete_keys.
    + rewrite markCurrentJobCancelled_idle by exact Hzero. split; assumption.
  - split; assumption.
Qed.

(** Every state the program reaches carries issued keys only and a
    current job id that is 0 or the id of a row once claimed. *)
Lemma reachable_invariant q :
  reachable q -> keys_issued q /\ 0 <= current_job_id q.
Proof.
  induction 1 as [m seq Hw|q q' _ IH Hstep].
  - split; [exact Hw | simpl; lia].
  - exact (queue_step_invariant _ _ Hstep IH).
Qed.

Lemma cancelCurrentJob_sets_flag q k r :
  db q !! k = Some r -> DbRow.status r = processing ->
  exists k0 r0,
    select_oldest processing (db q) = Some (k0, r0)
    /\ cancelCurrentJob q
       = (DbRow.original_filename r0,
          mkWorkQueue (db q) (db_seq q) (shutdown_requested q) true (current_job_id q)).
Proof.
  intros Hk Hp. unfold cancelCurrentJob.
  destruct (select_oldest processing (db q)) as [[k0 r0]|] eqn:E.
  - exists k0, r0. split; reflexivity.
  - rewrite select_oldest_None in E. destruct (E _ _ Hk Hp).
Qed.

(** What holds of the acknowledgement: [markCurrentJobCancelled] clears
    the cancel flag, deletes the row of the current job and sets
    [current_job_id] to 0; a second call changes nothing.  When [/remove]
    is served while the current job is [processing], the flag goes up, the
    table is left alone, and at the next checkpoint the pipeline returns
    with the row of the current job gone, the flag down and
    [current_job_id = 0].  The job [cancelCurrentJob] names is the current
    one when no other row is [processing]. *)
Theorem markCurrentJobCancelled_idempotent (q : WorkQueue) :
  0 <= current_job_id q ->
  cancel_current_job (markCurrentJobCancelled q) = false
  /\ current_job_id (markCurrentJobCancelled q) = 0
  /\ (0 < current_job_id q ->
      db (markCurrentJobCancelled q) = delete (current_job_id q) (db q))
  /\ (current_job_id q = 0 -> db (markCurrentJobCancelled q) = db q)
  /\ markCurrentJobCancelled (markCurrentJobCancelled q) = markCurrentJobCancelled q
  /\ (forall r run fs n log,
        0 < current_job_id q ->
        db q !! current_job_id q = Some r ->
        DbRow.status r = processing ->
        cancel_request_at run = Some n ->
        shouldCancelCurrentJob (cancelCurrentJob q).2 = true
        /\ db (cancelCurrentJob q).2 = db q
        /\ ((forall k' r', db q !! k' = Some r' -> DbRow.status r' = processing ->
                           k' = current_job_id q) ->
            (cancelCurrentJob q).1 = DbRow.original_filename r)
        /\ exists q',
             cancel_check run (mkWorld q fs n log)
             = (Return EmptyString,
                mkWorld q' fs (S n) (log ++ [call_markCurrentJobCancelled]))
             /\ db q' !! current_job_id q = None
             /\ (forall k, k <> current_job_id q -> db q' !! k = db q !! k)
             /\ current_job_id q' = 0
             /\ cancel_current_job q' = false).
Proof.
  intros Hcur.
  destruct (Z.lt_ge_cases 0 (current_job_id q)) as [Hpos|Hzero].
  - rewrite (markCurrentJobCancelled_running q Hpos).
    split; [reflexivity|]. split; [reflexivity|]. split; [reflexivity|].
    split; [lia|].
    split; [rewrite markCurrentJobCancelled_idle by (cbn [current_job_id]; lia); reflexivity|].
    intros r run fs n log _ Hk Hp Hreq.
    destruct (cancelCurrentJob_sets_flag q _ _ Hk Hp) as (k0 & r0 & Hsel & Hc).
    rewrite Hc. cbn [snd fst shouldCancelCurrentJob cancel_current_job db].
    split; [reflexivity|]. split; [reflexivity|]. split.
    + intros Huniq. apply select_oldest_Some in Hsel as (Hk0 & Hp0 & _).
      specialize (Huniq _ _ Hk0 Hp0). subst k0. congruence.
    + eexists. split.
      * unfold cancel_check, bind, cancel_point. cbn [checkpoints queue files calls].
        rewrite Hreq, bool_decide_eq_true_2 by reflexivity. rewrite Hc.
        cbn [snd shouldCancelCurrentJob cancel_current_job].
        unfold acknowledge, on_queue, return_. cbn [queue files checkpoints calls].
        rewrite markCurrentJobCancelled_running by exact Hpos.
        cbn [current_job_id db db_seq shutdown_requested]. reflexivity.
      * cbn [db current_job_id cancel_current_job].
        split; [apply lookup_delete_eq|].
        split; [intros k Hne; apply lookup_delete_ne; congruence|].
        split; reflexivity.
  - assert (Hz : current_job_id q = 0) by lia.
    rewrite (markCurrentJobCancelled_idle q) by lia.
    cbn [cancel_current_job current_job_id db].
    split; [reflexivity|]. split; [exact Hz|]. split; [lia|]. split; [reflexivity|].
    split; [rewrite markCurrentJobCancelled_idle by (cbn [current_job_id]; lia); reflexivity|].
    intros; lia.
Qed.

Lemma markCurrentJobCancelled_idempotent_witness :
  0 <= current_job_id queue_x_rendering
  /\ 0 < current_job_id queue_x_rendering
  /\ db queue_x_rendering !! current_job_id queue_x_rendering
     = Some (DbRow.set_status processing (row_of_item job_x))
  /\ cancel_request_at run_cancelled_at_once = Some 0%nat
  /\ markCurrentJobCancelled (markCurrentJobCancelled queue_x_rendering)
     = markCurrentJobCancelled queue_x_rendering
  /\ (cancelCurrentJob queue_x_rendering).1 = "x.vmax.zip"%string
  /\ (cancel_check run_cancelled_at_once (mkWorld queue_x_rendering [] 0 [])).1
     = Return EmptyString.
Proof.
  assert (H0 : 0 <= current_job_id queue_x_rendering) by (vm_compute; discriminate).
  assert (H1 : 0 < current_job_id queue_x_rendering) by reflexivity.
  assert (H2 : db queue_x_rendering !! current_job_id queue_x_rendering
               = Some (DbRow.set_status processing (row_of_item job_x)))
    by (vm_compute; reflexivity).
  assert (H3 : cancel_request_at run_cancelled_at_once = Some 0%nat) by reflexivity.
  destruct (markCurrentJobCancelled_idempotent queue_x_rendering H0)
    as (_ & _ & _ & _ & Hidem & Hscenario).
  destruct (Hscenario _ run_cancelled_at_once [] 0%nat [] H1 H2 eq_refl H3)
    as (_ & _ & Hname & q' & Hcheck & _).
  repeat (split; [assumption|]).
  split; [|rewrite Hcheck; reflexivity].
  rewrite Hname; [reflexivity|].
  intros k' r' Hk' Hp'.
  destruct (decide (k' = 1)) as [->|Hne]; [reflexivity|].
  unfold queue_x_rendering, queue_x_claimed in Hk'. simpl in Hk'.
  rewrite lookup_insert_ne, lookup_empty in Hk' by congruence. discriminate.
Defined.

(** C7, where it fails: [cancelCurrentJob] names the oldest [processing]
    row, [markCurrentJobCancelled] deletes the row of [current_job_id].
    Job 1 fails in the pipeline and is left [processing], the worker takes
    job 2, and [/remove] is served before the first checkpoint of job 2:
    it names job 1, whose owner passes as the owner of the current job, and
    at that checkpoint the acknowledgement deletes the row of job 2.  The
    row of the job that was named is still there, [processing]. *)
Theorem cancel_names_one_job_and_deletes_another :
  exists w item q w',
    workerThread [([act_enqueue job_x; act_enqueue job_y], delivered run_without_scene_json)]
                 idle_world = Running w
    /\ dequeue [] (queue w) = Claimed item q
    /\ id item = 2
    /\ db q !! 1 = Some (DbRow.set_status processing (row_of_item job_x))
    /\ db q !! 2 = Some (DbRow.set_status processing (row_of_item job_y))
    /\ (cancelCurrentJob (setCurrentJobId 2 q)).1 = "x.vmax.zip"%string
    /\ getCurrentJobOwnerId (setCurrentJobId 2 q) = user_id job_x
    /\ worker_iteration (delivered run_cancelled_at_once) item
                        (mkWorld q (files w) 0 (calls w)) = Running w'
    /\ workerThread [([act_enqueue job_x; act_enqueue job_y], delivered run_without_scene_json);
                     ([], delivered run_cancelled_at_once)]
                    idle_world = Running w'
    /\ calls w' = calls w ++ [call_setCurrentJobId 2; call_markCurrentJobCancelled]
    /\ db (queue w') !! 1 = Some (DbRow.set_status processing (row_of_item job_x))
    /\ db (queue w') !! 2 = None
    /\ current_job_id (queue w') = 0
    /\ cancel_current_job (queue w') = false.
Proof.
  eexists. eexists. eexists. eexists.
  split; [vm_compute; reflexivity|].
  split; [vm_compute; reflexivity|].
  split; [reflexivity|].
  split; [vm_compute; reflexivity|].
  split; [vm_compute; reflexivity|].
  split; [vm_compute; reflexivity|].
  split; [vm_compute; reflexivity|].
  split; [vm_compute; reflexivity|].
  split; [vm_compute; reflexivity|].
  repeat split; vm_compute; reflexivity.
Qed.


(** ** The worker loop on sample jobs *)

(** A job without a directive goes through: one frame is rendered, the
    message is sent, the row ends [completed] with both timestamps set and
    [retry_count = 0], and nothing is left on disk. *)
Example single_frame_job_completes :
  exists w,
    workerThread [([act_enqueue job_x], delivered run_ok)] idle_world = Running w
    /\ calls w = [call_setCurrentJobId 1; call_markBellaStarted 1;
                  call_message_create 11; call_markCompleted 1]
    /\ db (queue w) !! 1
       = Some (DbRow.set_bella_end_time 5200
                 (DbRow.set_bella_start_time 5100
                    (DbRow.set_status completed (row_of_item job_x))))
    /\ files w = [].
Proof.
  eexists. split; [vm_compute; reflexivity|]. repeat split; vm_compute; reflexivity.
Qed.

(** With [orbit=10] the pipeline returns the one stitched video. *)
Example orbit_job_returns_one_video :
  (processVmaxFile run_ok "y.vmax.zip" "orbit=10" 2
                   (mkWorld (setCurrentJobId 2 queue_xy_claimed) [] 0 [])).1
  = Return "y_orbit.mp4".
Proof. vm_compute. reflexivity. Qed.

(** ** Where the worker loses track of a job *)

(** C3, evaluated where it fails: the pipeline returns the empty string
    for job 1 although nobody asked to cancel (no [scene.json], or a model
    that throws), and the worker goes back to [dequeue] having called
    neither [markFailed] nor [markCompleted] nor
    [markCurrentJobCancelled]; the row stays [processing]. *)
Theorem pipeline_failure_is_not_accounted :
  (processVmaxFile run_without_scene_json "x.vmax.zip" "render please" 1 world_x_claimed).1
    = Return EmptyString
  /\ (processVmaxFile run_model_throws "x.vmax.zip" "render please" 1 world_x_claimed).1
    = Return EmptyString
  /\ job_left_processing run_without_scene_json
  /\ job_left_processing run_model_throws.
Proof.
  split; [vm_compute; reflexivity|]. split; [vm_compute; reflexivity|].
  split; eexists; (split; [vm_compute; reflexivity|]);
    repeat split; vm_compute; reflexivity.
Qed.

(** C8, evaluated where it fails: job 1 fails in the pipeline as above and
    is left [processing]; the next [dequeue] claims job 2, and the table
    then holds two [processing] rows. *)
Theorem two_jobs_processing :
  exists w item q,
    workerThread [([act_enqueue job_x; act_enqueue job_y], delivered run_without_scene_json)]
                 idle_world = Running w
    /\ dequeue [] (queue w) = Claimed item q
    /\ id item = 2
    /\ db q !! 1 = Some (DbRow.set_status processing (row_of_item job_x))
    /\ db q !! 2 = Some (DbRow.set_status processing (row_of_item job_y))
    /\ count_status processing q = 2%nat.
Proof.
  eexists. eexists. eexists.
  split; [vm_compute; reflexivity|].
  split; [vm_compute; reflexivity|].
  repeat split; vm_compute; reflexivity.
Qed.

(** C4, evaluated where it fails: when [scene.json] is missing, when a
    cancellation is acknowledged at a checkpoint, and when [ffmpeg] fails,
    [processVmaxFile] returns the empty string and both the work directory
    and the temporary input file of the job are still on disk. *)
Theorem cleanup_skipped_on_some_exits :
  files_left_behind run_without_scene_json "render please"
  /\ files_left_behind run_cancelled_at_once "render please"
  /\ files_left_behind run_ffmpeg_fails "orbit=2".
Proof.
  repeat split; eexists; (split; [vm_compute; reflexivity|]);
    split; vm_compute; reflexivity.
Qed.

(** ** The animation directive *)

Ltac unfold_app :=
  repeat match goal with
    | |- context [String.append (String ?x ?a) ?b] =>
        change (String.append (String x a) b) with (String x (String.append a b))
    | |- context [String.append EmptyString ?b] =>
        change (String.append EmptyString b) with b
    | H : context [String.append (String ?x ?a) ?b] |- _ =>
        change (String.append (String x a) b) with (String x (String.append a b)) in H
    | H : context [String.append EmptyString ?b] |- _ =>
        change (String.append EmptyString b) with b in H
    end.

Ltac ssimpl := simpl in *; unfold_app.

Section Strings.
Implicit Types (a b c s t : string).

Lemma string_app_assoc a b c : (a +:+ b) +:+ c = a +:+ b +:+ c.
Proof. induction a as [|x a IH]; ssimpl; [reflexivity | rewrite IH; reflexivity]. Qed.

Lemma string_app_nil_r a : a +:+ "" = a.
Proof. induction a as [|x a IH]; ssimpl; [reflexivity | rewrite IH; reflexivity]. Qed.

Lemma string_length_app a b :
  String.length (a +:+ b) = (String.length a + String.length b)%nat.
Proof. induction a as [|x a IH]; ssimpl; [reflexivity | rewrite IH; reflexivity]. Qed.

Lemma string_length_zero a : String.length a = 0%nat -> a = "".
Proof. destruct a; [reflexivity | discriminate]. Qed.

Lemma prefix_app p s : String.prefix p s = true <-> exists t, s = p +:+ t.
Proof.
  revert s. induction p as [|x p IH]; intros s.
  - destruct s; ssimpl; split; eauto.
  - destruct s as [|y s]; ssimpl.
    + split; [discriminate | intros [t Ht]; unfold_app; discriminate].
    + destruct (ascii_dec x y) as [->|Hne].
      * rewrite IH. split; intros [t Ht]; exists t; unfold_app; congruence.
      * split; [discriminate | intros [t Ht]; unfold_app; congruence].
Qed.

Lemma tolower_app a b :
  transform_tolower (a +:+ b) = transform_tolower a +:+ transform_tolower b.
Proof. induction a as [|x a IH]; ssimpl; [reflexivity | rewrite IH; reflexivity]. Qed.

Lemma tolower_length a : String.length (transform_tolower a) = String.length a.
Proof. induction a as [|x a IH]; ssimpl; [reflexivity | rewrite IH; reflexivity]. Qed.

Lemma tolower_split s x y :
  transform_tolower s = x +:+ y ->
  exists a b, s = a +:+ b /\ transform_tolower a = x /\ transform_tolower b = y.
Proof.
  revert s. induction x as [|c x IH]; intros s H.
  - exists "", s. auto.
  - destruct s as [|d s]; [discriminate|]. ssimpl.
    injection H as Hc Hs. destruct (IH _ Hs) as (a & b & -> & Ha & Hb).
    exists (String d a), b. ssimpl. rewrite Ha, Hc. auto.
Qed.

Lemma find_nil needle :
  find needle "" = if String.prefix needle "" then Some 0%nat else None.
Proof. reflexivity. Qed.

Lemma find_cons needle x s :
  find needle (String x s)
  = if String.prefix needle (String x s) then Some 0%nat
    else option_map S (find needle s).
Proof. reflexivity. Qed.

(** [find] returns the leftmost occurrence. *)
Lemma find_Some needle s n :
  find needle s = Some n ->
  exists before after,
    s = before +:+ needle +:+ after
    /\ String.length before = n
    /\ forall before' after',
         s = before' +:+ needle +:+ after' -> (n <= String.length before')%nat.
Proof.
  revert n. induction s as [|x s IH]; intros n.
  - rewrite find_nil. destruct (String.prefix needle "") eqn:Hp; [|discriminate].
    intros [= <-]. apply prefix_app in Hp as [t Ht].
    exists "", t. split; [exact Ht|]. split; [reflexivity | intros; lia].
  - rewrite find_cons. destruct (String.prefix needle (String x s)) eqn:Hp.
    + intros [= <-]. apply prefix_app in Hp as [t Ht].
      exists "", t. split; [exact Ht|]. split; [reflexivity | intros; lia].
    + destruct (find needle s) as [m|]; [|discriminate]. intros [= <-].
      destruct (IH m eq_refl) as (before & after & -> & Hlen & Hmin).
      exists (String x before), after.
      split; [reflexivity|]. split; [simpl; congruence|].
      intros before' after' H. destruct before' as [|y before']; unfold_app.
      * assert (String.prefix needle (String x (before +:+ needle +:+ after)) = true)
          by (apply prefix_app; eauto). congruence.
      * injection H as _ H. simpl. specialize (Hmin _ _ H). lia.
Qed.

Lemma find_None needle s before after :
  find needle s = None -> s <> before +:+ needle +:+ after.
Proof.
  revert before. induction s as [|x s IH]; intros before.
  - rewrite find_nil. destruct (String.prefix needle "") eqn:Hp; [discriminate|]. intros _ H.
    destruct before; unfold_app; [|discriminate].
    assert (String.prefix needle "" = true) by (apply prefix_app; eauto). congruence.
  - rewrite find_cons.
    destruct (String.prefix needle (String x s)) eqn:Hp; [discriminate|].
    destruct (find needle s) eqn:Hf; [discriminate|]. intros _ H.
    destruct before as [|y before]; unfold_app.
    + assert (String.prefix needle (String x s) = true)
        by (apply prefix_app; eauto). congruence.
    + injection H as _ H. exact (IH before eq_refl H).
Qed.

Lemma find_first_of_skip chars pre rest :
  find_first_of chars (pre +:+ rest) (String.length pre)
  = option_map (Nat.add (String.length pre)) (find_first_of chars rest 0).
Proof.
  induction pre as [|x pre IH]; ssimpl.
  - destruct (find_first_of chars rest 0); reflexivity.
  - rewrite IH. destruct (find_first_of chars rest 0); reflexivity.
Qed.

Lemma find_first_of_cons chars x s :
  find_first_of chars (String x s) 0
  = if is_one_of chars x then Some 0%nat
    else option_map S (find_first_of chars s 0).
Proof. reflexivity. Qed.

Lemma delimiter_free_cons x s :
  delimiter_free (String x s) = negb (is_delimiter x) && delimiter_free s.
Proof. reflexivity. Qed.

Lemma find_first_of_token value after :
  delimiter_free value = true -> ends_token after = true ->
  find_first_of orbit_delimiters (value +:+ after) 0
  = match after with
    | EmptyString => None
    | String _ _ => Some (String.length value)
    end.
Proof.
  intros Hv Ha. induction value as [|x value IH]; unfold_app.
  - destruct after as [|y after]; [reflexivity|].
    rewrite find_first_of_cons. cbn [ends_token] in Ha. unfold is_delimiter in Ha.
    rewrite Ha. reflexivity.
  - rewrite delimiter_free_cons in Hv. apply andb_true_iff in Hv as [Hx Hv].
    unfold is_delimiter in Hx. apply negb_true_iff in Hx.
    rewrite find_first_of_cons, Hx, (IH Hv).
    destruct after; reflexivity.
Qed.

Lemma substring_skip pre rest n :
  String.substring (String.length pre) n (pre +:+ rest) = String.substring 0 n rest.
Proof. induction pre as [|x pre IH]; ssimpl; [reflexivity | exact IH]. Qed.

Lemma substring_prefix value after :
  String.substring 0 (String.length value) (value +:+ after) = value.
Proof.
  induction value as [|x value IH]; ssimpl.
  - destruct after; reflexivity.
  - rewrite IH. reflexivity.
Qed.

Lemma token_split rest :
  exists value after,
    rest = value +:+ after /\ delimiter_free value = true /\ ends_token after = true.
Proof.
  induction rest as [|x rest (value & after & -> & Hv & Ha)].
  - exists "", "". auto.
  - destruct (is_delimiter x) eqn:Hx.
    + exists "", (String x (value +:+ after)). auto.
    + exists (String x value), after.
      rewrite delimiter_free_cons, Hx, Hv. auto.
Qed.
End Strings.

Lemma orbit_key_length key :
  transform_tolower key = "orbit=" -> String.length key = 6%nat.
Proof. intros H. rewrite <- tolower_length, H. reflexivity. Qed.

(** What [parseOrbit] computes once the first key has been located. *)
Lemma parseOrbit_at before key value after :
  transform_tolower key = "orbit=" ->
  find "orbit=" (transform_tolower (before +:+ key +:+ value +:+ after))
    = Some (String.length before) ->
  delimiter_free value = true ->
  ends_token after = true ->
  parseOrbit (before +:+ key +:+ value +:+ after)
  = match stoi value with
    | stoi_value frames => if (frames <=? 0) || (300 <? frames) then 0 else frames
    | invalid_argument | out_of_range => 0
    end.
Proof.
  intros Hkey Hfind Hv Ha. unfold parseOrbit. rewrite Hfind.
  pose proof (orbit_key_length _ Hkey) as Hlen.
  rewrite <- (string_app_assoc before key).
  set (pre := before +:+ key).
  assert (Hpre : String.length pre = (String.length before + 6)%nat)
    by (unfold pre; rewrite string_length_app, Hlen; reflexivity).
  rewrite <- Hpre, string_length_app.
  destruct (Nat.leb_spec (String.length pre + String.length (value +:+ after))
                         (String.length pre)) as [Hshort|Hlong].
  - assert (Hnil : value +:+ after = "") by (apply string_length_zero; lia).
    destruct value; [reflexivity | discriminate].
  - rewrite find_first_of_skip, (find_first_of_token _ _ Hv Ha). unfold substr.
    destruct after as [|y after].
    + cbn [option_map]. rewrite string_app_nil_r in *.
      replace (String.length pre + String.length value - String.length pre)%nat
        with (String.length value) by lia.
      rewrite substring_skip. rewrite <- (string_app_nil_r value) at 2.
      rewrite substring_prefix. reflexivity.
    + cbn [option_map].
      replace (String.length pre + String.length value - String.length pre)%nat
        with (String.length value) by lia.
      rewrite substring_skip, substring_prefix. reflexivity.
Qed.

Lemma parseOrbit_range message :
  parseOrbit message = 0 \/ 1 <= parseOrbit message <= 300.
Proof.
  unfold parseOrbit.
  destruct (find _ _); [|left; reflexivity].
  destruct (_ <=? _)%nat; [left; reflexivity|].
  destruct (stoi _) as [frames| |]; try (left; reflexivity).
  destruct (Z.leb_spec frames 0); [left; reflexivity|].
  destruct (Z.ltb_spec 300 frames); [left; reflexivity|].
  right. simpl. lia.
Qed.

(** Splitting a message at the key that [find] has located. *)
Lemma first_key_located message pos :
  find "orbit=" (transform_tolower message) = Some pos ->
  exists before key rest,
    message = before +:+ key +:+ rest
    /\ transform_tolower key = "orbit="
    /\ String.length before = pos
    /\ forall before' key' rest',
         message = before' +:+ key' +:+ rest' ->
         transform_tolower key' = "orbit=" ->
         (pos <= String.length before')%nat.
Proof.
  intros Hf. apply find_Some in Hf as (b0 & a0 & Hdec & Hlen & Hmin).
  apply tolower_split in Hdec as (before & rest0 & -> & Hb & Hr).
  apply tolower_split in Hr as (key & rest & -> & Hk & _).
  exists before, key, rest. split; [reflexivity|]. split; [exact Hk|].
  split; [rewrite <- Hlen, <- Hb; symmetry; apply tolower_length|].
  intros before' key' rest' Hdec' Hk'.
  rewrite <- (tolower_length before'). apply (Hmin _ (transform_tolower rest')).
  rewrite Hdec', !tolower_app, Hk'. reflexivity.
Qed.

Lemma first_key_found message before key rest :
  message = before +:+ key +:+ rest ->
  transform_tolower key = "orbit=" ->
  (forall before' key' rest',
      message = before' +:+ key' +:+ rest' ->
      transform_tolower key' = "orbit=" ->
      (String.length before <= String.length before')%nat) ->
  find "orbit=" (transform_tolower message) = Some (String.length before).
Proof.
  intros Hdec Hk Hmin.
  destruct (find "orbit=" (transform_tolower message)) as [pos|] eqn:Hf.
  - destruct (first_key_located _ _ Hf) as (b1 & k1 & r1 & Hdec1 & Hk1 & Hlen1 & Hmin1).
    specialize (Hmin _ _ _ Hdec1 Hk1). specialize (Hmin1 _ _ _ Hdec Hk).
    f_equal. lia.
  - exfalso. apply (find_None _ _ (transform_tolower before) (transform_tolower rest) Hf).
    rewrite Hdec, !tolower_app, Hk. reflexivity.
Qed.

(** C9 (as amended): [parseOrbit] is total, its result is 0 or lies in
    1..300, and it is [n] in 1..300 exactly when the first [orbit=] of the
    message (in any letter case) is followed by a value, running to the
    next space, tab, newline or carriage return, from which [std::stoi]
    reads [n]; in every other case the result is 0. *)
Theorem parseOrbit_first_token (message : string) :
  (parseOrbit message = 0 \/ 1 <= parseOrbit message <= 300)
  /\ (forall n, 1 <= n <= 300 ->
        (parseOrbit message = n <-> spec_first_orbit_token message n))
  /\ ((forall n, 1 <= n <= 300 -> ~ spec_first_orbit_token message n) ->
      parseOrbit message = 0).
Proof.
  assert (Hiff : forall n, 1 <= n <= 300 ->
                   (parseOrbit message = n <-> spec_first_orbit_token message n)).
  { intros n Hn. split.
    - intros Hp.
      destruct (find "orbit=" (transform_tolower message)) as [pos|] eqn:Hf;
        [|unfold parseOrbit in Hp; rewrite Hf in Hp; lia].
      destruct (first_key_located _ _ Hf) as (before & key & rest & Hdec & Hk & Hlen & Hmin).
      destruct (token_split rest) as (value & after & -> & Hv & Ha).
      subst message pos.
      rewrite (parseOrbit_at _ _ _ _ Hk Hf Hv Ha) in Hp.
      exists before, key, value, after.
      split; [repeat split; assumption|]. split; [|exact Hmin].
      destruct (stoi value) as [frames| |]; try lia.
      destruct ((frames <=? 0) || (300 <? frames)); [lia | congruence].
    - intros (before & key & value & after & (Hdec & Hk & Hv & Ha) & Hstoi & Hmin).
      pose proof (first_key_found _ _ _ _ Hdec Hk Hmin) as Hf.
      subst message. rewrite (parseOrbit_at _ _ _ _ Hk Hf Hv Ha), Hstoi.
      destruct (Z.leb_spec n 0); [lia|]. destruct (Z.ltb_spec 300 n); [lia|]. reflexivity. }
  split; [apply parseOrbit_range|]. split; [exact Hiff|].
  intros Hnone. destruct (parseOrbit_range message) as [H0|Hr]; [exact H0|].
  exfalso. apply (Hnone _ Hr). apply Hiff; [exact Hr | reflexivity].
Qed.

Lemma parseOrbit_first_token_witness :
  1 <= 10 <= 300
  /\ parseOrbit "turntable please ORBIT=10 thanks" = 10
  /\ spec_first_orbit_token "turntable please ORBIT=10 thanks" 10
  /\ parseOrbit "orbit=500" = 0
  /\ parseOrbit "orbit=0" = 0
  /\ parseOrbit "orbit=fast" = 0
  /\ parseOrbit "no directive here" = 0.
Proof.
  assert (Hn : 1 <= 10 <= 300) by lia.
  assert (Hp : parseOrbit "turntable please ORBIT=10 thanks" = 10) by (vm_compute; reflexivity).
  destruct (parseOrbit_first_token "turntable please ORBIT=10 thanks") as (_ & Hiff & _).
  split; [exact Hn|]. split; [exact Hp|].
  split; [apply (Hiff 10 Hn), Hp|].
  repeat split; vm_compute; reflexivity.
Defined.

(** C9, as first stated, fails: this message contains the token [orbit=5],
    whose value reads as 5, yet [parseOrbit] looks at the first [orbit=]
    only and returns 0. *)
Lemma later_orbit_token_is_ignored :
  spec_has_orbit_token "orbit=x orbit=5" 5
  /\ 1 <= 5 <= 300
  /\ parseOrbit "orbit=x orbit=5" = 0
  /\ ~ (parseOrbit "orbit=x orbit=5" = 5 <-> spec_has_orbit_token "orbit=x orbit=5" 5).
Proof.
  assert (Htok : spec_has_orbit_token "orbit=x orbit=5" 5).
  { exists "orbit=x ", "orbit=", "5", "". split; [repeat split|]; vm_compute; reflexivity. }
  assert (Hp : parseOrbit "orbit=x orbit=5" = 0) by (vm_compute; reflexivity).
  split; [exact Htok|]. split; [lia|]. split; [exact Hp|].
  intros [_ Hback]. specialize (Hback Htok). rewrite Hp in Hback. discriminate.
Qed.

(** * Properties of the rest of the program *)

(** ** Enqueue, and what becomes of a row *)

Section Facade.
Implicit Types (q : WorkQueue) (k : Z) (r : DbRow.t) (item : WorkItem).

Lemma set_db_same q : set_db (db q) q = q.
Proof. destruct q; reflexivity. Qed.

Lemma alter_absent (f : DbRow.t -> DbRow.t) (m : gmap Z DbRow.t) k :
  m !! k = None -> alter f k m = m.
Proof.
  intros Hk. apply map_eq. intros j. rewrite lookup_alter.
  destruct (decide (k = j)) as [->|]; [rewrite Hk|]; reflexivity.
Qed.

(** X1: a job enqueued on a queue with nothing waiting is the job the next
    [dequeue] returns, field for field, under the id [db_seq + 1]; a caller
    already blocked in [dequeue] is woken by that [enqueue] and gets it. *)
Theorem enqueue_then_dequeue item q :
  keys_issued q ->
  shutdown_requested q = false ->
  no_row_with pending q ->
  INT_MIN <= retry_count item <= INT_MAX ->
  exists q',
    dequeue [] (enqueue item q).2
    = Claimed (mkWorkItem (db_seq q + 1) (attachment_url item) (original_filename item)
                          (channel_id item) (user_id item) (username item)
                          (message_content item) (created_at item) (retry_count item)) q'
    /\ dequeue [act_enqueue item] q = dequeue [] (enqueue item q).2
    /\ db q' !! (db_seq q + 1) = Some (DbRow.set_status processing (row_of_item item))
    /\ no_row_with pending q'.
Proof.
  intros Hw Hs Hnp Hint.
  assert (Hsel : select_oldest pending (db (enqueue item q).2)
                 = Some (db_seq q + 1, row_of_item item)).
  { apply select_oldest_is; [apply enqueue_makes_pending | reflexivity |].
    intros k' r'. cbn [enqueue snd db]. rewrite lookup_insert.
    destruct (decide (db_seq q + 1 = k')) as [<-|Hne].
    - intros [= <-] _. right. split; [reflexivity | lia].
    - intros Hk' Hp'. destruct (Hnp _ _ Hk' Hp'). }
  eexists. split; [|split; [|split]].
  - rewrite dequeue_nil. unfold dequeue_attempt. rewrite Hsel.
    change (shutdown_requested (enqueue item q).2) with (shutdown_requested q).
    rewrite Hs. unfold item_of_row. cbn [row_of_item DbRow.attachment_url DbRow.original_filename
      DbRow.channel_id DbRow.user_id DbRow.username DbRow.message_content
      DbRow.created_at DbRow.retry_count].
    rewrite (sqlite3_column_int_id _ Hint). reflexivity.
  - rewrite dequeue_blocked by (apply dequeue_attempt_waiting; auto). reflexivity.
  - cbn [markProcessing snd set_db db enqueue].
    rewrite lookup_alter, decide_True, lookup_insert_eq by reflexivity. reflexivity.
  - intros k' r'. cbn [markProcessing snd set_db db enqueue].
    rewrite lookup_alter. destruct (decide (db_seq q + 1 = k')) as [<-|Hne].
    + rewrite lookup_insert_eq. intros [= <-]. discriminate.
    + rewrite lookup_insert_ne by assumption. apply Hnp.
Qed.

Lemma queue_step_seq q q' : queue_step q q' -> db_seq q <= db_seq q'.
Proof.
  intros Hstep. destruct Hstep; try (simpl; lia).
  - apply dequeue_returns in H as (served & rest & _ & Hd); [|discriminate].
    apply dequeue_attempt_claimed in Hd as (_ & r & _ & _ & _ & -> & _).
    cbn [set_db db_seq]. clear. revert q.
    induction served as [|a served IH]; intros q; [simpl; lia|].
    simpl. etransitivity; [|apply IH]. destruct a; simpl; try lia.
    unfold cancelCurrentJob. destruct (select_oldest _ _) as [[? ?]|]; simpl; lia.
  - unfold markFailed. destruct (db q !! k); [destruct (_ <=? _)|]; simpl; lia.
  - unfold cancelCurrentJob. destruct (select_oldest _ _) as [[? ?]|]; simpl; lia.
  - unfold markCurrentJobCancelled. destruct (0 <? _); simpl; lia.
Qed.

Lemma queue_steps_seq q q' : rtc queue_step q q' -> db_seq q <= db_seq q'.
Proof.
  induction 1 as [|q q1 q' Hstep _ IH]; [lia|].
  pose proof (queue_step_seq _ _ Hstep). lia.
Qed.

Lemma reachable_steps q q' : reachable q -> rtc queue_step q q' -> reachable q'.
Proof.
  intros Hq Hsteps. induction Hsteps as [|q q1 q' Hstep _ IH]; [exact Hq|].
  apply IH. exact (reach_step _ _ Hq Hstep).
Qed.

(** X2: [enqueue] never hands out an id twice.  Whatever happens to the
    queue after a row has been stored (its deletion included), the id a
    later [enqueue] assigns is larger; that [enqueue] stores its row under
    a key that was free and leaves every other row as it was. *)
Theorem enqueue_never_reuses_an_id q q' k r item :
  reachable q ->
  db q !! k = Some r ->
  rtc queue_step q q' ->
  k < db_seq q' + 1
  /\ db q' !! (db_seq q' + 1) = None
  /\ enqueue item q' = (true, NotifyOne, (enqueue item q').2)
  /\ db (enqueue item q').2 !! (db_seq q' + 1) = Some (row_of_item item)
  /\ (forall j, j <> db_seq q' + 1 -> db (enqueue item q').2 !! j = db q' !! j)
  /\ db_seq (enqueue item q').2 = db_seq q' + 1.
Proof.
  intros Hreach Hk Hsteps.
  destruct (reachable_invariant _ Hreach) as [[_ Hw] _].
  destruct (reachable_invariant _ (reachable_steps _ _ Hreach Hsteps)) as [[_ Hw'] _].
  pose proof (queue_steps_seq _ _ Hsteps) as Hseq. specialize (Hw _ _ Hk).
  split; [lia|]. split.
  - destruct (db q' !! (db_seq q' + 1)) as [r'|] eqn:E; [|reflexivity].
    specialize (Hw' _ _ E). lia.
  - split; [reflexivity|]. split; [apply enqueue_makes_pending|].
    split; [|reflexivity].
    intros j Hj. cbn [enqueue snd db]. apply lookup_insert_ne. congruence.
Qed.
End Facade.

Lemma keys_issued_check (q : WorkQueue) :
  bool_decide (0 <= db_seq q
               /\ map_Forall (fun k (_ : DbRow.t) => 0 < k <= db_seq q) (db q)) = true ->
  keys_issued q.
Proof.
  intros H. apply bool_decide_eq_true in H as [H0 Hall].
  split; [exact H0|]. intros k r Hk. exact (Hall k r Hk).
Qed.

Lemma enqueue_then_dequeue_witness :
  keys_issued empty_queue
  /\ shutdown_requested empty_queue = false
  /\ no_row_with pending empty_queue
  /\ INT_MIN <= retry_count job_x <= INT_MAX
  /\ exists q',
       dequeue [act_enqueue job_x] empty_queue
       = Claimed (mkWorkItem 1 "https://cdn.example/x" "x.vmax.zip" 11 21 "ann"
                             "render please" 1000 0) q'.
Proof.
  pose proof empty_queue_keys_issued as Hk.
  assert (Hs : shutdown_requested empty_queue = false) by reflexivity.
  assert (Hn : no_row_with pending empty_queue).
  { intros k r H. simpl in H. rewrite lookup_empty in H. discriminate. }
  assert (Hi : INT_MIN <= retry_count job_x <= INT_MAX) by (vm_compute; split; discriminate).
  destruct (enqueue_then_dequeue job_x empty_queue Hk Hs Hn Hi) as (q' & Hd & Hwake & _).
  repeat (split; [assumption|]).
  exists q'. rewrite Hwake. exact Hd.
Defined.

Lemma one_job_queue_reachable : reachable one_job_queue.
Proof.
  apply (reach_step empty_queue); [|apply step_enqueue].
  apply reach_start, empty_queue_keys_issued.
Qed.

Lemma enqueue_never_reuses_an_id_witness :
  reachable one_job_queue
  /\ db one_job_queue !! 1 = Some (row_of_item job_x)
  /\ rtc queue_step one_job_queue (markCurrentJobCancelled queue_x_rendering)
  /\ db (markCurrentJobCancelled queue_x_rendering) !! 1 = None
  /\ 1 < db_seq (markCurrentJobCancelled queue_x_rendering) + 1
  /\ db (enqueue job_y (markCurrentJobCancelled queue_x_rendering)).2 !! 2
     = Some (row_of_item job_y).
Proof.
  pose proof one_job_queue_reachable as Hr.
  assert (H1 : db one_job_queue !! 1 = Some (row_of_item job_x)) by (vm_compute; reflexivity).
  assert (Hsteps : rtc queue_step one_job_queue (markCurrentJobCancelled queue_x_rendering)).
  { eapply rtc_l; [apply (step_dequeue [] one_job_queue claimed_x queue_x_claimed);
                   vm_compute; reflexivity|].
    eapply rtc_l; [apply (step_setCurrentJobId queue_x_claimed 1
                            (DbRow.set_status processing (row_of_item job_x)));
                   vm_compute; reflexivity|].
    apply rtc_once, step_markCurrentJobCancelled. }
  destruct (enqueue_never_reuses_an_id _ _ 1 _ job_y Hr H1 Hsteps) as (Hlt & _ & _ & Hnew & _).
  split; [exact Hr|]. split; [exact H1|]. split; [exact Hsteps|].
  split; [vm_compute; reflexivity|]. split; [exact Hlt | exact Hnew].
Defined.

Section Rows.
Implicit Types (q : WorkQueue) (k : Z) (r : DbRow.t) (item : WorkItem).

(** A row that is not [pending] is not what [dequeue] returns, whatever
    the other threads do meanwhile. *)
Lemma settled_row_not_claimed env q k r item q2 :
  keys_issued q -> db q !! k = Some r -> DbRow.status r <> pending ->
  dequeue env q = Claimed item q2 -> id item <> k.
Proof.
  intros Hw Hk Hs Hd Heq.
  apply dequeue_returns in Hd as (served & rest & _ & Hd); [|discriminate].
  apply dequeue_attempt_claimed in Hd as (_ & r2 & Hk2 & Hp2 & _).
  destruct (perform_all_keeps_row served q _ _ Hw Hk) as [_ Hrow].
  rewrite Heq, Hrow in Hk2. congruence.
Qed.

(** The oldest row of a status does not depend on columns other than
    [status] and [created_at]. *)
Lemma select_oldest_alter (f : DbRow.t -> DbRow.t) s (m : gmap Z DbRow.t) k :
  (forall r, DbRow.status (f r) = DbRow.status r) ->
  (forall r, DbRow.created_at (f r) = DbRow.created_at r) ->
  select_oldest s (alter f k m)
  = (fun kr : Z * DbRow.t => (kr.1, if decide (k = kr.1) then f kr.2 else kr.2))
      <$> select_oldest s m.
Proof.
  intros Hst Hcr.
  assert (Hback : forall j r', alter f k m !! j = Some r' ->
            exists r0, m !! j = Some r0 /\ DbRow.status r0 = DbRow.status r'
                       /\ DbRow.created_at r0 = DbRow.created_at r').
  { intros j r'. rewrite lookup_alter. destruct (decide (k = j)) as [->|].
    - destruct (m !! j) as [r0|]; [|discriminate]. intros [= <-]. eauto.
    - eauto. }
  destruct (select_oldest s m) as [[j r]|] eqn:E; cbn [fmap option_fmap option_map fst snd].
  - apply select_oldest_Some in E as (Hj & Hs & Hmin).
    apply select_oldest_is.
    + rewrite lookup_alter. destruct (decide (k = j)) as [->|]; [rewrite Hj|]; auto.
    + destruct (decide (k = j)); [rewrite Hst|]; exact Hs.
    + intros k' r' Hk' Hs'. destruct (Hback _ _ Hk') as (r0 & Hk0 & Hs0 & Hc0).
      rewrite <- Hc0. replace (DbRow.created_at (if decide (k = j) then f r else r))
        with (DbRow.created_at r) by (destruct (decide (k = j)); [rewrite Hcr|]; reflexivity).
      apply Hmin; [exact Hk0 | congruence].
  - rewrite select_oldest_None in E. apply select_oldest_None.
    intros j r' Hj Hs. destruct (Hback _ _ Hj) as (r0 & Hk0 & Hs0 & _).
    apply (E _ _ Hk0). congruence.
Qed.

(** X4: [markBellaStarted] stamps the start time of the one row, is a
    no-op on an id without a row, and has no say in the order of the queue:
    [dequeue] returns the same job before and after it. *)
Theorem markBellaStarted_keeps_the_order now k q :
  (db q !! k = None -> (markBellaStarted now k q).2 = q)
  /\ (forall r, db q !! k = Some r ->
        db (markBellaStarted now k q).2 !! k = Some (DbRow.set_bella_start_time now r))
  /\ (forall j, j <> k -> db (markBellaStarted now k q).2 !! j = db q !! j)
  /\ dequeue [] (markBellaStarted now k q).2
     = match dequeue [] q with
       | Claimed item q' => Claimed item (markBellaStarted now k q').2
       | Closed => Closed
       | Waiting => Waiting
       end.
Proof.
  split; [|split; [|split]].
  - intros Hk. cbn [markBellaStarted snd]. rewrite alter_absent by exact Hk. apply set_db_same.
  - intros r Hk. cbn [markBellaStarted snd set_db db].
    rewrite lookup_alter, decide_True, Hk by reflexivity. reflexivity.
  - intros j Hj. cbn [markBellaStarted snd set_db db]. apply lookup_alter_ne. congruence.
  - rewrite !dequeue_nil. unfold dequeue_attempt.
    change (shutdown_requested (markBellaStarted now k q).2) with (shutdown_requested q).
    destruct (shutdown_requested q); [reflexivity|].
    cbn [markBellaStarted snd set_db db].
    rewrite (select_oldest_alter (DbRow.set_bella_start_time now)) by reflexivity.
    destruct (select_oldest pending (db q)) as [[j r]|]; [|reflexivity].
    cbn [fmap option_fmap option_map fst snd]. f_equal.
    + destruct (decide (k = j)); reflexivity.
    + unfold markProcessing, markBellaStarted, set_db.
      cbn [snd db db_seq shutdown_requested cancel_current_job current_job_id].
      f_equal. apply map_eq. intros i. rewrite !lookup_alter.
      destruct (decide (j = i)) as [->|]; destruct (decide (k = i)) as [->|];
        rewrite ?lookup_alter, ?decide_True, ?decide_False by congruence;
        try reflexivity; destruct (db q !! i); reflexivity.
Qed.

(** X5: [cancelCurrentJob] never touches the table: all it can do is raise
    the cancel flag.  Without a [processing] row it returns the empty
    string and changes nothing; with one it raises the flag and names the
    oldest [processing] row, the row whose owner [getCurrentJobOwnerId]
    reports. *)
Theorem cancelCurrentJob_only_raises_the_flag q :
  (db (cancelCurrentJob q).2 = db q
   /\ db_seq (cancelCurrentJob q).2 = db_seq q
   /\ shutdown_requested (cancelCurrentJob q).2 = shutdown_requested q
   /\ current_job_id (cancelCurrentJob q).2 = current_job_id q)
  /\ (no_row_with processing q ->
      cancelCurrentJob q = (EmptyString, q) /\ getCurrentJobOwnerId q = 0)
  /\ (forall k r,
        db q !! k = Some r -> DbRow.status r = processing ->
        cancel_current_job (cancelCurrentJob q).2 = true
        /\ exists k0 r0,
             db q !! k0 = Some r0 /\ DbRow.status r0 = processing
             /\ DbRow.created_at r0 <= DbRow.created_at r
             /\ (cancelCurrentJob q).1 = DbRow.original_filename r0
             /\ getCurrentJobOwnerId q = DbRow.user_id r0).
Proof.
  unfold cancelCurrentJob, getCurrentJobOwnerId.
  destruct (select_oldest processing (db q)) as [[k0 r0]|] eqn:E.
  - split; [repeat split|]. split.
    + intros Hnone. apply select_oldest_Some in E as (Hk0 & Hp0 & _).
      destruct (Hnone _ _ Hk0 Hp0).
    + intros k r Hk Hp. split; [reflexivity|].
      apply select_oldest_Some in E as (Hk0 & Hp0 & Hmin).
      exists k0, r0. repeat split; try assumption.
      destruct (Hmin _ _ Hk Hp); lia.
  - split; [repeat split|]. split; [auto|].
    intros k r Hk Hp. rewrite select_oldest_None in E. destruct (E _ _ Hk Hp).
Qed.
End Rows.

Lemma markBellaStarted_keeps_the_order_witness :
  db queue_x_claimed !! 7 = None
  /\ db queue_x_claimed !! 1 = Some (DbRow.set_status processing (row_of_item job_x))
  /\ (markBellaStarted 5100 7 queue_x_claimed).2 = queue_x_claimed
  /\ db (markBellaStarted 5100 1 queue_x_claimed).2 !! 1
     = Some (DbRow.set_bella_start_time 5100 (DbRow.set_status processing (row_of_item job_x)))
  /\ dequeue [] (markBellaStarted 5100 1 (enqueue job_y queue_x_claimed).2).2
     = Claimed claimed_y (markBellaStarted 5100 1 queue_xy_claimed).2.
Proof.
  assert (H7 : db queue_x_claimed !! 7 = None) by (vm_compute; reflexivity).
  assert (H1 : db queue_x_claimed !! 1 = Some (DbRow.set_status processing (row_of_item job_x)))
    by (vm_compute; reflexivity).
  destruct (markBellaStarted_keeps_the_order 5100 7 queue_x_claimed) as (Hnoop & _).
  destruct (markBellaStarted_keeps_the_order 5100 1 queue_x_claimed) as (_ & Hrow & _).
  destruct (markBellaStarted_keeps_the_order 5100 1 (enqueue job_y queue_x_claimed).2)
    as (_ & _ & _ & Hsame).
  split; [exact H7|]. split; [exact H1|]. split; [exact (Hnoop H7)|].
  split; [exact (Hrow _ H1)|].
  rewrite Hsame.
  replace (dequeue [] (enqueue job_y queue_x_claimed).2)
    with (Claimed claimed_y queue_xy_claimed) by (vm_compute; reflexivity).
  reflexivity.
Defined.

Lemma cancelCurrentJob_only_raises_the_flag_witness :
  no_row_with processing one_job_queue
  /\ cancelCurrentJob one_job_queue = (EmptyString, one_job_queue)
  /\ db queue_x_rendering !! 1 = Some (DbRow.set_status processing (row_of_item job_x))
  /\ cancel_current_job (cancelCurrentJob queue_x_rendering).2 = true
  /\ db (cancelCurrentJob queue_x_rendering).2 = db queue_x_rendering.
Proof.
  assert (Hn : no_row_with processing one_job_queue).
  { intros k r Hk. unfold one_job_queue in Hk. cbn [enqueue snd db empty_queue db_seq] in Hk.
    apply lookup_insert_Some in Hk as [[_ <-]|[_ Hk]]; [discriminate|].
    rewrite lookup_empty in Hk. discriminate. }
  assert (H1 : db queue_x_rendering !! 1 = Some (DbRow.set_status processing (row_of_item job_x)))
    by (vm_compute; reflexivity).
  destruct (cancelCurrentJob_only_raises_the_flag one_job_queue) as (_ & Hidle & _).
  destruct (cancelCurrentJob_only_raises_the_flag queue_x_rendering) as ((Hdb & _) & _ & Hbusy).
  split; [exact Hn|]. split; [exact (proj1 (Hidle Hn))|]. split; [exact H1|].
  split; [exact (proj1 (Hbusy _ _ H1 eq_refl)) | exact Hdb].
Defined.

(** ** Shutdown and restart *)

Lemma queue_step_shutdown q q' :
  queue_step q q' -> shutdown_requested q = true -> shutdown_requested q' = true.
Proof.
  intros Hstep Hs. destruct Hstep; try exact Hs; try reflexivity.
  - assert (Hc : dequeue env q = Closed)
      by (rewrite dequeue_unblocked; apply dequeue_attempt_closed in Hs; congruence).
    congruence.
  - unfold markFailed. destruct (db q !! k); [destruct (_ <=? _)|]; exact Hs.
  - unfold cancelCurrentJob. destruct (select_oldest _ _) as [[? ?]|]; exact Hs.
  - unfold markCurrentJobCancelled. destruct (0 <? _); exact Hs.
Qed.

(** X6: shutdown is final.  No method of the queue clears
    [shutdown_requested], so from [requestShutdown] on, whatever else
    happens to the queue, every call of [dequeue] returns false, whether
    jobs are pending or not. *)
Theorem shutdown_is_final (q q' : WorkQueue) (env : list Action) :
  rtc queue_step (requestShutdown q).2 q' ->
  (requestShutdown q).1 = NotifyAll
  /\ db (requestShutdown q).2 = db q
  /\ shutdown_requested q' = true
  /\ dequeue env q' = Closed.
Proof.
  intros Hsteps. split; [reflexivity|]. split; [reflexivity|].
  assert (Hs : shutdown_requested q' = true).
  { remember (requestShutdown q).2 as q1 eqn:Hq1.
    assert (H1 : shutdown_requested q1 = true) by (subst q1; reflexivity).
    clear Hq1. induction Hsteps as [|a b c Hstep _ IH]; [exact H1|].
    apply IH. exact (queue_step_shutdown _ _ Hstep H1). }
  split; [exact Hs|].
  apply dequeue_attempt_closed in Hs. rewrite dequeue_unblocked; congruence.
Qed.

Lemma shutdown_is_final_witness :
  rtc queue_step (requestShutdown empty_queue).2
      (enqueue job_x (requestShutdown empty_queue).2).2
  /\ dequeue [act_enqueue job_y] (enqueue job_x (requestShutdown empty_queue).2).2 = Closed.
Proof.
  assert (Hsteps : rtc queue_step (requestShutdown empty_queue).2
                       (enqueue job_x (requestShutdown empty_queue).2).2)
    by (apply rtc_once, step_enqueue).
  destruct (shutdown_is_final empty_queue _ [act_enqueue job_y] Hsteps) as (_ & _ & _ & Hc).
  split; [exact Hsteps | exact Hc].
Defined.

(** X7: a restart puts an orphaned job back in its place.  When the row
    caught in [processing] is older than every waiting and every other
    orphaned row, the first [dequeue] after [initialize] returns that job,
    with the [retry_count] it had, and the row is what it was before the
    restart. *)
Theorem restart_resumes_the_orphan (now : Z) (q : WorkQueue) (k : Z) (r : DbRow.t) :
  shutdown_requested q = false ->
  db q !! k = Some r ->
  DbRow.status r = processing ->
  DbRow.bella_end_time r = 0 ->
  (forall k' r',
      db q !! k' = Some r' ->
      DbRow.status r' = pending
      \/ (DbRow.status r' = processing /\ DbRow.bella_end_time r' = 0) ->
      DbRow.created_at r < DbRow.created_at r'
      \/ (DbRow.created_at r = DbRow.created_at r' /\ k <= k')) ->
  exists q',
    dequeue [] (initialize now q).2 = Claimed (item_of_row k r) q'
    /\ db q' !! k = Some r.
Proof.
  intros Hs Hk Hp He Hmin.
  assert (Hk' : db (initialize now q).2 !! k = Some (DbRow.set_status pending r)).
  { rewrite initialize_lookup, Hk.
    destruct (expired (now - retention_window) r) eqn:Hx.
    - apply expired_spec in Hx as [Hx _]. congruence.
    - unfold reset_processing. rewrite (proj2 (stuck_spec _)); auto. }
  assert (Hsel : select_oldest pending (db (initialize now q).2)
                 = Some (k, DbRow.set_status pending r)).
  { apply select_oldest_is; [exact Hk' | reflexivity |].
    intros k' r' Hl Hp'. rewrite initialize_lookup in Hl.
    destruct (db q !! k') as [r0|] eqn:Hk0; [|discriminate].
    destruct (expired _ r0); [discriminate|]. injection Hl as <-.
    change (DbRow.created_at (DbRow.set_status pending r)) with (DbRow.created_at r).
    unfold reset_processing in *. destruct (stuck r0) eqn:Hst.
    - apply stuck_spec in Hst. apply (Hmin _ _ Hk0). right. exact Hst.
    - apply (Hmin _ _ Hk0). left. exact Hp'. }
  eexists. split.
  - rewrite dequeue_nil. unfold dequeue_attempt. rewrite Hsel.
    change (shutdown_requested (initialize now q).2) with (shutdown_requested q).
    rewrite Hs. reflexivity.
  - cbn [markProcessing snd set_db db]. rewrite lookup_alter, decide_True by reflexivity.
    change (db (initialize now q).2 !! k) with (db (initialize now q).2 !! k).
    rewrite Hk'. cbn [fmap option_fmap option_map]. f_equal.
    destruct r; cbn in *. subst. reflexivity.
Qed.

Lemma restart_resumes_the_orphan_witness :
  shutdown_requested queue_after_crash = false
  /\ db queue_after_crash !! 2 = Some (DbRow.set_status processing (row_of_item job_y))
  /\ exists q',
       dequeue [] (initialize 200000 queue_after_crash).2
       = Claimed (item_of_row 2 (DbRow.set_status processing (row_of_item job_y))) q'
       /\ db q' !! 2 = Some (DbRow.set_status processing (row_of_item job_y)).
Proof.
  assert (Hs : shutdown_requested queue_after_crash = false) by reflexivity.
  assert (H2 : db queue_after_crash !! 2 = Some (DbRow.set_status processing (row_of_item job_y)))
    by (vm_compute; reflexivity).
  split; [exact Hs|]. split; [exact H2|].
  apply (restart_resumes_the_orphan 200000 queue_after_crash 2 _ Hs H2 eq_refl eq_refl).
  intros k' r' Hk' Hcase. unfold queue_after_crash, table_after_crash in Hk'. cbn [db] in Hk'.
  repeat (apply lookup_insert_Some in Hk' as [[<- <-]|[? Hk']]);
    [ | | | | rewrite lookup_empty in Hk'; discriminate].
  - destruct Hcase as [Hc|[Hc _]]; discriminate.
  - right. split; [reflexivity | lia].
  - destruct Hcase as [Hc|[Hc _]]; discriminate.
  - left. vm_compute. reflexivity.
Defined.

(** ** A failed job is retried first *)

Lemma sqlite3_column_int_range v : INT_MIN <= sqlite3_column_int v <= INT_MAX.
Proof.
  unfold INT_MIN, INT_MAX, sqlite3_column_int.
  pose proof (Z.mod_pos_bound (v + 2 ^ 31) (2 ^ 32)). lia.
Qed.

(** X24: a failed job keeps its place in the queue.  When the job that
    [dequeue] has just handed out fails with retries left, [markFailed]
    wakes one dequeuer and the next [dequeue] hands out the same job
    again, ahead of everything else that waits, with its [retry_count] one
    higher and every other field as before; with no retry left its row is
    deleted and nobody is woken. *)
Theorem failed_job_is_retried_first (max_retries : Z) q item q1 wake q2 :
  max_retries <= INT_MAX ->
  dequeue_attempt q = Claimed item q1 ->
  markFailed (id item) max_retries q1 = (true, wake, q2) ->
  (retry_count item < max_retries ->
   wake = NotifyOne
   /\ exists q3,
        dequeue_attempt q2
        = Claimed (mkWorkItem (id item) (attachment_url item) (original_filename item)
                              (channel_id item) (user_id item) (username item)
                              (message_content item) (created_at item)
                              (retry_count item + 1)) q3)
  /\ (max_retries <= retry_count item ->
      wake = NoWake /\ db q2 = delete (id item) (db q)).
Proof.
  intros Hmax Hd Hf.
  apply dequeue_attempt_claimed in Hd as (Hs & r & Hk & Hp & Hitem & -> & Hmin).
  assert (Hrc : retry_count item = sqlite3_column_int (DbRow.retry_count r))
    by (rewrite Hitem; reflexivity).
  unfold markFailed in Hf. cbn [set_db db] in Hf.
  rewrite lookup_insert_eq in Hf.
  change (DbRow.retry_count (DbRow.set_status processing r)) with (DbRow.retry_count r) in Hf.
  rewrite <- Hrc in Hf.
  destruct (Z.leb_spec max_retries (retry_count item)) as [Hle|Hlt].
  - injection Hf as <- <-. split; [lia|]. intros _. split; [reflexivity|].
    cbn [set_db db]. apply delete_insert_eq.
  - injection Hf as <- <-. split; [|lia]. intros _. split; [reflexivity|].
    cbn [set_db db db_seq shutdown_requested cancel_current_job current_job_id].
    set (r' := DbRow.set_status pending (DbRow.set_retry_count (retry_count item + 1)
                                           (DbRow.set_status processing r))).
    assert (Hdb : alter (fun r0 => DbRow.set_status pending
                                     (DbRow.set_retry_count (retry_count item + 1) r0))
                    (id item) (<[id item := DbRow.set_status processing r]> (db q))
                  = <[id item := r']> (db q)).
    { apply map_eq. intros j. destruct (decide (j = id item)) as [->|Hne].
      - rewrite lookup_alter_eq, !lookup_insert_eq. reflexivity.
      - rewrite lookup_alter_ne, !lookup_insert_ne by congruence. reflexivity. }
    rewrite Hdb. unfold dequeue_attempt. cbn [set_db shutdown_requested db]. rewrite Hs.
    rewrite (select_oldest_is pending _ (id item) r').
    + eexists. f_equal. unfold item_of_row, r'.
      cbn [DbRow.attachment_url DbRow.original_filename DbRow.channel_id DbRow.user_id
           DbRow.username DbRow.message_content DbRow.created_at DbRow.retry_count
           DbRow.set_status DbRow.set_retry_count].
      rewrite sqlite3_column_int_id
        by (pose proof (sqlite3_column_int_range (DbRow.retry_count r)); lia).
      f_equal; rewrite Hitem; reflexivity.
    + apply lookup_insert_eq.
    + reflexivity.
    + intros k' r0 Hk' Hp'.
      change (DbRow.created_at r') with (DbRow.created_at r).
      destruct (decide (k' = id item)) as [->|Hne].
      * rewrite lookup_insert_eq in Hk'. injection Hk' as <-. right. split; [reflexivity|lia].
      * rewrite lookup_insert_ne in Hk' by congruence. apply (Hmin _ _ Hk' Hp').
Qed.

Lemma failed_job_is_retried_first_witness :
  default_max_retries <= INT_MAX
  /\ dequeue_attempt one_job_queue = Claimed claimed_x queue_x_claimed
  /\ markFailed (id claimed_x) default_max_retries queue_x_claimed
     = (true, NotifyOne, queue_x_retrying)
  /\ retry_count claimed_x < default_max_retries
  /\ exists q3,
       dequeue_attempt queue_x_retrying
       = Claimed (mkWorkItem 1 "https://cdn.example/x" "x.vmax.zip" 11 21 "ann"
                             "render please" 1000 1) q3.
Proof.
  assert (Hmax : default_max_retries <= INT_MAX) by (vm_compute; discriminate).
  assert (Hd : dequeue_attempt one_job_queue = Claimed claimed_x queue_x_claimed)
    by (vm_compute; reflexivity).
  assert (Hf : markFailed (id claimed_x) default_max_retries queue_x_claimed
               = (true, NotifyOne, queue_x_retrying)) by (vm_compute; reflexivity).
  assert (Hlt : retry_count claimed_x < default_max_retries) by (vm_compute; reflexivity).
  destruct (failed_job_is_retried_first _ _ _ _ _ _ Hmax Hd Hf) as [Hretry _].
  destruct (Hretry Hlt) as (_ & q3 & Hq3).
  repeat (split; [assumption|]).
  exists q3. exact Hq3.
Defined.

(** ** What [/queue] and [/history] are shown *)

Section Display.
Implicit Types (q : WorkQueue) (m : gmap Z DbRow.t) (s : Status).

#[local] Instance created_before_transitive : Transitive created_before.
Proof.
  intros a b c. unfold created_before. rewrite !older_false. lia.
Qed.

#[local] Instance created_before_total : Total created_before.
Proof.
  intros a b. unfold created_before. rewrite !older_false. lia.
Qed.

Lemma rows_of_filter (P : Z * DbRow.t -> Prop) `{!forall kr, Decision (P kr)} m :
  filter P (map_to_list m) ≡ₚ map_to_list (filter P m).
Proof.
  apply NoDup_Permutation.
  - apply NoDup_filter, NoDup_map_to_list.
  - apply NoDup_map_to_list.
  - intros [k r]. rewrite list_elem_of_filter, !elem_of_map_to_list, map_lookup_filter_Some.
    tauto.
Qed.

Lemma select_ordered_rows s m :
  select_ordered s m
  ≡ₚ map_to_list (filter (fun kr : Z * DbRow.t => DbRow.status kr.2 = s) m).
Proof.
  unfold select_ordered. rewrite merge_sort_Permutation. apply rows_of_filter.
Qed.

Lemma select_ordered_length s q :
  List.length (select_ordered s (db q)) = count_status s q.
Proof.
  rewrite (Permutation_length (select_ordered_rows s (db q))).
  unfold count_status. apply length_map_to_list.
Qed.

Lemma elem_of_select_ordered s m k r :
  (k, r) ∈ select_ordered s m <-> m !! k = Some r /\ DbRow.status r = s.
Proof.
  rewrite select_ordered_rows, elem_of_map_to_list, map_lookup_filter_Some. reflexivity.
Qed.

(** X8: [getQueueDisplay] shows every [processing] and every [pending]
    row once, never a [completed] one; it is empty exactly when there is
    nothing in either state; a [processing] entry carries the row's start
    time and a [pending] entry carries 0. *)
Theorem getQueueDisplay_shows_work_in_hand q :
  (forall name user (is_processing : bool) start,
      (name, user, is_processing, start) ∈ getQueueDisplay q <->
      exists k r,
        db q !! k = Some r
        /\ name = DbRow.original_filename r /\ user = DbRow.username r
        /\ ((is_processing = true /\ DbRow.status r = processing
             /\ start = DbRow.bella_start_time r)
            \/ (is_processing = false /\ DbRow.status r = pending /\ start = 0)))
  /\ List.length (getQueueDisplay q)
     = (count_status processing q + count_status pending q)%nat
  /\ (getQueueDisplay q = [] <-> no_row_with processing q /\ no_row_with pending q).
Proof.
  assert (Hlen : List.length (getQueueDisplay q)
                 = (count_status processing q + count_status pending q)%nat).
  { unfold getQueueDisplay. rewrite length_app, !length_fmap, !select_ordered_length.
    reflexivity. }
  assert (Hmem : forall name user (is_processing : bool) start,
      (name, user, is_processing, start) ∈ getQueueDisplay q <->
      exists k r,
        db q !! k = Some r
        /\ name = DbRow.original_filename r /\ user = DbRow.username r
        /\ ((is_processing = true /\ DbRow.status r = processing
             /\ start = DbRow.bella_start_time r)
            \/ (is_processing = false /\ DbRow.status r = pending /\ start = 0))).
  { intros name user b start. unfold getQueueDisplay.
    rewrite elem_of_app, !list_elem_of_fmap. split.
    - intros [([k r] & Heq & Hin)|([k r] & Heq & Hin)];
        apply elem_of_select_ordered in Hin as [Hk Hs];
        injection Heq as -> -> -> ->; exists k, r; simpl; auto 10.
    - intros (k & r & Hk & -> & -> & [(-> & Hs & ->)|(-> & Hs & ->)]).
      + left. exists (k, r). split; [reflexivity|]. apply elem_of_select_ordered. auto.
      + right. exists (k, r). split; [reflexivity|]. apply elem_of_select_ordered. auto. }
  split; [exact Hmem|]. split; [exact Hlen|]. split.
  - intros Hnil. split; intros k r Hk Hs.
    + assert (Hin : (DbRow.original_filename r, DbRow.username r, true,
                     DbRow.bella_start_time r) ∈ getQueueDisplay q)
        by (apply Hmem; exists k, r; auto 10).
      rewrite Hnil in Hin. inversion Hin.
    + assert (Hin : (DbRow.original_filename r, DbRow.username r, false, 0)
                    ∈ getQueueDisplay q)
        by (apply Hmem; exists k, r; auto 10).
      rewrite Hnil in Hin. inversion Hin.
  - intros [Hnp Hnw]. destruct (getQueueDisplay q) as [|[[[name user] b] start] l] eqn:E;
      [reflexivity|].
    assert (Hin : (name, user, b, start) ∈ (name, user, b, start) :: l) by left.
    apply Hmem in Hin as (k & r & Hk & _ & _ & [(_ & Hs & _)|(_ & Hs & _)]).
    + destruct (Hnp _ _ Hk Hs).
    + destruct (Hnw _ _ Hk Hs).
Qed.

(** Waiting jobs in the order of the display. *)
Lemma select_ordered_waiting q :
  (fun kr : Z * DbRow.t => item_of_row kr.1 kr.2) <$> select_ordered pending (db q)
  ≡ₚ waiting_jobs q.
Proof. unfold waiting_jobs. rewrite select_ordered_rows. reflexivity. Qed.

Lemma StronglySorted_weaken {A} (R1 R2 : relation A) (l : list A) :
  (forall x y, R1 x y -> R2 x y) -> StronglySorted R1 l -> StronglySorted R2 l.
Proof.
  intros Himp. induction 1 as [|x l _ IH Hall]; constructor; [exact IH|].
  eapply Forall_impl; [exact Hall | auto].
Qed.

(** X9: the waiting jobs are displayed in the order in which [dequeue]
    will hand them out: after the [processing] entries, the display is the
    list of names and users of the jobs a worker draining the queue
    receives, one after the other. *)
Theorem getQueueDisplay_is_the_dequeue_order now q :
  shutdown_requested q = false ->
  take (count_status processing q) (getQueueDisplay q)
  = ((fun kr : Z * DbRow.t =>
        (DbRow.original_filename kr.2, DbRow.username kr.2, true,
         DbRow.bella_start_time kr.2)) <$> select_ordered processing (db q))
  /\ drop (count_status processing q) (getQueueDisplay q)
     = (fun item => (original_filename item, username item, false, 0))
         <$> drain now (count_status pending q) q.
Proof.
  intros Hs. unfold getQueueDisplay.
  rewrite <- (select_ordered_length processing q) at 1 2.
  rewrite <- (length_fmap (fun kr : Z * DbRow.t =>
                (DbRow.original_filename kr.2, DbRow.username kr.2, true,
                 DbRow.bella_start_time kr.2)) (select_ordered processing (db q))) at 1 2.
  rewrite take_app_length, drop_app_length. split; [reflexivity|].
  set (shown := (fun kr : Z * DbRow.t => item_of_row kr.1 kr.2)
                  <$> select_ordered pending (db q)).
  assert (Hshown : shown = drain now (count_status pending q) q).
  { destruct (drain_order now (count_status pending q) q Hs) as (_ & Hsorted & Hall).
    assert (Hperm : drain now (count_status pending q) q ≡ₚ waiting_jobs q).
    { apply Hall. unfold waiting_jobs, count_status.
      rewrite length_fmap, length_map_to_list. lia. }
    apply (StronglySorted_unique_strong
             (fun a b : WorkItem =>
                created_at a < created_at b
                \/ (created_at a = created_at b /\ id a <= id b))).
    - intros x1 x2 Hx1 Hx2 H12 H21.
      unfold shown in Hx1. rewrite select_ordered_waiting in Hx1. rewrite Hperm in Hx2.
      apply elem_of_waiting_jobs in Hx1 as (r1 & Hk1 & _ & Hi1).
      apply elem_of_waiting_jobs in Hx2 as (r2 & Hk2 & _ & Hi2).
      assert (Hid : id x1 = id x2) by lia.
      rewrite Hi1, Hi2. rewrite Hid in Hk1 |- *. congruence.
    - unfold shown. apply (StronglySorted_fmap _ created_before);
        [|apply (StronglySorted_merge_sort created_before)].
      intros [k1 r1] [k2 r2]. unfold created_before. rewrite older_false. simpl. lia.
    - eapply StronglySorted_weaken; [|exact Hsorted]. unfold precedes. intros x y. lia.
    - unfold shown. rewrite select_ordered_waiting, Hperm. reflexivity. }
  rewrite <- Hshown. unfold shown. rewrite <- list_fmap_compose. reflexivity.
Qed.
End Display.

Lemma getQueueDisplay_is_the_dequeue_order_witness :
  shutdown_requested queue_with_history = false
  /\ getQueueDisplay queue_with_history
     = [("x.vmax.zip", "ann", true, 700); ("y.vmax.zip", "ben", false, 0)]
  /\ drop (count_status processing queue_with_history) (getQueueDisplay queue_with_history)
     = (fun item => (original_filename item, username item, false, 0))
         <$> drain 800 (count_status pending queue_with_history) queue_with_history.
Proof.
  assert (Hs : shutdown_requested queue_with_history = false) by reflexivity.
  destruct (getQueueDisplay_is_the_dequeue_order 800 queue_with_history Hs) as [_ Hd].
  split; [exact Hs|]. split; [vm_compute; reflexivity | exact Hd].
Defined.

Section History.
Implicit Types (q : WorkQueue) (limit : Z).

#[local] Instance ended_after_trans : Transitive ended_after.
Proof.
  intros a b c. unfold ended_after, created_before. rewrite !older_false. lia.
Qed.

#[local] Instance ended_after_tot : Total ended_after.
Proof.
  intros a b. unfold ended_after, created_before. rewrite !older_false. lia.
Qed.

Lemma sql_limit_split {A} limit (l : list A) :
  exists rest, l = sql_limit limit l ++ rest
               /\ (rest <> [] -> 0 <= limit
                                 /\ List.length (sql_limit limit l) = Z.to_nat limit).
Proof.
  unfold sql_limit. destruct (Z.ltb_spec limit 0) as [Hneg|Hpos].
  - exists []. rewrite app_nil_r. split; [reflexivity | congruence].
  - exists (drop (Z.to_nat limit) l). split; [symmetry; apply take_drop|].
    intros Hrest. split; [exact Hpos|]. rewrite length_take.
    destruct (Nat.le_gt_cases (List.length l) (Z.to_nat limit)) as [Hle|Hgt]; [|lia].
    rewrite drop_ge in Hrest by exact Hle. congruence.
Qed.

(** X10: [getHistory] lists only [completed] rows with both times set,
    most recently ended first, at most [limit] of them when [limit] is not
    negative; and the ones it leaves out ended no later than any it
    shows. *)
Theorem getHistory_most_recent_first limit q :
  (forall e, e ∈ getHistory limit q ->
     exists k r, db q !! k = Some r /\ DbRow.status r = completed
                 /\ 0 < DbRow.bella_start_time r /\ 0 < DbRow.bella_end_time r
                 /\ e = history_entry (k, r))
  /\ (0 <= limit -> (List.length (getHistory limit q) <= Z.to_nat limit)%nat)
  /\ StronglySorted (fun a b : string * string * Z * Z * Z => a.1.2 >= b.1.2)
                    (getHistory limit q)
  /\ (forall k r,
        db q !! k = Some r -> DbRow.status r = completed ->
        0 < DbRow.bella_start_time r -> 0 < DbRow.bella_end_time r ->
        history_entry (k, r) ∈ getHistory limit q
        \/ (0 <= limit
            /\ List.length (getHistory limit q) = Z.to_nat limit
            /\ forall e, e ∈ getHistory limit q -> e.1.2 >= DbRow.bella_end_time r)).
Proof.
  unfold getHistory.
  set (rows := merge_sort ended_after (filter in_history (map_to_list (db q)))).
  assert (Hrows : forall k r, (k, r) ∈ rows <-> db q !! k = Some r /\ in_history (k, r)).
  { intros k r. unfold rows. rewrite merge_sort_Permutation, list_elem_of_filter,
      elem_of_map_to_list. tauto. }
  assert (Hsorted : StronglySorted ended_after rows)
    by apply (StronglySorted_merge_sort ended_after).
  destruct (sql_limit_split limit rows) as (rest & Hsplit & Hrest).
  set (shown := sql_limit limit rows) in *.
  assert (Hsub : forall kr, kr ∈ shown -> kr ∈ rows)
    by (intros kr Hin; rewrite Hsplit; apply elem_of_app; auto).
  split; [|split; [|split]].
  - intros e He. apply list_elem_of_fmap in He as ([k r] & -> & Hin).
    apply Hsub, Hrows in Hin as (Hk & Hs & Hst & Hen). exists k, r. auto 10.
  - intros Hpos. rewrite length_fmap. unfold shown, sql_limit.
    destruct (Z.ltb_spec limit 0); [lia|]. rewrite length_take. lia.
  - apply (StronglySorted_fmap _ ended_after).
    + intros x y. unfold ended_after, history_entry. simpl. lia.
    + rewrite Hsplit in Hsorted. exact (StronglySorted_app_1_l _ _ _ Hsorted).
  - intros k r Hk Hs Hst Hen.
    assert (Hin : (k, r) ∈ rows) by (apply Hrows; unfold in_history; auto).
    rewrite Hsplit in Hin. apply elem_of_app in Hin as [Hin|Hin].
    + left. apply list_elem_of_fmap. exists (k, r). auto.
    + right. destruct Hrest as [Hpos Hlen]; [intros ->; inversion Hin|].
      split; [exact Hpos|]. split; [rewrite length_fmap; exact Hlen|].
      intros e He. apply list_elem_of_fmap in He as (kr & -> & Hshown).
      rewrite Hsplit in Hsorted.
      pose proof (StronglySorted_app_1_elem_of _ _ _ _ _ Hsorted Hshown Hin) as Hord.
      unfold ended_after in Hord. unfold history_entry. simpl in *. lia.
Qed.

Lemma getHistory_most_recent_first_witness :
  0 <= 1
  /\ db queue_with_history !! 1 = Some (finished 100 160 job_x)
  /\ getHistory 10 queue_with_history
     = [("y.vmax.zip", "ben", 200, 500, 1010); ("x.vmax.zip", "ann", 100, 160, 1000)]
  /\ getHistory 1 queue_with_history = [("y.vmax.zip", "ben", 200, 500, 1010)]
  /\ (List.length (getHistory 1 queue_with_history) <= Z.to_nat 1)%nat
  /\ (history_entry (1, finished 100 160 job_x) ∈ getHistory 1 queue_with_history
      \/ (0 <= 1
          /\ List.length (getHistory 1 queue_with_history) = Z.to_nat 1
          /\ forall e, e ∈ getHistory 1 queue_with_history ->
                       e.1.2 >= DbRow.bella_end_time (finished 100 160 job_x))).
Proof.
  assert (H0 : 0 <= 1) by lia.
  assert (H1 : db queue_with_history !! 1 = Some (finished 100 160 job_x))
    by (vm_compute; reflexivity).
  destruct (getHistory_most_recent_first 1 queue_with_history) as (_ & Hlen & _ & Hleft).
  split; [exact H0|]. split; [exact H1|].
  split; [vm_compute; reflexivity|]. split; [vm_compute; reflexivity|].
  split; [exact (Hlen H0)|].
  apply (Hleft 1 _ H1); [reflexivity | simpl; lia | simpl; lia].
Defined.
End History.

(** ** File names *)

Section Names.
Implicit Types (s a b base name ext : string).

Lemma substring_all s : String.substring 0 (String.length s) s = s.
Proof.
  rewrite <- (string_app_nil_r s) at 2. apply substring_prefix.
Qed.

Lemma substring_suffix a b :
  String.substring (String.length a) (String.length b) (a +:+ b) = b.
Proof. rewrite substring_skip. apply substring_all. Qed.

Lemma substring_cut s n :
  (n <= String.length s)%nat ->
  s = String.substring 0 n s +:+ String.substring n (String.length s - n) s.
Proof.
  revert n. induction s as [|c s IH]; intros n Hn.
  - destruct n; [reflexivity | simpl in Hn; lia].
  - destruct n as [|n].
    + cbn [String.substring]. unfold_app.
      change (String.length (String c s) - 0)%nat with (S (String.length s)).
      cbn [String.substring]. rewrite substring_all. reflexivity.
    + cbn [String.substring String.length]. unfold_app.
      cbn [String.length] in Hn. rewrite Nat.sub_succ, <- IH by lia. reflexivity.
Qed.

Lemma tolower_substring n m s :
  transform_tolower (String.substring n m s) = String.substring n m (transform_tolower s).
Proof.
  revert n m. induction s as [|c s IH]; intros n m.
  - destruct n, m; reflexivity.
  - destruct n as [|n]; [destruct m as [|m]|]; cbn [String.substring transform_tolower];
      rewrite ?IH; reflexivity.
Qed.

Lemma ends_with_spec (suffix : string) s :
  ((String.length suffix <=? String.length s)%nat
   && String.eqb (substr s (String.length s - String.length suffix) (String.length suffix))
                 suffix)%bool = true
  <-> exists a, s = a +:+ suffix.
Proof.
  rewrite andb_true_iff, Nat.leb_le, String.eqb_eq. unfold substr. split.
  - intros [Hlen Heq].
    exists (String.substring 0 (String.length s - String.length suffix) s).
    pose proof (substring_cut s (String.length s - String.length suffix)) as Hcut.
    replace (String.length s - (String.length s - String.length suffix))%nat
      with (String.length suffix) in Hcut by lia.
    rewrite Heq in Hcut. apply Hcut. lia.
  - intros [a ->]. rewrite string_length_app. split; [lia|].
    replace (String.length a + String.length suffix - String.length suffix)%nat
      with (String.length a) by lia.
    apply substring_suffix.
Qed.

(** X11: an upload is taken for a VoxelMax archive exactly when its name
    ends in ".vmax.zip" in some spelling of upper and lower case. *)
Theorem is_vmax_zip_spec name :
  is_vmax_zip name = true
  <-> exists base ext, name = base +:+ ext /\ transform_tolower ext = ".vmax.zip".
Proof.
  unfold is_vmax_zip.
  change 9%nat with (String.length ".vmax.zip").
  rewrite (ends_with_spec ".vmax.zip" (transform_tolower name)). split.
  - intros [a Ha]. apply tolower_split in Ha as (base & ext & -> & _ & Hext). eauto.
  - intros (base & ext & -> & Hext). exists (transform_tolower base).
    rewrite tolower_app, Hext. reflexivity.
Qed.

(** X12: [processVmaxFile] derives the output name by cutting a final
    ".vmax.zip" off the file name: the cut undoes the appending, a name
    that does not end so is kept whole, and only names the upload handler
    accepts are ever cut.  The cut is case-sensitive where the handler is
    not. *)
Theorem strip_vmax_zip_round_trip :
  (forall base, strip_vmax_zip (base +:+ ".vmax.zip") = base)
  /\ (forall name,
        (exists base, name = base +:+ ".vmax.zip" /\ strip_vmax_zip name = base)
        \/ ((forall base, name <> base +:+ ".vmax.zip") /\ strip_vmax_zip name = name))
  /\ (forall name, strip_vmax_zip name <> name -> is_vmax_zip name = true).
Proof.
  assert (Hcut : forall base, strip_vmax_zip (base +:+ ".vmax.zip") = base).
  { intros base. unfold strip_vmax_zip.
    change 9%nat with (String.length ".vmax.zip").
    rewrite (proj2 (ends_with_spec ".vmax.zip" (base +:+ ".vmax.zip"))) by eauto.
    unfold substr. rewrite string_length_app.
    replace (String.length base + String.length ".vmax.zip" - String.length ".vmax.zip")%nat
      with (String.length base) by lia.
    apply substring_prefix. }
  assert (Hcases : forall name,
        (exists base, name = base +:+ ".vmax.zip" /\ strip_vmax_zip name = base)
        \/ ((forall base, name <> base +:+ ".vmax.zip") /\ strip_vmax_zip name = name)).
  { intros name.
    destruct ((String.length ".vmax.zip" <=? String.length name)%nat
              && String.eqb (substr name (String.length name - String.length ".vmax.zip")
                                    (String.length ".vmax.zip")) ".vmax.zip")%bool eqn:E.
    - apply ends_with_spec in E as [base ->]. left. exists base. auto.
    - right. split.
      + intros base Hb. rewrite (proj2 (ends_with_spec ".vmax.zip" name)) in E by eauto.
        discriminate.
      + unfold strip_vmax_zip. change 9%nat with (String.length ".vmax.zip").
        rewrite E. reflexivity. }
  split; [exact Hcut|]. split; [exact Hcases|].
  intros name Hne. destruct (Hcases name) as [(base & -> & _)|[_ Hsame]]; [|contradiction].
  unfold is_vmax_zip. change 9%nat with (String.length ".vmax.zip").
  apply ends_with_spec. exists (transform_tolower base).
  rewrite tolower_app. reflexivity.
Qed.

Lemma strip_vmax_zip_round_trip_witness :
  strip_vmax_zip "castle.vmax.zip" <> "castle.vmax.zip"
  /\ is_vmax_zip "castle.vmax.zip" = true
  /\ strip_vmax_zip "castle.vmax.zip" = "castle"
  /\ is_vmax_zip "Castle.VMAX.ZIP" = true
  /\ strip_vmax_zip "Castle.VMAX.ZIP" = "Castle.VMAX.ZIP".
Proof.
  destruct strip_vmax_zip_round_trip as (Hcut & _ & Haccepted).
  assert (Hne : strip_vmax_zip "castle.vmax.zip" <> "castle.vmax.zip")
    by (vm_compute; discriminate).
  split; [exact Hne|]. split; [exact (Haccepted _ Hne)|].
  split; [exact (Hcut "castle")|]. split; vm_compute; reflexivity.
Defined.

Lemma is_mp4_orbit base : is_mp4 (base +:+ "_orbit.mp4") = true.
Proof.
  unfold is_mp4. change 4%nat with (String.length ".mp4").
  apply ends_with_spec. exists (base +:+ "_orbit").
  rewrite string_app_assoc. reflexivity.
Qed.

Lemma is_mp4_jpg base : is_mp4 (base +:+ ".jpg") = false.
Proof.
  destruct (is_mp4 (base +:+ ".jpg")) eqn:E; [|reflexivity].
  unfold is_mp4 in E. change 4%nat with (String.length ".mp4") in E.
  apply ends_with_spec in E as [a Ha].
  assert (Hlen : String.length a = String.length base).
  { apply (f_equal String.length) in Ha. rewrite !string_length_app in Ha. simpl in Ha. lia. }
  exfalso. revert a Ha Hlen.
  induction base as [|c base IH]; intros a Ha Hlen.
  - destruct a; simpl in Hlen; unfold_app; discriminate.
  - destruct a as [|d a]; simpl in Hlen; [discriminate|]. unfold_app. injection Ha as _ Ha.
    apply (IH a Ha). lia.
Qed.
End Names.

(** ** The handlers *)

Section Handlers.
Implicit Types (q : WorkQueue) (msg : Upload) (clock : nat -> Z).

Lemma enqueue_uploads_spec msg clock i (l : list Attachment) q :
  keys_issued q ->
  keys_issued (enqueue_uploads msg clock i l q)
  /\ db_seq (enqueue_uploads msg clock i l q) = db_seq q + Z.of_nat (List.length l)
  /\ (forall j a, l !! j = Some a ->
        db (enqueue_uploads msg clock i l q) !! (db_seq q + 1 + Z.of_nat j)
        = Some (row_of_item (upload_item msg (clock (i + j)%nat) a)))
  /\ (forall k r, db q !! k = Some r -> db (enqueue_uploads msg clock i l q) !! k = Some r)
  /\ (forall k r, db (enqueue_uploads msg clock i l q) !! k = Some r ->
        k <= db_seq q -> db q !! k = Some r).
Proof.
  revert i q. induction l as [|a l IH]; intros i q Hw.
  - cbn [enqueue_uploads List.length]. split; [exact Hw|]. split; [lia|].
    split; [intros j a Hj; discriminate|]. split; auto.
  - cbn [enqueue_uploads].
    set (q1 := (enqueue (upload_item msg (clock i) a) q).2).
    assert (Hw1 : keys_issued q1) by apply enqueue_keys_issued, Hw.
    destruct (IH (S i) q1 Hw1) as (Hw' & Hseq & Hnew & Hold & Hback).
    assert (Hseq1 : db_seq q1 = db_seq q + 1) by reflexivity.
    split; [exact Hw'|]. split; [rewrite Hseq, Hseq1; cbn [List.length]; lia|].
    split; [|split].
    + intros j b Hj. destruct j as [|j].
      * injection Hj as <-. rewrite Nat.add_0_r, Z.add_0_r. apply Hold.
        apply enqueue_makes_pending.
      * cbn in Hj. specialize (Hnew _ _ Hj). rewrite Hseq1 in Hnew.
        replace (i + S j)%nat with (S i + j)%nat by lia.
        replace (db_seq q + 1 + Z.of_nat (S j)) with (db_seq q + 1 + 1 + Z.of_nat j) by lia.
        exact Hnew.
    + intros k r Hk. apply Hold.
      exact (perform_keeps_row (act_enqueue (upload_item msg (clock i) a)) q k r Hw Hk).
    + intros k r Hk Hle. apply Hback in Hk; [|rewrite Hseq1; lia].
      unfold q1 in Hk. cbn [enqueue snd db] in Hk.
      rewrite lookup_insert_ne in Hk by lia. exact Hk.
Qed.



(** X14: [/remove] checks the requester against the owner of the job that
    is [processing] when it asks and cancels the job that is [processing]
    when it acts.  A requester who is neither on the admin list nor that
    owner is refused and nothing changes.  Otherwise the handler leaves the
    rows, the id counter, the current job id and the shutdown flag as it
    finds them at the second call; when the reply names a job, that job is
    the oldest [processing] one then, the cancel flag is up, and the
    requester was an admin or the owner at the first call.  When nothing
    happens in between, the requester is an admin or the owner of the job
    named; when the worker acknowledges an earlier cancellation of that job
    and takes the next job in between, the requester cancels the job of
    another user. *)
Theorem on_remove_needs_authority (requesting_user_id : Z)
    (meanwhile : WorkQueue -> WorkQueue) q :
  (requesting_user_id ∉ ADMIN_USER_IDS ->
   getCurrentJobOwnerId q <> requesting_user_id ->
   on_remove requesting_user_id meanwhile q = (access_denied, q))
  /\ ((on_remove requesting_user_id meanwhile q).1 <> access_denied ->
      db (on_remove requesting_user_id meanwhile q).2 = db (meanwhile q)
      /\ db_seq (on_remove requesting_user_id meanwhile q).2 = db_seq (meanwhile q)
      /\ current_job_id (on_remove requesting_user_id meanwhile q).2
         = current_job_id (meanwhile q)
      /\ shutdown_requested (on_remove requesting_user_id meanwhile q).2
         = shutdown_requested (meanwhile q))
  /\ (forall name,
        (on_remove requesting_user_id meanwhile q).1 = cancelling name ->
        cancel_current_job (on_remove requesting_user_id meanwhile q).2 = true
        /\ (requesting_user_id ∈ ADMIN_USER_IDS
            \/ getCurrentJobOwnerId q = requesting_user_id)
        /\ exists k r,
             db (meanwhile q) !! k = Some r /\ DbRow.status r = processing
             /\ name = DbRow.original_filename r
             /\ getCurrentJobOwnerId (meanwhile q) = DbRow.user_id r)
  /\ (forall name,
        meanwhile q = q ->
        (on_remove requesting_user_id meanwhile q).1 = cancelling name ->
        exists k r,
          db q !! k = Some r /\ DbRow.status r = processing
          /\ name = DbRow.original_filename r
          /\ (requesting_user_id ∈ ADMIN_USER_IDS
              \/ DbRow.user_id r = requesting_user_id))
  /\ (no_row_with processing (meanwhile q) ->
      forall name, (on_remove requesting_user_id meanwhile q).1 <> cancelling name)
  /\ (reachable queue_x_cancelling_y_waiting
      /\ rtc queue_step queue_x_cancelling_y_waiting
                        (worker_moves_on queue_x_cancelling_y_waiting)
      /\ (user_id job_x ∉ ADMIN_USER_IDS)
      /\ getCurrentJobOwnerId queue_x_cancelling_y_waiting = user_id job_x
      /\ (on_remove (user_id job_x) worker_moves_on queue_x_cancelling_y_waiting).1
         = cancelling (original_filename job_y)
      /\ getCurrentJobOwnerId (worker_moves_on queue_x_cancelling_y_waiting) = user_id job_y
      /\ user_id job_y <> user_id job_x).
Proof.
  assert (Hnamed : forall name q0,
            (let '(cancelled_filename, q') := cancelCurrentJob q0 in
             if negb (String.eqb cancelled_filename EmptyString)
             then (cancelling cancelled_filename, q')
             else (no_job_processing, q')).1 = cancelling name ->
            cancel_current_job (cancelCurrentJob q0).2 = true
            /\ exists k r,
                 db q0 !! k = Some r /\ DbRow.status r = processing
                 /\ name = DbRow.original_filename r
                 /\ getCurrentJobOwnerId q0 = DbRow.user_id r).
  { intros name q0. unfold cancelCurrentJob, getCurrentJobOwnerId.
    destruct (select_oldest processing (db q0)) as [[k0 r0]|] eqn:E; [|discriminate].
    apply select_oldest_Some in E as (Hk0 & Hp0 & _).
    destruct (negb (String.eqb _ _)); [|discriminate].
    cbn [fst snd cancel_current_job]. intros [= <-]. split; [reflexivity|].
    exists k0, r0. auto. }
  assert (Hauth : forall name,
            (on_remove requesting_user_id meanwhile q).1 = cancelling name ->
            (requesting_user_id ∈ ADMIN_USER_IDS
             \/ getCurrentJobOwnerId q = requesting_user_id)
            /\ (let '(cancelled_filename, q') := cancelCurrentJob (meanwhile q) in
                if negb (String.eqb cancelled_filename EmptyString)
                then (cancelling cancelled_filename, q')
                else (no_job_processing, q'))
               = on_remove requesting_user_id meanwhile q).
  { intros name. unfold on_remove.
    destruct (negb _ && negb _) eqn:Hdeny; [discriminate|]. intros _. split; [|reflexivity].
    apply andb_false_iff in Hdeny as [Ha|Ho].
    - left. apply negb_false_iff, bool_decide_eq_true in Ha. exact Ha.
    - right. apply negb_false_iff, Z.eqb_eq in Ho. exact Ho. }
  split; [|split; [|split; [|split; [|split]]]].
  - intros Hadmin Howner. unfold on_remove.
    rewrite bool_decide_eq_false_2 by exact Hadmin.
    destruct (Z.eqb_spec (getCurrentJobOwnerId q) requesting_user_id); [contradiction|].
    reflexivity.
  - unfold on_remove. destruct (negb _ && negb _); [intros H; destruct H; reflexivity|].
    intros _. unfold cancelCurrentJob.
    destruct (select_oldest processing (db (meanwhile q))) as [[k0 r0]|];
      destruct (negb (String.eqb _ _)); repeat split.
  - intros name H. destruct (Hauth name H) as [Hwho Heq].
    rewrite <- Heq in H. destruct (Hnamed name _ H) as [Hflag Hrow].
    split; [|split; [exact Hwho | exact Hrow]].
    rewrite <- Heq. destruct (cancelCurrentJob (meanwhile q)) as [n q'] eqn:E.
    cbn [snd] in Hflag. destruct (negb (String.eqb n EmptyString)); exact Hflag.
  - intros name Hsame H. destruct (Hauth name H) as [Hwho Heq].
    rewrite <- Heq in H. destruct (Hnamed name _ H) as (_ & k & r & Hk & Hp & Hn & Ho).
    rewrite Hsame in Hk, Ho. exists k, r. repeat split; try assumption.
    destruct Hwho as [Ha|Hu]; [left; exact Ha | right; congruence].
  - intros Hnone name H. destruct (Hauth name H) as [_ Heq].
    rewrite <- Heq in H. destruct (Hnamed name _ H) as (_ & k & r & Hk & Hp & _).
    exact (Hnone k r Hk Hp).
  - split.
    { apply (reach_step (setCurrentJobId 1 (markProcessing 1 (enqueue job_y one_job_queue).2).2));
        [|apply step_cancelCurrentJob].
      apply (reach_step (markProcessing 1 (enqueue job_y one_job_queue).2).2);
        [|apply (step_setCurrentJobId _ 1 (DbRow.set_status processing (row_of_item job_x)));
          vm_compute; reflexivity].
      apply (reach_step (enqueue job_y one_job_queue).2);
        [|apply (step_dequeue [] _ claimed_x); vm_compute; reflexivity].
      apply (reach_step one_job_queue); [|apply step_enqueue].
      apply (reach_step empty_queue); [|apply step_enqueue].
      apply reach_start, empty_queue_keys_issued. }
    split.
    { eapply rtc_l; [apply step_markCurrentJobCancelled|].
      eapply rtc_l;
        [apply (step_dequeue [] _ claimed_y
                  (markProcessing 2
                     (markCurrentJobCancelled queue_x_cancelling_y_waiting)).2);
         vm_compute; reflexivity|].
      apply rtc_once.
      replace (worker_moves_on queue_x_cancelling_y_waiting)
        with (setCurrentJobId 2
                (markProcessing 2
                   (markCurrentJobCancelled queue_x_cancelling_y_waiting)).2)
        by (vm_compute; reflexivity).
      apply (step_setCurrentJobId _ 2 (DbRow.set_status processing (row_of_item job_y))).
      vm_compute. reflexivity. }
    split; [unfold ADMIN_USER_IDS; rewrite list_elem_of_singleton; discriminate|].
    repeat split; try (vm_compute; reflexivity). discriminate.
Qed.

Lemma on_remove_needs_authority_witness :
  (99 ∉ ADMIN_USER_IDS)
  /\ getCurrentJobOwnerId queue_with_history <> 99
  /\ on_remove 99 (fun q => q) queue_with_history = (access_denied, queue_with_history)
  /\ (on_remove 21 (fun q => q) queue_with_history).1 = cancelling "x.vmax.zip"
  /\ cancel_current_job (on_remove 21 (fun q => q) queue_with_history).2 = true
  /\ exists k r,
       db queue_with_history !! k = Some r /\ DbRow.status r = processing
       /\ "x.vmax.zip"%string = DbRow.original_filename r
       /\ (21 ∈ ADMIN_USER_IDS \/ DbRow.user_id r = 21).
Proof.
  assert (Hadmin : 99 ∉ ADMIN_USER_IDS)
    by (unfold ADMIN_USER_IDS; rewrite list_elem_of_singleton; discriminate).
  assert (Howner : getCurrentJobOwnerId queue_with_history <> 99)
    by (vm_compute; discriminate).
  assert (Hreply : (on_remove 21 (fun q => q) queue_with_history).1 = cancelling "x.vmax.zip")
    by (vm_compute; reflexivity).
  destruct (on_remove_needs_authority 99 (fun q => q) queue_with_history) as (Hdenied & _).
  destruct (on_remove_needs_authority 21 (fun q => q) queue_with_history)
    as (_ & _ & Hnamed & Hquiet & _).
  split; [exact Hadmin|]. split; [exact Howner|].
  split; [exact (Hdenied Hadmin Howner)|]. split; [exact Hreply|].
  split; [exact (proj1 (Hnamed _ Hreply)) | exact (Hquiet _ eq_refl Hreply)].
Defined.
End Handlers.

(** * The rendering pipeline and the worker *)

Section Pipeline.

(** ** Stages that leave queue and files alone *)
Lemma steady_ret {A} (a : A) : steady (ret a).
Proof. intros w. simpl. auto. Qed.
Lemma steady_bind {A B} (m : Stage A) (k : A -> Stage B) :
  steady m -> (forall a, steady (k a)) -> steady (bind m k).
Proof.
  intros Hm Hk w. unfold bind. specialize (Hm w).
  destruct (m w) as [[a|r|] w1]; [|exact Hm|exact I].
  specialize (Hk a w1). destruct (k a w1) as [[b|r|] w2]; [|exact Hk|exact I].
  destruct Hm as [Hq Hf], Hk as [Hq' Hf']. split; congruence.
Qed.
Lemma steady_return_empty {A} : steady (@return_ A EmptyString).
Proof. intros w. reflexivity. Qed.
Lemma steady_throw {A} : steady (@throw A).
Proof. intros w. exact I. Qed.
Lemma steady_when (b : bool) (m : Stage unit) : steady m -> steady (when b m).
Proof. intros Hm. destruct b; [exact Hm | apply steady_ret]. Qed.
Lemma steady_for_each n i (body : nat -> Stage unit) :
  (forall j, steady (body j)) -> steady (for_each n i body).
Proof.
  intros Hb. revert i. induction n as [|n IH]; intros i; [apply steady_ret|].
  cbn [for_each]. apply steady_bind; [apply Hb | intros _; apply IH].
Qed.
Lemma cancel_point_false run w w' :
  cancel_point run w = (Next false, w') -> queue w' = queue w /\ files w' = files w.
Proof.
  unfold cancel_point. intros H. injection H as Hflag <-. cbn [queue files]. split; [|reflexivity].
  destruct (bool_decide _); [|reflexivity].
  unfold cancelCurrentJob in *. destruct (select_oldest processing (db (queue w))) as [[k r]|];
    [discriminate | reflexivity].
Qed.
Lemma steady_cancel_check run : steady (cancel_check run).
Proof.
  intros w. unfold cancel_check, bind.
  destruct (cancel_point run w) as [[c|r|] w1] eqn:E;
    try (unfold cancel_point in E; discriminate).
  destruct c.
  - unfold acknowledge, on_queue, return_. reflexivity.
  - cbn [ret]. exact (cancel_point_false _ _ _ E).
Qed.
Lemma steady_bind_success {A B} (m : Stage A) (k : A -> Stage B) w r w' :
  steady m ->
  bind m k w = (Return r, w') -> r <> EmptyString ->
  exists a w1, queue w1 = queue w /\ files w1 = files w /\ k a w1 = (Return r, w').
Proof.
  intros Hm H Hr. unfold bind in H. specialize (Hm w).
  destruct (m w) as [[a|r0|] w1].
  - destruct Hm as [Hq Hf]. exists a, w1. auto.
  - injection H as -> ->. contradiction.
  - discriminate.
Qed.
Lemma wait_render_spec run n w :
  exists (b : bool) w1,
    wait_render run n w = (Next b, w1)
    /\ files w1 = files w
    /\ (b = false -> queue w1 = queue w).
Proof.
  revert w. induction n as [|n IH]; intros w.
  - exists false, w. repeat split.
  - cbn [wait_render]. unfold bind.
    destruct (cancel_point run w) as [[c|r|] w1] eqn:E;
      try (unfold cancel_point in E; discriminate).
    destruct c.
    + exists true, w1. split; [reflexivity|]. split; [|discriminate].
      unfold cancel_point in E. injection E as _ <-. reflexivity.
    + destruct (cancel_point_false _ _ _ E) as [Hq Hf].
      destruct (IH w1) as (b & w2 & Hw & Hf2 & Hq2).
      exists b, w2. split; [exact Hw|]. split; [congruence|].
      intros Hb. rewrite (Hq2 Hb). exact Hq.
Qed.

(** ** Stages that pass when nobody cancels *)
Lemma passes_bind (m : Stage unit) (k : unit -> Stage unit) :
  passes m -> (forall a, passes (k a)) -> passes (bind m k).
Proof.
  intros Hm Hk w Hflag. destruct (Hm w Hflag) as [c Hc].
  unfold bind. rewrite Hc.
  destruct (Hk tt (mkWorld (queue w) (files w) c (calls w)) Hflag) as [c' Hc'].
  exists c'. exact Hc'.
Qed.
Lemma passes_ret : passes (ret tt).
Proof. intros w _. exists (checkpoints w). destruct w; reflexivity. Qed.
Lemma passes_for_each n i (body : nat -> Stage unit) :
  (forall j, passes (body j)) -> passes (for_each n i body).
Proof.
  intros Hb. revert i. induction n as [|n IH]; intros i; [apply passes_ret|].
  cbn [for_each]. apply passes_bind; [apply Hb | intros _; apply IH].
Qed.
Lemma passes_cancel_check run :
  cancel_request_at run = None -> passes (cancel_check run).
Proof.
  intros Hnone w Hflag. exists (S (checkpoints w)).
  unfold cancel_check, bind, cancel_point. rewrite Hnone.
  rewrite bool_decide_eq_false_2 by discriminate.
  unfold shouldCancelCurrentJob. rewrite Hflag. reflexivity.
Qed.
Lemma wait_render_passes run n w :
  cancel_request_at run = None -> cancel_current_job (queue w) = false ->
  exists c, wait_render run n w = (Next false, mkWorld (queue w) (files w) c (calls w)).
Proof.
  intros Hnone. revert w. induction n as [|n IH]; intros w Hflag.
  - exists (checkpoints w). destruct w; reflexivity.
  - cbn [wait_render]. unfold bind, cancel_point. rewrite Hnone.
    rewrite bool_decide_eq_false_2 by discriminate.
    unfold shouldCancelCurrentJob. rewrite Hflag.
    destruct (IH (mkWorld (queue w) (files w) (S (checkpoints w)) (calls w)) Hflag) as [c Hc].
    exists c. exact Hc.
Qed.
Lemma model_loop_throws run n i k w :
  cancel_request_at run = None -> cancel_current_job (queue w) = false ->
  model_error run = Some k -> (i <= k < i + n)%nat ->
  exists c,
    for_each n i (fun j => cancel_check run >>
                           when (bool_decide (model_error run = Some j)) throw) w
    = (Throw, mkWorld (queue w) (files w) c (calls w)).
Proof.
  intros Hnone Hflag Herr. revert i w Hflag.
  induction n as [|n IH]; intros i w Hflag Hk; [lia|].
  cbn [for_each]. unfold bind at 1.
  destruct (passes_cancel_check run Hnone w Hflag) as [c Hc].
  unfold bind at 1. rewrite Hc.
  destruct (decide (i = k)) as [->|Hne].
  - rewrite bool_decide_eq_true_2 by exact Herr. cbn [when throw]. exists c. reflexivity.
  - rewrite bool_decide_eq_false_2 by congruence. cbn [when ret].
    apply (IH (S i) (mkWorld (queue w) (files w) c (calls w)) Hflag). lia.
Qed.

(** ** What a run leaves on disk *)
Lemma cleaned_spec item_id fs p :
  p ∈ cleaned item_id fs
  <-> p ∈ fs /\ p <> work_dir item_id /\ p <> temp_vmax_filename item_id
      /\ p <> temp_extract_dir item_id.
Proof.
  unfold cleaned, staged.
  rewrite !list_elem_of_filter, elem_of_cons, list_elem_of_filter, !elem_of_cons.
  split.
  - intros (Ht & Hw & He & [Hp | [_ [Hp | [Hp | Hp]]]]); try contradiction. auto.
  - intros (Hp & Hw & Ht & He). auto 10.
Qed.
Lemma append_nonempty (a b : string) : b <> EmptyString -> a +:+ b <> EmptyString.
Proof.
  intros Hb H. apply (f_equal String.length) in H.
  rewrite string_length_app in H. destruct b; [contradiction|]. simpl in H. lia.
Qed.
Lemma processVmaxFile_uneventful run name message item_id w :
  uneventful run message -> cancel_current_job (queue w) = false ->
  exists c,
    processVmaxFile run name message item_id w
    = (Return (strip_vmax_zip name
               +:+ (if 0 <? parseOrbit message then "_orbit.mp4" else ".jpg")),
       mkWorld (markBellaStarted (bella_started_at run) item_id (queue w)).2
               (cleaned item_id (files w)) c
               (calls w ++ [call_markBellaStarted item_id])).
Proof.
  intros (Hunzip & Hstaging & Hfound & Hjson & Herr & Hnone & Hffmpeg) Hflag.
  unfold processVmaxFile.
  unfold bind at 1. cbn [create].
  rewrite Hunzip. cbn [Z.eqb negb].
  do 3 (unfold bind at 1; cbn [create remove]).
  unfold bind at 1. rewrite Hstaging. cbn [when ret].
  unfold bind at 1. cbn [remove].
  rewrite Hfound, Hjson. cbn [negb when].
  cbn [queue files checkpoints calls].
  fold (staged item_id (files w)).
  unfold try_catch.
  unfold bind at 1. cbn [ret].
  set (w5 := mkWorld (queue w) (staged item_id (files w)) (checkpoints w) (calls w)).
  assert (Hcheck : forall j : nat, passes (cancel_check run))
    by (intros _; apply passes_cancel_check, Hnone).
  assert (Hflag5 : cancel_current_job (queue w5) = false) by exact Hflag.
  unfold bind at 1.
  destruct (passes_for_each (unique_models run) 0
              (fun k => cancel_check run >>
                        when (bool_decide (model_error run = Some k)) throw)) with (w := w5)
    as [c1 ->]; [|exact Hflag5|].
  { intros j. apply passes_bind; [apply Hcheck; exact j|]. intros _.
    rewrite Herr. rewrite bool_decide_eq_false_2 by discriminate. apply passes_ret. }
  unfold bind at 1.
  destruct (passes_for_each (unique_models run) 0 (fun _ => cancel_check run) Hcheck
              (mkWorld (queue w5) (files w5) c1 (calls w5)) Hflag5) as [c2 ->].
  cbn [queue files calls].
  unfold bind at 1.
  destruct (passes_for_each (instances run) 0 (fun _ => cancel_check run) Hcheck
              (mkWorld (queue w5) (files w5) c2 (calls w5)) Hflag5) as [c3 ->].
  cbn [queue files calls].
  unfold bind at 1. cbn [on_queue queue files checkpoints calls w5].
  set (w9 := mkWorld _ _ c3 _).
  assert (Hflag9 : cancel_current_job (queue w9) = false) by exact Hflag.
  destruct (Z.ltb_spec 0 (parseOrbit message)) as [Horbit|Horbit].
  - unfold bind at 1.
    destruct (passes_for_each (Z.to_nat (parseOrbit message)) 0
                (fun i => cancel_check run >>
                          for_each (render_polls run i) 0 (fun _ => cancel_check run)))
      with (w := w9) as [c4 ->]; [|exact Hflag9|].
    { intros j. apply passes_bind; [apply Hcheck; exact j|]. intros _.
      apply passes_for_each, Hcheck. }
    rewrite (Hffmpeg Horbit). cbn [Z.eqb].
    exists c4. reflexivity.
  - unfold bind at 1.
    destruct (wait_render_passes run (render_polls run 0) w9 Hnone Hflag9) as [c4 ->].
    exists c4. reflexivity.
Qed.

(** ** processVmaxFile *)

(** X15: whenever [processVmaxFile] returns a file name, every step before
    it went well (the archive was unpacked, the staging did not throw, a
    [.vmax] directory and [scene.json] were found); the name is the upload's
    name without [.vmax.zip] followed by [.jpg] when the message asks for no
    orbit, and by [_orbit.mp4], which the worker sends as a video, when it
    asks for 1 to 300 frames and [ffmpeg] succeeded; the queue has seen
    [markBellaStarted] for this job and nothing else; and the work
    directory, the temporary archive and the extraction directory of the
    job are gone. *)
Theorem processVmaxFile_output_means_cleanup run name message item_id w r w' :
  processVmaxFile run name message item_id w = (Return r, w') ->
  r <> EmptyString ->
  (unzip_result run = 0 /\ staging_throws run = false
   /\ found_vmax_dir run = true /\ scene_json_exists run = true)
  /\ ((parseOrbit message = 0 /\ r = strip_vmax_zip name +:+ ".jpg" /\ is_mp4 r = false)
      \/ (1 <= parseOrbit message <= 300 /\ ffmpeg_result run = 0
          /\ r = strip_vmax_zip name +:+ "_orbit.mp4" /\ is_mp4 r = true))
  /\ queue w' = (markBellaStarted (bella_started_at run) item_id (queue w)).2
  /\ file_exists (work_dir item_id) w' = false
  /\ file_exists (temp_vmax_filename item_id) w' = false
  /\ file_exists (temp_extract_dir item_id) w' = false.
Proof.
  intros H Hr. unfold processVmaxFile in H.
  unfold bind at 1 in H. cbn [create] in H.
  destruct (Z.eqb_spec (unzip_result run) 0) as [Hunzip|]; cbn [negb] in H;
    [|destruct (unzip_left_files run); injection H as <- _; contradiction].
  do 3 (unfold bind at 1 in H; cbn [create remove] in H).
  unfold bind at 1 in H.
  destruct (staging_throws run) eqn:Hstaging; cbn [when throw ret] in H; [discriminate|].
  unfold bind at 1 in H. cbn [remove] in H.
  destruct (found_vmax_dir run) eqn:Hfound; cbn [negb] in H;
    [|injection H as <- _; contradiction].
  unfold try_catch in H.
  match type of H with
  | match ?body ?w0 with _ => _ end = _ =>
      set (w5 := w0) in *; destruct (body w5) as [[[]|r0|] w6] eqn:Hbody
  end; [discriminate| |injection H as <- _; contradiction].
  injection H as -> ->.
  assert (Hq5 : queue w5 = queue w) by reflexivity.
  assert (Hf5 : forall p, p ∈ files w5 -> p <> temp_extract_dir item_id).
  { intros p Hp. unfold w5 in Hp. cbn [files] in Hp.
    apply list_elem_of_filter in Hp as [Hp _]. exact Hp. }
  clearbody w5.
  destruct (scene_json_exists run) eqn:Hjson; cbn [negb when] in Hbody;
    [|injection Hbody as <- _; contradiction].
  unfold bind at 1 in Hbody. cbn [ret] in Hbody.
  assert (Hloop : forall n (body : nat -> Stage unit),
             (forall j, steady (body j)) -> steady (for_each n 0 body))
    by (intros; apply steady_for_each; assumption).
  apply steady_bind_success in Hbody as ([] & w6 & Hq6 & Hf6 & Hbody); [| |exact Hr].
  2:{ apply Hloop. intros j. apply steady_bind; [apply steady_cancel_check|].
      intros _. apply steady_when, steady_throw. }
  apply steady_bind_success in Hbody as ([] & w7 & Hq7 & Hf7 & Hbody); [| |exact Hr].
  2:{ apply Hloop. intros j. apply steady_cancel_check. }
  apply steady_bind_success in Hbody as ([] & w8 & Hq8 & Hf8 & Hbody); [| |exact Hr].
  2:{ apply Hloop. intros j. apply steady_cancel_check. }
  unfold bind at 1 in Hbody. cbn [on_queue] in Hbody.
  match type of Hbody with
  | _ ?w0 = _ => set (w9 := w0) in *
  end.
  assert (Hq9 : queue w9 = (markBellaStarted (bella_started_at run) item_id (queue w)).2).
  { unfold w9. cbn [queue]. congruence. }
  assert (Hf9 : files w9 = files w5) by (unfold w9; cbn [files]; congruence).
  clearbody w9. clear dependent w6. clear dependent w7. clear dependent w8.
  assert (Hdone : forall (base : string) w10 w11,
             queue w10 = queue w9 -> files w10 = files w9 ->
             (remove (work_dir item_id) >>
              remove (temp_vmax_filename item_id) >>
              @return_ unit base) w10 = (Return r, w11) ->
             r = base
             /\ queue w11 = (markBellaStarted (bella_started_at run) item_id (queue w)).2
             /\ file_exists (work_dir item_id) w11 = false
             /\ file_exists (temp_vmax_filename item_id) w11 = false
             /\ file_exists (temp_extract_dir item_id) w11 = false).
  { intros base w10 w11 Hq10 Hf10 Hrun.
    unfold bind, remove, return_ in Hrun. cbn [queue files] in Hrun.
    injection Hrun as <- <-. split; [reflexivity|].
    cbn [queue]. split; [congruence|].
    unfold file_exists. cbn [files]. rewrite Hf10, Hf9.
    repeat split; apply bool_decide_eq_false; intros Hin;
      apply list_elem_of_filter in Hin as [Hne Hin].
    - apply list_elem_of_filter in Hin as [Hne' _]. contradiction.
    - contradiction.
    - apply list_elem_of_filter in Hin as [_ Hin]. exact (Hf5 _ Hin eq_refl). }
  split; [auto|].
  destruct (Z.ltb_spec 0 (parseOrbit message)) as [Horbit|Horbit].
  - apply steady_bind_success in Hbody as ([] & w10 & Hq10 & Hf10 & Hbody); [| |exact Hr].
    2:{ apply Hloop. intros j. apply steady_bind; [apply steady_cancel_check|].
        intros _. apply Hloop. intros _. apply steady_cancel_check. }
    destruct (Z.eqb_spec (ffmpeg_result run) 0) as [Hffmpeg|];
      [|injection Hbody as <- _; contradiction].
    destruct (Hdone _ _ _ Hq10 Hf10 Hbody) as (-> & Hrest).
    split; [|exact Hrest]. right.
    split; [destruct (parseOrbit_range message); lia|].
    split; [exact Hffmpeg|]. split; [reflexivity | apply is_mp4_orbit].
  - unfold bind at 1 in Hbody.
    destruct (wait_render_spec run (render_polls run 0) w9) as (b & w10 & Hwait & Hf10 & Hq10).
    rewrite Hwait in Hbody. destruct b.
    + unfold bind, acknowledge, on_queue, return_ in Hbody.
      injection Hbody as <- _. contradiction.
    + destruct (Hdone _ _ _ (Hq10 eq_refl) Hf10 Hbody) as (-> & Hrest).
      split; [|exact Hrest]. left.
      split; [destruct (parseOrbit_range message); lia|].
      split; [reflexivity | apply is_mp4_jpg].
Qed.

Lemma processVmaxFile_output_means_cleanup_witness :
  processVmaxFile run_ok "x.vmax.zip" "render please" 1 world_x_claimed
  = (Return "x.jpg",
     (processVmaxFile run_ok "x.vmax.zip" "render please" 1 world_x_claimed).2)
  /\ "x.jpg" <> EmptyString
  /\ is_mp4 "x.jpg" = false
  /\ file_exists (work_dir 1)
       (processVmaxFile run_ok "x.vmax.zip" "render please" 1 world_x_claimed).2 = false.
Proof.
  assert (H : processVmaxFile run_ok "x.vmax.zip" "render please" 1 world_x_claimed
              = (Return "x.jpg",
                 (processVmaxFile run_ok "x.vmax.zip" "render please" 1 world_x_claimed).2))
    by (vm_compute; reflexivity).
  assert (Hne : "x.jpg" <> EmptyString) by discriminate.
  destruct (processVmaxFile_output_means_cleanup _ _ _ _ _ _ _ H Hne)
    as (_ & _ & _ & Hwork & _).
  split; [exact H|]. split; [exact Hne|]. split; [vm_compute; reflexivity | exact Hwork].
Defined.

Lemma processVmaxFile_throw_iff run name message item_id w :
  (processVmaxFile run name message item_id w).1 = Throw
  <-> unzip_result run = 0 /\ staging_throws run = true.
Proof.
  unfold processVmaxFile.
  unfold bind at 1. cbn [create].
  destruct (Z.eqb_spec (unzip_result run) 0) as [Hunzip|Hunzip]; cbn [negb].
  2:{ split; [destruct (unzip_left_files run); discriminate | intros [? _]; contradiction]. }
  do 3 (unfold bind at 1; cbn [create remove]).
  unfold bind at 1.
  destruct (staging_throws run); cbn [when throw ret].
  { split; auto. }
  unfold bind at 1. cbn [remove].
  split; [|intros [_ ?]; discriminate].
  destruct (found_vmax_dir run); cbn [negb]; [|discriminate].
  unfold try_catch.
  match goal with
  | |- (match ?body ?w0 with _ => _ end).1 = _ -> _ => destruct (body w0) as [[[]|r0|] w6]
  end; discriminate.
Qed.

Lemma processVmaxFile_throw_frame run name message item_id w w' :
  processVmaxFile run name message item_id w = (Throw, w') ->
  queue w' = queue w /\ calls w' = calls w.
Proof.
  intros H.
  assert (Hthrow : (processVmaxFile run name message item_id w).1 = Throw)
    by (rewrite H; reflexivity).
  apply processVmaxFile_throw_iff in Hthrow as [Hunzip Hstaging].
  revert H. unfold processVmaxFile.
  unfold bind at 1. cbn [create].
  rewrite Hunzip. cbn [Z.eqb negb].
  do 3 (unfold bind at 1; cbn [create remove]).
  unfold bind at 1. rewrite Hstaging. cbn [when throw].
  intros [= <-]. split; reflexivity.
Qed.

(** X16: of the two exceptions a run can raise, the filesystem error of
    the staging step before the [try] block and the failure to load a model
    inside it, only the first leaves [processVmaxFile]: the result is an
    exception in flight exactly when the archive was unpacked and the
    staging throws.  The queue is as it was then, and no method of it has
    been called. *)
Theorem processVmaxFile_lets_only_staging_errors_out run name message item_id w :
  ((processVmaxFile run name message item_id w).1 = Throw
   <-> unzip_result run = 0 /\ staging_throws run = true)
  /\ forall w', processVmaxFile run name message item_id w = (Throw, w') ->
               queue w' = queue w /\ calls w' = calls w.
Proof.
  split; [apply processVmaxFile_throw_iff|].
  intros w'. apply processVmaxFile_throw_frame.
Qed.

(** X17: when loading a model throws and nobody cancels, the [catch] block
    cleans up: [processVmaxFile] returns the empty string, the work
    directory, the temporary archive and the extraction directory of the job
    are gone, the job-scoped paths of other jobs are as they were, and the
    queue is untouched. *)
Theorem processVmaxFile_catches_model_errors run name message item_id w k :
  unzip_result run = 0 -> staging_throws run = false ->
  found_vmax_dir run = true -> scene_json_exists run = true ->
  model_error run = Some k -> (k < unique_models run)%nat ->
  cancel_request_at run = None -> cancel_current_job (queue w) = false ->
  exists w',
    processVmaxFile run name message item_id w = (Return EmptyString, w')
    /\ queue w' = queue w
    /\ calls w' = calls w
    /\ forall p, p ∈ files w'
         <-> p ∈ files w /\ p <> work_dir item_id /\ p <> temp_vmax_filename item_id
             /\ p <> temp_extract_dir item_id.
Proof.
  intros Hunzip Hstaging Hfound Hjson Herr Hk Hnone Hflag.
  unfold processVmaxFile.
  unfold bind at 1. cbn [create].
  rewrite Hunzip. cbn [Z.eqb negb].
  do 3 (unfold bind at 1; cbn [create remove]).
  unfold bind at 1. rewrite Hstaging. cbn [when ret].
  unfold bind at 1. cbn [remove].
  rewrite Hfound, Hjson. cbn [negb when].
  cbn [queue files checkpoints calls].
  fold (staged item_id (files w)).
  unfold try_catch.
  unfold bind at 1. cbn [ret].
  set (w5 := mkWorld (queue w) (staged item_id (files w)) (checkpoints w) (calls w)).
  unfold bind at 1.
  destruct (model_loop_throws run (unique_models run) 0 k w5 Hnone Hflag Herr) as [c ->];
    [lia|].
  unfold bind, remove, return_. cbn [queue files checkpoints calls w5].
  eexists. split; [reflexivity|]. cbn [queue files calls].
  split; [reflexivity|]. split; [reflexivity|].
  intros p. apply cleaned_spec.
Qed.

Lemma processVmaxFile_catches_model_errors_witness :
  exists w',
    processVmaxFile run_model_throws "x.vmax.zip" "render please" 1 world_x_claimed
    = (Return EmptyString, w')
    /\ queue w' = queue world_x_claimed
    /\ calls w' = calls world_x_claimed.
Proof.
  destruct (processVmaxFile_catches_model_errors run_model_throws "x.vmax.zip"
              "render please" 1 world_x_claimed 0)
    as (w' & H & Hq & Hc & _);
    [reflexivity | reflexivity | reflexivity | reflexivity | reflexivity
    | simpl; lia | reflexivity | reflexivity |].
  exists w'. auto.
Defined.

(** X25: when [unzip] fails, [processVmaxFile] returns the empty string
    having removed the temporary archive and nothing else: the extraction
    directory is there afterwards if [unzip] wrote into it or if it was
    there before, the work directory is as it was, and the queue is
    untouched. *)
Theorem failed_unzip_leaves_what_it_wrote run name message item_id w :
  unzip_result run <> 0 ->
  exists w',
    processVmaxFile run name message item_id w = (Return EmptyString, w')
    /\ queue w' = queue w
    /\ calls w' = calls w
    /\ file_exists (temp_vmax_filename item_id) w' = false
    /\ file_exists (temp_extract_dir item_id) w'
       = (unzip_left_files run || file_exists (temp_extract_dir item_id) w)%bool
    /\ file_exists (work_dir item_id) w' = file_exists (work_dir item_id) w.
Proof.
  intros Hunzip. unfold processVmaxFile.
  unfold bind at 1. cbn [create].
  destruct (Z.eqb_spec (unzip_result run) 0) as [|_]; [contradiction|]. cbn [negb].
  assert (Hext : forall (P Q : Prop) `{Decision P} `{Decision Q},
             (P <-> Q) -> bool_decide P = bool_decide Q)
    by (intros; apply bool_decide_ext; assumption).
  destruct (unzip_left_files run); cbn [when orb];
    unfold bind, create, remove, return_, ret; cbn [queue files checkpoints calls];
    eexists; (split; [reflexivity|]); cbn [queue calls];
    (split; [reflexivity|]); (split; [reflexivity|]); unfold file_exists; cbn [files].
  - split; [apply bool_decide_eq_false; rewrite list_elem_of_filter; tauto|].
    split.
    + apply bool_decide_eq_true. rewrite list_elem_of_filter, elem_of_cons.
      split; [discriminate | left; reflexivity].
    + apply Hext. rewrite list_elem_of_filter, !elem_of_cons.
      split; [intros [_ [H|[H|H]]]; [discriminate|discriminate|exact H]|].
      intros H. split; [discriminate|auto].
  - split; [apply bool_decide_eq_false; rewrite list_elem_of_filter; tauto|].
    split; apply Hext; rewrite list_elem_of_filter, elem_of_cons.
    + split; [intros [_ [H|H]]; [discriminate|exact H]|].
      intros H. split; [discriminate|auto].
    + split; [intros [_ [H|H]]; [discriminate|exact H]|].
      intros H. split; [discriminate|auto].
Qed.

Lemma failed_unzip_leaves_what_it_wrote_witness :
  unzip_result run_unzip_fails <> 0
  /\ exists w',
       processVmaxFile run_unzip_fails "x.vmax.zip" "render please" 1 world_x_claimed
       = (Return EmptyString, w')
       /\ file_exists (temp_vmax_filename 1) w' = false
       /\ file_exists (temp_extract_dir 1) w' = true.
Proof.
  assert (Hfail : unzip_result run_unzip_fails <> 0) by discriminate.
  destruct (failed_unzip_leaves_what_it_wrote run_unzip_fails "x.vmax.zip" "render please" 1
              world_x_claimed Hfail) as (w' & Hrun & _ & _ & Htemp & Hdir & _).
  split; [exact Hfail|]. exists w'. split; [exact Hrun|]. split; [exact Htemp|].
  rewrite Hdir. reflexivity.
Defined.


(** ** workerThread *)

(** X19: a job for which nothing goes wrong and which nobody cancels ends
    [completed]: the worker is back in its loop, the job's row carries the
    start time of the render, the time of completion and the status
    [completed] and is otherwise as it was, every other row is untouched,
    the job's three paths are gone and those of other jobs are as they
    were, and the queue methods were called
    in the order [setCurrentJobId], [markBellaStarted], [markCompleted],
    the last one after the reply was sent. *)
Theorem worker_completes_uneventful_job run item w row n :
  uneventful (pipeline run) (message_content item) ->
  response_status run = 200 -> cancel_during_download run = false ->
  cancel_current_job (queue w) = false ->
  output_size run = Some (S n) -> send_error run = false ->
  db (queue w) !! id item = Some row ->
  exists w',
    worker_iteration run item w = Running w'
    /\ db (queue w')
       = <[id item := DbRow.set_bella_end_time (completed_at run)
                        (DbRow.set_status completed
                           (DbRow.set_bella_start_time (bella_started_at (pipeline run)) row))]>
           (db (queue w))
    /\ cancel_current_job (queue w') = false
    /\ (forall p, p ∈ files w'
          <-> p ∈ files w /\ p <> work_dir (id item) /\ p <> temp_vmax_filename (id item)
              /\ p <> temp_extract_dir (id item))
    /\ calls w' = calls w ++ [call_setCurrentJobId (id item);
                              call_markBellaStarted (id item);
                              call_message_create (channel_id item);
                              call_markCompleted (id item)].
Proof.
  intros Hrun Hstatus Hdl Hflag Hsize Hsend Hrow.
  unfold worker_iteration. rewrite Hdl, Hstatus. cbn [Z.eqb].
  set (w1 := with_queue (setCurrentJobId (id item)) _ w).
  assert (Hflag1 : cancel_current_job (queue w1) = false) by exact Hflag.
  unfold shouldCancelCurrentJob at 1. rewrite Hflag1.
  destruct (processVmaxFile_uneventful (pipeline run) (original_filename item)
              (message_content item) (id item) w1 Hrun Hflag1) as [c ->].
  unfold shouldCancelCurrentJob. cbn [queue].
  change (cancel_current_job (markBellaStarted _ _ (queue w1)).2) with (cancel_current_job (queue w)).
  rewrite Hflag. cbn [orb].
  rewrite (proj2 (String.eqb_neq _ _)).
  2:{ apply append_nonempty. destruct (0 <? _); discriminate. }
  rewrite Hsize, Hsend. cbn [negb Nat.eqb andb].
  eexists. split; [reflexivity|].
  unfold with_queue. cbn [queue files calls].
  split; [|split; [exact Hflag|split; [intros p; apply cleaned_spec|]]].
  - unfold markCompleted, markBellaStarted, set_db. cbn [snd db w1 with_queue queue setCurrentJobId].
    apply map_eq. intros j. destruct (decide (j = id item)) as [->|Hne].
    + rewrite lookup_insert_eq, !lookup_alter_eq, Hrow. reflexivity.
    + rewrite lookup_insert_ne, !lookup_alter_ne by congruence. reflexivity.
  - unfold w1, with_queue. cbn [calls]. rewrite <- !app_assoc. reflexivity.
Qed.

Lemma worker_completes_uneventful_job_witness :
  exists w',
    worker_iteration (delivered run_ok) claimed_x (mkWorld queue_x_claimed [] 0 []) = Running w'
    /\ db (queue w') !! 1
       = Some (DbRow.set_bella_end_time 5200
                 (DbRow.set_status completed
                    (DbRow.set_bella_start_time 5100
                       (DbRow.set_status processing (row_of_item job_x)))))
    /\ files w' = [].
Proof.
  destruct (worker_completes_uneventful_job (delivered run_ok) claimed_x
              (mkWorld queue_x_claimed [] 0 [])
              (DbRow.set_status processing (row_of_item job_x)) 4095)
    as (w' & H & Hdb & _ & Hfiles & _).
  - repeat split; try reflexivity; intros H; vm_compute in H; discriminate.
  - reflexivity.
  - reflexivity.
  - reflexivity.
  - reflexivity.
  - reflexivity.
  - vm_compute. reflexivity.
  - exists w'. split; [exact H|]. split.
    + rewrite Hdb. apply lookup_insert_eq.
    + destruct (files w') as [|p fs] eqn:E; [reflexivity|].
      assert (Hp : p ∈ p :: fs) by apply list_elem_of_here.
      apply Hfiles in Hp as [Hp _]. inversion Hp.
Defined.

(** X20: one turn of the worker's loop, which has no [try] block of its
    own, lets an exception of the pipeline out, and so ends the thread,
    exactly when the download succeeded, no cancellation was pending before
    the pipeline started, the archive was unpacked and the staging of its
    files throws; the turn never leaves the loop in any other way.  The
    table is then as the worker found it, the job's row still
    [processing]. *)
Theorem worker_dies_only_in_staging run item w :
  ((exists w', worker_iteration run item w = Terminated w')
   <-> response_status run = 200
       /\ shouldCancelCurrentJob
            (if cancel_during_download run then (cancelCurrentJob (queue w)).2 else queue w)
          = false
       /\ unzip_result (pipeline run) = 0
       /\ staging_throws (pipeline run) = true)
  /\ (forall w', worker_iteration run item w <> ShutDown w')
  /\ (forall w', worker_iteration run item w = Terminated w' ->
                db (queue w') = db (queue w)).
Proof.
  unfold worker_iteration.
  set (w0 := if cancel_during_download run
             then with_queue (fun q => (cancelCurrentJob q).2) [] w else w).
  assert (Hq0 : queue w0
                = if cancel_during_download run then (cancelCurrentJob (queue w)).2
                  else queue w)
    by (unfold w0; destruct (cancel_during_download run); reflexivity).
  assert (Hdb0 : db (queue w0) = db (queue w)).
  { rewrite Hq0. destruct (cancel_during_download run); [|reflexivity].
    unfold cancelCurrentJob. destruct (select_oldest _ _) as [[k r]|]; reflexivity. }
  rewrite <- Hq0. clearbody w0.
  destruct (Z.eqb_spec (response_status run) 200) as [Hstatus|Hstatus].
  2:{ split; [|split]; try discriminate.
      split; [intros [w' H]; discriminate | intros [? _]; contradiction]. }
  set (w1 := with_queue (setCurrentJobId (id item)) _ w0).
  change (shouldCancelCurrentJob (queue w1)) with (shouldCancelCurrentJob (queue w0)).
  destruct (shouldCancelCurrentJob (queue w0)) eqn:Hflag.
  { split; [|split]; try discriminate.
    split; [intros [w' H]; discriminate | intros (_ & ? & _); discriminate]. }
  pose proof (processVmaxFile_throw_iff (pipeline run) (original_filename item)
                (message_content item) (id item) w1) as Hiff.
  pose proof (processVmaxFile_throw_frame (pipeline run) (original_filename item)
                (message_content item) (id item) w1) as Hframe.
  destruct (processVmaxFile _ _ _ _ w1) as [[[]|r|] w2] eqn:Hrun; cbn [fst] in Hiff.
  - split; [|split]; try discriminate.
    split; [intros [w' H]; discriminate|].
    intros (_ & _ & H). apply Hiff in H. discriminate.
  - assert (Hno : forall o,
               (if shouldCancelCurrentJob (queue w2) || String.eqb r EmptyString
                then if shouldCancelCurrentJob (queue w2)
                     then Running (with_queue markCurrentJobCancelled
                                     [call_markCurrentJobCancelled] w2)
                     else Running w2
                else
                  let file_data_empty :=
                    match output_size run with
                    | Some n => (n =? 0)%nat
                    | None => true
                    end in
                  let send_success := negb (send_error run) in
                  let w' := with_queue (fun q => q) [call_message_create (channel_id item)] w2 in
                  if send_success && negb file_data_empty
                  then Running (with_queue
                                  (fun q => (markCompleted (completed_at run) (id item) q).2)
                                  [call_markCompleted (id item)] w')
                  else Running (with_queue
                                  (fun q => (markFailed (id item) default_max_retries q).2)
                                  [call_markFailed (id item)] w')) = o ->
               exists w', o = Running w').
    { intros o <-. cbn zeta.
      destruct (shouldCancelCurrentJob (queue w2)); cbn [orb]; [eauto|].
      destruct (String.eqb r EmptyString); [eauto|].
      destruct (_ && _); eauto. }
    split; [|split].
    + split.
      * intros [w' H]. apply Hno in H as [? H]. discriminate.
      * intros (_ & _ & H). apply Hiff in H. discriminate.
    + intros w' H. apply Hno in H as [? H]. discriminate.
    + intros w' H. apply Hno in H as [? H]. discriminate.
  - split; [|split]; try discriminate.
    + split; [intros _|eauto]. split; [exact Hstatus|]. split; [reflexivity|].
      apply Hiff. reflexivity.
    + intros w' [= <-]. destruct (Hframe w2 eq_refl) as [Hq _]. rewrite Hq.
      exact Hdb0.
Qed.

End Pipeline.

(** * What a job may touch *)

Section Keeps.
Context (R : World -> World -> Prop).
Context (R_refl : forall w, R w w).
Context (R_trans : forall a b c, R a b -> R b c -> R a c).

Lemma keeps_ret {A} (a : A) : keeps R (ret a).
Proof. intros w. apply R_refl. Qed.

Lemma keeps_return {A} r : keeps R (@return_ A r).
Proof. intros w. apply R_refl. Qed.

Lemma keeps_throw {A} : keeps R (@throw A).
Proof. intros w. apply R_refl. Qed.

Lemma keeps_bind {A B} (m : Stage A) (k : A -> Stage B) :
  keeps R m -> (forall a, keeps R (k a)) -> keeps R (bind m k).
Proof.
  intros Hm Hk w. unfold bind. specialize (Hm w).
  destruct (m w) as [[a|r|] w1]; try exact Hm.
  exact (R_trans _ _ _ Hm (Hk a w1)).
Qed.

Lemma keeps_try_catch {A} (body handler : Stage A) :
  keeps R body -> keeps R handler -> keeps R (try_catch body handler).
Proof.
  intros Hb Hh w. unfold try_catch. specialize (Hb w).
  destruct (body w) as [[a|r|] w1]; try exact Hb.
  exact (R_trans _ _ _ Hb (Hh w1)).
Qed.

Lemma keeps_when b (m : Stage unit) : keeps R m -> keeps R (when b m).
Proof. intros Hm. destruct b; [exact Hm | apply keeps_ret]. Qed.

Lemma keeps_for_each n i (body : nat -> Stage unit) :
  (forall j, keeps R (body j)) -> keeps R (for_each n i body).
Proof.
  intros Hb. revert i. induction n as [|n IH]; intros i; [apply keeps_ret|].
  cbn [for_each]. apply keeps_bind; [apply Hb | intros _; apply IH].
Qed.

Lemma keeps_if {A} (b : bool) (m1 m2 : Stage A) :
  keeps R m1 -> keeps R m2 -> keeps R (if b then m1 else m2).
Proof. destruct b; auto. Qed.

End Keeps.

Section JobFrame.
Variable item_id : Z.

Lemma job_frame_refl w : job_frame item_id w w.
Proof. repeat split; auto. Qed.

Lemma job_frame_trans a b c :
  job_frame item_id a b -> job_frame item_id b c -> job_frame item_id a c.
Proof.
  intros (Hf1 & Hs1 & Hd1 & Hc1 & Hr1) (Hf2 & Hs2 & Hd2 & Hc2 & Hr2).
  split; [|split; [|split; [|split]]].
  - intros p Hp. rewrite (Hf2 p Hp). apply Hf1, Hp.
  - congruence.
  - congruence.
  - destruct Hc2 as [Hc2|Hc2]; [rewrite Hc2; exact Hc1 | right; exact Hc2].
  - intros k Hk Hcur. rewrite Hr2; [apply Hr1; assumption | exact Hk |].
    destruct Hc1 as [-> | ->]; [exact Hcur | right; lia].
Qed.

Lemma keeps_create p : p ∈ own_paths item_id -> keeps (job_frame item_id) (create p).
Proof.
  intros Hown w. unfold create. cbn [snd].
  split; [|repeat split; auto].
  intros p' Hp'. cbn [files]. rewrite elem_of_cons.
  split; [intros [->|H]; [contradiction | exact H] | auto].
Qed.

Lemma keeps_remove p : p ∈ own_paths item_id -> keeps (job_frame item_id) (remove p).
Proof.
  intros Hown w. unfold remove. cbn [snd].
  split; [|repeat split; auto].
  intros p' Hp'. cbn [files]. rewrite list_elem_of_filter.
  split; [intros [_ H]; exact H|]. intros H. split; [|exact H].
  intros ->. contradiction.
Qed.

Lemma keeps_cancel_point run : keeps (job_frame item_id) (cancel_point run).
Proof.
  intros w. unfold cancel_point. cbn [snd].
  destruct (bool_decide _); [|repeat split; auto].
  unfold cancelCurrentJob. destruct (select_oldest _ _) as [[k r]|];
    repeat split; auto.
Qed.

Lemma keeps_acknowledge : keeps (job_frame item_id) acknowledge.
Proof.
  intros w. unfold acknowledge, on_queue, markCurrentJobCancelled. cbn [snd].
  destruct (Z.ltb_spec 0 (current_job_id (queue w))) as [Hpos|Hneg].
  - split; [intros; reflexivity|]. cbn [queue db db_seq shutdown_requested current_job_id].
    repeat split; auto.
    intros k _ [Hk|Hk]; [|lia]. apply lookup_delete_ne. congruence.
  - repeat split; auto.
Qed.

Lemma keeps_markBellaStarted now :
  keeps (job_frame item_id)
        (on_queue (fun q => (markBellaStarted now item_id q).2) [call_markBellaStarted item_id]).
Proof.
  intros w. unfold on_queue, markBellaStarted, set_db. cbn [snd].
  split; [intros; reflexivity|]. cbn [queue db db_seq shutdown_requested current_job_id].
  repeat split; auto.
  intros k Hk _. apply lookup_alter_ne. congruence.
Qed.

Lemma keeps_cancel_check run : keeps (job_frame item_id) (cancel_check run).
Proof.
  unfold cancel_check.
  apply keeps_bind; [apply job_frame_trans | apply keeps_cancel_point|].
  intros c. apply keeps_if; [|apply keeps_ret, job_frame_refl].
  apply keeps_bind; [apply job_frame_trans | apply keeps_acknowledge|].
  intros _. apply keeps_return, job_frame_refl.
Qed.

Lemma keeps_wait_render run n : keeps (job_frame item_id) (wait_render run n).
Proof.
  induction n as [|n IH]; [apply keeps_ret, job_frame_refl|].
  cbn [wait_render].
  apply keeps_bind; [apply job_frame_trans | apply keeps_cancel_point|].
  intros c. apply keeps_if; [apply keeps_ret, job_frame_refl | exact IH].
Qed.

Lemma keeps_processVmaxFile run name message :
  keeps (job_frame item_id) (processVmaxFile run name message item_id).
Proof.
  assert (Ht : temp_vmax_filename item_id ∈ own_paths item_id) by (unfold own_paths; rewrite !elem_of_cons; auto).
  assert (Hw : work_dir item_id ∈ own_paths item_id) by (unfold own_paths; rewrite !elem_of_cons; auto).
  assert (He : temp_extract_dir item_id ∈ own_paths item_id) by (unfold own_paths; rewrite !elem_of_cons; auto).
  pose proof job_frame_refl as Hrefl. pose proof job_frame_trans as Htrans.
  pose proof keeps_cancel_check as Hcheck.
  unfold processVmaxFile.
  repeat first
    [ apply keeps_create; assumption
    | apply keeps_remove; assumption
    | apply keeps_ret; assumption
    | apply keeps_return; assumption
    | apply keeps_throw; assumption
    | apply keeps_acknowledge
    | apply keeps_markBellaStarted
    | apply keeps_wait_render
    | apply Hcheck
    | apply keeps_when
    | apply keeps_if
    | apply keeps_try_catch; [assumption| |]
    | apply keeps_for_each; [assumption| |intros ?]
    | apply keeps_bind; [assumption| |intros ?] ].
  all: first [exact Hrefl | exact Htrans].
Qed.


End JobFrame.

Section Isolation.
Variable item_id : Z.

Lemma job_isolated_refl w : job_isolated item_id w w.
Proof. repeat split; auto. Qed.

Lemma job_isolated_trans a b c :
  job_isolated item_id a b -> job_isolated item_id b c -> job_isolated item_id a c.
Proof.
  intros (Hf1 & Hs1 & Hd1 & Hr1) (Hf2 & Hs2 & Hd2 & Hr2).
  split; [|split; [|split]]; try congruence.
  - intros p Hp. rewrite (Hf2 p Hp). apply Hf1, Hp.
  - intros k Hk. rewrite (Hr2 k Hk). apply Hr1, Hk.
Qed.

Lemma job_frame_isolated a b :
  job_frame item_id a b ->
  current_job_id (queue a) = item_id \/ current_job_id (queue a) <= 0 ->
  job_isolated item_id a b.
Proof.
  intros (Hf & Hs & Hd & _ & Hr) Hcur.
  split; [exact Hf|]. split; [exact Hs|]. split; [exact Hd|].
  intros k Hk. apply Hr; [exact Hk|]. destruct Hcur as [<-|Hle]; auto.
Qed.

Lemma with_queue_isolated (f : WorkQueue -> WorkQueue) e w :
  db_seq (f (queue w)) = db_seq (queue w) ->
  shutdown_requested (f (queue w)) = shutdown_requested (queue w) ->
  (forall k, k <> item_id -> db (f (queue w)) !! k = db (queue w) !! k) ->
  job_isolated item_id w (with_queue f e w).
Proof. intros. unfold with_queue. repeat split; auto. Qed.

Lemma markFailed_rows max_retries q :
  db_seq (markFailed item_id max_retries q).2 = db_seq q
  /\ shutdown_requested (markFailed item_id max_retries q).2 = shutdown_requested q
  /\ forall k, k <> item_id -> db (markFailed item_id max_retries q).2 !! k = db q !! k.
Proof.
  unfold markFailed. destruct (db q !! item_id) as [r|]; [|auto].
  destruct (max_retries <=? sqlite3_column_int (DbRow.retry_count r));
    cbn [snd set_db db db_seq shutdown_requested]; repeat split; intros k Hk.
  - apply lookup_delete_ne. congruence.
  - apply lookup_alter_ne. congruence.
Qed.

Lemma markCompleted_rows now q :
  db_seq (markCompleted now item_id q).2 = db_seq q
  /\ shutdown_requested (markCompleted now item_id q).2 = shutdown_requested q
  /\ forall k, k <> item_id -> db (markCompleted now item_id q).2 !! k = db q !! k.
Proof.
  unfold markCompleted. cbn [snd set_db db db_seq shutdown_requested].
  repeat split. intros k Hk. apply lookup_alter_ne. congruence.
Qed.

Lemma cancelCurrentJob_rows q :
  db_seq (cancelCurrentJob q).2 = db_seq q
  /\ shutdown_requested (cancelCurrentJob q).2 = shutdown_requested q
  /\ db (cancelCurrentJob q).2 = db q
  /\ current_job_id (cancelCurrentJob q).2 = current_job_id q.
Proof.
  unfold cancelCurrentJob. destruct (select_oldest _ _) as [[k r]|]; repeat split.
Qed.

End Isolation.

Lemma worker_iteration_job_isolated run item w :
  job_isolated (id item) w (world_of (worker_iteration run item w)).
Proof.
  pose proof (job_isolated_trans (id item)) as Htrans.
  assert (Hfail : forall a,
             job_isolated (id item) a
               (with_queue (fun q => (markFailed (id item) default_max_retries q).2)
                  [call_markFailed (id item)]
                  (with_queue (fun q => q) [call_message_create (channel_id item)] a))).
  { intros a. apply (Htrans _ (with_queue (fun q => q) [call_message_create (channel_id item)] a)).
    - apply with_queue_isolated; auto.
    - apply with_queue_isolated; apply markFailed_rows. }
  assert (Hdone : forall a,
             job_isolated (id item) a
               (with_queue (fun q => (markCompleted (completed_at run) (id item) q).2)
                  [call_markCompleted (id item)]
                  (with_queue (fun q => q) [call_message_create (channel_id item)] a))).
  { intros a. apply (Htrans _ (with_queue (fun q => q) [call_message_create (channel_id item)] a)).
    - apply with_queue_isolated; auto.
    - apply with_queue_isolated; apply markCompleted_rows. }
  assert (Hack : forall a,
             current_job_id (queue a) = id item \/ current_job_id (queue a) <= 0 ->
             job_isolated (id item) a
               (with_queue markCurrentJobCancelled [call_markCurrentJobCancelled] a)).
  { intros a Hcur. apply job_frame_isolated; [|exact Hcur].
    exact (keeps_acknowledge (id item) a). }
  unfold worker_iteration.
  set (w0 := if cancel_during_download run
             then with_queue (fun q => (cancelCurrentJob q).2) [] w else w).
  apply (Htrans _ w0).
  { unfold w0. destruct (cancel_during_download run); [|apply job_isolated_refl].
    destruct (cancelCurrentJob_rows (queue w)) as (Hs & Hd & Hdb & _).
    apply with_queue_isolated; auto. intros k _. rewrite Hdb. reflexivity. }
  clearbody w0.
  destruct (response_status run =? 200); [|apply Hfail].
  set (w1 := with_queue (setCurrentJobId (id item)) _ w0).
  assert (Hcur1 : current_job_id (queue w1) = id item) by reflexivity.
  apply (Htrans _ w1); [apply with_queue_isolated; auto|].
  clearbody w1.
  destruct (shouldCancelCurrentJob (queue w1)); [apply Hack; auto|].
  pose proof (keeps_processVmaxFile (id item) (pipeline run) (original_filename item)
                (message_content item) w1) as Hrun.
  destruct (processVmaxFile _ _ _ _ w1) as [res w2]. cbn [snd] in Hrun.
  assert (Hcur2 : current_job_id (queue w2) = id item \/ current_job_id (queue w2) <= 0).
  { destruct Hrun as (_ & _ & _ & [Hc|Hc] & _); [left; congruence | right; lia]. }
  apply job_frame_isolated in Hrun; [|auto].
  apply (Htrans _ w2); [exact Hrun|].
  destruct res as [[]|r|]; try apply job_isolated_refl.
  destruct (shouldCancelCurrentJob (queue w2)); cbn [orb]; [apply Hack; exact Hcur2|].
  destruct (String.eqb r EmptyString); [apply job_isolated_refl|]. cbn zeta.
  destruct (_ && _); [apply Hdone | apply Hfail].
Qed.

(** X21: one turn of the worker's loop touches no other job, however it
    ends: every job-scoped path of another job exists afterwards exactly if
    it existed before, every row other than the job's own is as it was, and
    so are the id counter and the shutdown flag. *)
Theorem worker_iteration_isolation run item w :
  (forall p, p ∉ own_paths (id item) ->
     (p ∈ files (world_of (worker_iteration run item w)) <-> p ∈ files w))
  /\ db_seq (queue (world_of (worker_iteration run item w))) = db_seq (queue w)
  /\ shutdown_requested (queue (world_of (worker_iteration run item w)))
     = shutdown_requested (queue w)
  /\ forall k, k <> id item ->
       db (queue (world_of (worker_iteration run item w))) !! k = db (queue w) !! k.
Proof.
  destruct (worker_iteration_job_isolated run item w) as (Hfiles & Hseq & Hflag & Hrows).
  split; [exact Hfiles|]. split; [exact Hseq|]. split; [exact Hflag | exact Hrows].
Qed.

(** X18: [processVmaxFile] touches no other job, however it ends: every
    job-scoped path of another job exists afterwards exactly if it existed
    before, the id counter and the shutdown flag are as they were, and
    every row other than the job's own and that of the current job is as
    it was. *)
Theorem processVmaxFile_touches_its_job_only run name message item_id w :
  (forall p, p ∉ own_paths item_id ->
     (p ∈ files (processVmaxFile run name message item_id w).2 <-> p ∈ files w))
  /\ db_seq (queue (processVmaxFile run name message item_id w).2) = db_seq (queue w)
  /\ shutdown_requested (queue (processVmaxFile run name message item_id w).2)
     = shutdown_requested (queue w)
  /\ forall k, k <> item_id -> k <> current_job_id (queue w) ->
       db (queue (processVmaxFile run name message item_id w).2) !! k = db (queue w) !! k.
Proof.
  destruct (keeps_processVmaxFile item_id run name message w) as (Hf & Hs & Hd & _ & Hr).
  split; [exact Hf|]. split; [exact Hs|]. split; [exact Hd|].
  intros k Hk Hcur. apply Hr; auto.
Qed.

(** ** What becomes of a completed row *)

(** The worker never touches a row that is [completed]. *)
Lemma workerThread_keeps_settled_rows script w k r :
  keys_issued (queue w) -> db (queue w) !! k = Some r -> DbRow.status r = completed ->
  db (queue (world_of (workerThread script w))) !! k = Some r.
Proof.
  revert w. induction script as [|[arrivals run] script IH]; intros w Hw Hk Hs.
  - exact Hk.
  - cbn [workerThread]. rewrite dequeue_nil.
    destruct (perform_all_keeps_row arrivals (queue w) k r Hw Hk) as [Hw1 Hk1].
    set (q1 := perform_all arrivals (queue w)) in *.
    destruct (dequeue_attempt q1) as [item q2| |] eqn:E; [|exact Hk1|exact Hk1].
    assert (Hd : dequeue [] q1 = Claimed item q2) by (rewrite dequeue_nil; exact E).
    destruct (claimed_id_issued [] q1 item q2 Hw1 Hd) as (Hpos & Hw2 & _).
    apply dequeue_attempt_claimed in E as (_ & r0 & Hk0 & Hp0 & _ & Hq2 & _).
    assert (Hne : k <> id item) by (intros ->; congruence).
    assert (Hk2 : db q2 !! k = Some r).
    { rewrite Hq2. cbn [set_db db]. rewrite lookup_insert_ne by congruence. exact Hk1. }
    assert (Hitem : is_Some (db q2 !! id item)).
    { rewrite Hq2. cbn [set_db db]. rewrite lookup_insert_eq. eauto. }
    set (w2 := mkWorld q2 (files w) 0 (calls w)).
    destruct (worker_iteration_job_isolated run item w2) as (_ & Hseq & _ & Hrows).
    assert (Hk3 : db (queue (world_of (worker_iteration run item w2))) !! k = Some r)
      by (rewrite Hrows by exact Hne; exact Hk2).
    assert (Hw3 : keys_issued (queue (world_of (worker_iteration run item w2)))).
    { destruct Hw2 as [H0 Hall]. split; [rewrite Hseq; exact H0|].
      intros k' r' Hk'. rewrite Hseq. destruct (decide (k' = id item)) as [->|Hne'].
      - destruct Hitem as [ri Hi]. exact (Hall _ _ Hi).
      - rewrite Hrows in Hk' by exact Hne'. exact (Hall _ _ Hk'). }
    destruct (worker_iteration run item w2) as [w3|w3|w3]; cbn [world_of] in *.
    + apply IH; assumption.
    + exact Hk3.
    + exact Hk3.
Qed.

(** X3: [markCompleted] rewrites the status and the end time of the one
    row and nothing else, and does nothing at all (while still returning
    true) when the id has no row.  The completed job is not handed out by
    the next [dequeue], whatever the other threads do meanwhile, and the
    worker thread, whatever jobs it works through, leaves the row as it
    is.  The queue itself does not protect the row: [markFailed] does not
    look at the status, and called on the completed row with a retry left
    it makes the row [pending] again. *)
Theorem markCompleted_settles_the_row now k q :
  (markCompleted now k q).1 = true
  /\ (db q !! k = None -> (markCompleted now k q).2 = q)
  /\ (forall r, db q !! k = Some r ->
        db (markCompleted now k q).2 !! k
        = Some (DbRow.set_bella_end_time now (DbRow.set_status completed r)))
  /\ (forall j, j <> k -> db (markCompleted now k q).2 !! j = db q !! j)
  /\ (forall r env item q2,
        keys_issued q -> db q !! k = Some r ->
        dequeue env (markCompleted now k q).2 = Claimed item q2 -> id item <> k)
  /\ (forall r script w,
        keys_issued q -> db q !! k = Some r ->
        queue w = (markCompleted now k q).2 ->
        db (queue (world_of (workerThread script w))) !! k
        = Some (DbRow.set_bella_end_time now (DbRow.set_status completed r)))
  /\ (forall r max_retries,
        db q !! k = Some r ->
        sqlite3_column_int (DbRow.retry_count r) < max_retries ->
        exists r',
          db (markFailed k max_retries (markCompleted now k q).2).2 !! k = Some r'
          /\ DbRow.status r' = pending).
Proof.
  assert (Hrow : forall r, db q !! k = Some r ->
            db (markCompleted now k q).2 !! k
            = Some (DbRow.set_bella_end_time now (DbRow.set_status completed r))).
  { intros r Hk. cbn [markCompleted snd set_db db].
    rewrite lookup_alter, decide_True, Hk by reflexivity. reflexivity. }
  assert (Hkeys : keys_issued q -> keys_issued (markCompleted now k q).2).
  { intros Hw. apply (keys_issued_shrink q); [reflexivity| |exact Hw].
    intros j r'. apply alter_keys. }
  split; [reflexivity|]. split; [|split; [|split; [|split; [|split]]]].
  - intros Hk. cbn [markCompleted snd]. rewrite alter_absent by exact Hk. apply set_db_same.
  - exact Hrow.
  - intros j Hj. cbn [markCompleted snd set_db db]. apply lookup_alter_ne. congruence.
  - intros r env item q2 Hw Hk Hd.
    eapply (settled_row_not_claimed env (markCompleted now k q).2 k); [| | |exact Hd].
    + exact (Hkeys Hw).
    + exact (Hrow r Hk).
    + discriminate.
  - intros r script w Hw Hk Hq.
    apply workerThread_keeps_settled_rows; [rewrite Hq; exact (Hkeys Hw) | |reflexivity].
    rewrite Hq. exact (Hrow r Hk).
  - intros r max_retries Hk Hlt. unfold markFailed. rewrite (Hrow r Hk).
    change (DbRow.retry_count (DbRow.set_bella_end_time now (DbRow.set_status completed r)))
      with (DbRow.retry_count r).
    destruct (Z.leb_spec max_retries (sqlite3_column_int (DbRow.retry_count r))); [lia|].
    cbn [snd set_db db]. rewrite lookup_alter_eq, (Hrow r Hk).
    eexists. split; reflexivity.
Qed.

Lemma markCompleted_settles_the_row_witness :
  keys_issued queue_x_claimed
  /\ db queue_x_claimed !! 1 = Some (DbRow.set_status processing (row_of_item job_x))
  /\ db queue_x_claimed !! 7 = None
  /\ (markCompleted 5200 7 queue_x_claimed).2 = queue_x_claimed
  /\ db (markCompleted 5200 1 queue_x_claimed).2 !! 1
     = Some (DbRow.set_bella_end_time 5200 (DbRow.set_status completed (row_of_item job_x)))
  /\ dequeue [act_enqueue job_y] (markCompleted 5200 1 queue_x_claimed).2
     = Claimed claimed_y (markCompleted 5200 1 queue_xy_claimed).2
  /\ id claimed_y <> 1.
Proof.
  assert (Hw : keys_issued queue_x_claimed) by (apply keys_issued_check; vm_compute; reflexivity).
  assert (H1 : db queue_x_claimed !! 1 = Some (DbRow.set_status processing (row_of_item job_x)))
    by (vm_compute; reflexivity).
  assert (H7 : db queue_x_claimed !! 7 = None) by (vm_compute; reflexivity).
  assert (Hd : dequeue [act_enqueue job_y] (markCompleted 5200 1 queue_x_claimed).2
               = Claimed claimed_y (markCompleted 5200 1 queue_xy_claimed).2)
    by (vm_compute; reflexivity).
  destruct (markCompleted_settles_the_row 5200 7 queue_x_claimed) as (_ & Hnoop & _).
  destruct (markCompleted_settles_the_row 5200 1 queue_x_claimed)
    as (_ & _ & Hrow & _ & Hnever & _).
  split; [exact Hw|]. split; [exact H1|]. split; [exact H7|].
  split; [exact (Hnoop H7)|]. split; [exact (Hrow _ H1)|]. split; [exact Hd|].
  exact (Hnever _ _ _ _ Hw H1 Hd).
Defined.

Lemma perform_all_shutdown acts q :
  shutdown_requested q = true -> shutdown_requested (perform_all acts q) = true.
Proof.
  revert q. induction acts as [|a acts IH]; intros q Hs; [exact Hs|].
  cbn [perform_all foldl]. apply IH. apply perform_shutdown_flag. left. exact Hs.
Qed.

Lemma worker_iteration_exits run item w :
  (forall w', worker_iteration run item w <> ShutDown w')
  /\ (forall w', worker_iteration run item w = Terminated w' ->
        response_status run = 200 /\ unzip_result (pipeline run) = 0
        /\ staging_throws (pipeline run) = true).
Proof.
  unfold worker_iteration.
  set (w0 := if cancel_during_download run
             then with_queue (fun q => (cancelCurrentJob q).2) [] w else w).
  clearbody w0.
  destruct (Z.eqb_spec (response_status run) 200) as [Hstatus|];
    [|split; intros; discriminate].
  set (w1 := with_queue (setCurrentJobId (id item)) _ w0). clearbody w1.
  destruct (shouldCancelCurrentJob (queue w1)); [split; intros; discriminate|].
  pose proof (processVmaxFile_throw_iff (pipeline run) (original_filename item)
                (message_content item) (id item) w1) as Hiff.
  destruct (processVmaxFile _ _ _ _ w1) as [[[]|r|] w2]; cbn [fst] in Hiff.
  - split; intros; discriminate.
  - destruct (shouldCancelCurrentJob (queue w2)); cbn [orb];
      [split; intros; discriminate|].
    destruct (String.eqb r EmptyString); [split; intros; discriminate|]. cbn zeta.
    destruct (_ && _); split; intros; discriminate.
  - split; [intros; discriminate|]. intros w' _.
    destruct (proj1 Hiff eq_refl). auto.
Qed.

(** X22: once the shutdown flag is up, the worker's next call of
    [dequeue] ends the loop, whatever is waiting and whatever arrives, and
    the worker touches no further job; and the thread dies from an
    exception of the pipeline only in a turn whose download succeeded and
    whose staging throws. *)
Theorem workerThread_exits script w :
  (forall arrivals run rest,
      script = (arrivals, run) :: rest -> shutdown_requested (queue w) = true ->
      workerThread script w
      = ShutDown (mkWorld (perform_all arrivals (queue w)) (files w)
                          (checkpoints w) (calls w)))
  /\ (forall w', workerThread script w = Terminated w' ->
        exists arrivals run,
          (arrivals, run) ∈ script /\ response_status run = 200
          /\ unzip_result (pipeline run) = 0 /\ staging_throws (pipeline run) = true).
Proof.
  split.
  - intros arrivals run rest -> Hs. cbn [workerThread]. rewrite dequeue_nil.
    rewrite (proj2 (dequeue_attempt_closed _) (perform_all_shutdown arrivals _ Hs)).
    reflexivity.
  - revert w. induction script as [|[arrivals run] rest IH]; intros w w'; [discriminate|].
    cbn [workerThread]. rewrite dequeue_nil.
    destruct (dequeue_attempt _) as [item q| |] eqn:E; try discriminate.
    destruct (worker_iteration run item _) as [w1|w1|w1] eqn:Hit.
    + intros H. destruct (IH _ _ H) as (a & r & Hin & Hrest).
      exists a, r. split; [apply list_elem_of_further; exact Hin | exact Hrest].
    + discriminate.
    + intros _. exists arrivals, run. split; [apply list_elem_of_here|].
      exact (proj2 (worker_iteration_exits _ _ _) _ Hit).
Qed.

Lemma workerThread_exits_witness :
  shutdown_requested (queue (mkWorld (requestShutdown one_job_queue).2 [] 0 [])) = true
  /\ workerThread [([], delivered run_ok)] (mkWorld (requestShutdown one_job_queue).2 [] 0 [])
     = ShutDown (mkWorld (requestShutdown one_job_queue).2 [] 0 [])
  /\ count_status pending (requestShutdown one_job_queue).2 = 1%nat.
Proof.
  assert (Hs : shutdown_requested
                 (queue (mkWorld (requestShutdown one_job_queue).2 [] 0 [])) = true)
    by reflexivity.
  destruct (workerThread_exits [([], delivered run_ok)]
              (mkWorld (requestShutdown one_job_queue).2 [] 0 [])) as (Hstop & _).
  split; [exact Hs|]. split; [exact (Hstop _ _ _ eq_refl Hs)|].
  vm_compute. reflexivity.
Defined.

(** * The mesh faces *)

Section Faces.

Lemma faces_by_three (P : list Z -> Prop) :
  P [] -> (forall a, P [a]) -> (forall a b, P [a; b]) ->
  (forall a b c rest, P rest -> P (a :: b :: c :: rest)) ->
  forall indices, P indices.
Proof.
  intros H0 H1 H2 H3 indices.
  assert (H : P indices /\ (forall a, P (a :: indices)) /\ (forall a b, P (a :: b :: indices))).
  { induction indices as [|c rest (IH0 & IH1 & IH2)]; [auto|].
    split; [apply IH1|]. split; [intros a; apply IH2|].
    intros a b. apply H3. exact IH0. }
  apply H.
Qed.

(** X23: the loop that fills [facesArray] stays within [index_count]
    exactly when the number of indices is a multiple of three.  It then
    makes one face per three indices: the first three components of the
    faces, read in order, are the indices again, and the fourth component
    of every face repeats the third. *)
Theorem faces_round_trip indices :
  (is_Some (faces indices) <-> (List.length indices mod 3 = 0)%nat)
  /\ forall fs, faces indices = Some fs ->
       List.length indices = (3 * List.length fs)%nat
       /\ indices = List.concat ((fun f : Z * Z * Z * Z => [f.1.1.1; f.1.1.2; f.1.2]) <$> fs)
       /\ Forall (fun f : Z * Z * Z * Z => f.2 = f.1.2) fs.
Proof.
  induction indices as [|a|a b|a b c rest [IHiff IH]] using faces_by_three.
  - split; [split; [reflexivity | intros _; eexists; reflexivity]|].
    intros fs [= <-]. repeat split. constructor.
  - split; [|discriminate]. split; [intros [? H]|]; discriminate.
  - split; [|discriminate]. split; [intros [? H]|]; discriminate.
  - cbn [faces]. destruct (faces rest) as [fs0|].
    + destruct (IH fs0 eq_refl) as (Hlen & Hflat & Hrep).
      split.
      * split; [intros _|intros _; eexists; reflexivity].
        cbn [List.length]. rewrite Hlen.
        replace (S (S (S (3 * List.length fs0)))) with ((1 + List.length fs0) * 3)%nat by lia.
        apply Nat.Div0.mod_mul.
      * intros fs [= <-]. cbn [List.length fmap list_fmap List.concat fst snd].
        split; [lia|]. split; [simpl; f_equal; f_equal; f_equal; exact Hflat|].
        constructor; [reflexivity | exact Hrep].
    + split; [|discriminate].
      split; [intros [? H]; discriminate|].
      intros Hmod. exfalso.
      assert (Hrest : (List.length rest mod 3 = 0)%nat).
      { cbn [List.length] in Hmod.
        replace (S (S (S (List.length rest)))) with (List.length rest + 1 * 3)%nat in Hmod by lia.
        rewrite Nat.Div0.mod_add in Hmod. exact Hmod. }
      apply IHiff in Hrest as [? H]. discriminate.
Qed.

Lemma faces_round_trip_witness :
  faces [0; 1; 2; 2; 3; 0] = Some [(0, 1, 2, 2); (2, 3, 0, 0)]
  /\ List.length [0; 1; 2; 2; 3; 0] = (3 * 2)%nat
  /\ faces [0; 1; 2; 2] = None.
Proof.
  assert (H : faces [0; 1; 2; 2; 3; 0] = Some [(0, 1, 2, 2); (2, 3, 0, 0)]) by reflexivity.
  destruct (faces_round_trip [0; 1; 2; 2; 3; 0]) as [_ Hall].
  destruct (Hall _ H) as (Hlen & _).
  split; [exact H|]. split; [exact Hlen | reflexivity].
Defined.

End Faces.
